(** * Ballistica: cross-thread object lifecycle and interpreter affinity

    A shallow embedding of the ownership / threading substrate of the
    ballistica engine core: the Python reference wrapper, weak references to
    engine objects, the logic-thread event loop, ambient-context save/restore
    and the one-shot timer entry points, followed by the properties proved
    about them.

    Part I holds the embedding, Part II the lemmas and theorems. *)

From Stdlib Require Import ZArith String List Bool Lia.
From Stdlib Require Import SpecFloat.
From Stdlib Require Import DecimalString.
From stdpp Require Import base option gmap list.
From stdpp Require Import strings.

Local Open Scope string_scope.

(* ===================================================================== *)
(** * Part I: the embedding                                               *)
(* ===================================================================== *)

(** ** Exceptions and the outcome of a native entry point *)

Module Exc.

(** [PyExcType]: the enumerators that the sources name
    (base.cc [GetPyExceptionType], base_python.cc, python_methods_app.cc). *)
Inductive PyExcType : Set :=
| kRuntime
| kType
| kValue
| kContext
| kNotFound
| kNodeNotFound
| kSessionPlayerNotFound
| kInputDeviceNotFound
| kDelegateNotFound
| kWidgetNotFound
| kActivityNotFound
| kSessionNotFound.

(** [Exception] (exception.cc): a message and the Python exception type it
    converts to. *)
Record Exception : Set := MkException {
  message_ : string;
  python_type_ : PyExcType
}.

(** Modelled from the spec: exception.h (the declaration of the
    constructors' default arguments) is missing.  [Exception(msg)] without
    an explicit type is the plain runtime error of the taxonomy, and
    [Exception(type)] carries an empty message. *)
Definition Exception_msg (m : string) : Exception := MkException m kRuntime.
Definition Exception_type (t : PyExcType) : Exception := MkException "" t.

(** What a call into native code can end with.  [Raised] is a C++
    [throw Exception(..)] caught at the boundary by [BA_PYTHON_CATCH] and
    handed to the interpreter as a Python exception; [Fatal] is
    [FatalError(..)], which ends the process. *)
Inductive Outcome (A : Type) : Type :=
| Returned (a : A)
| Raised (e : Exception)
| Fatal (msg : string).
Arguments Returned {A} a.
Arguments Raised {A} e.
Arguments Fatal {A} msg.

Definition is_fatal {A} (o : Outcome A) : bool :=
  match o with Fatal _ => true | _ => false end.

Definition is_raised {A} (o : Outcome A) : bool :=
  match o with Raised _ => true | _ => false end.

Definition is_returned {A} (o : Outcome A) : bool :=
  match o with Returned _ => true | _ => false end.

(** Modelled from the spec: the [BA_PRECONDITION] macro is missing from the
    sources; section 7 of the spec has misuse surface as an exception. *)
Definition BA_PRECONDITION (cond : bool) (text : string) : Outcome unit :=
  if cond then Returned tt
  else Raised (Exception_msg ("Precondition failed: " ++ text)).

(** base_python.cc [BasePython::OnMainThreadStartApp]: the one place of the
    embedded sources where a failed result is a process-level stop. *)
Definition OnMainThreadStartApp (result_exists : bool) : Outcome unit :=
  if result_exists then Returned tt
  else Fatal "baenv.on_babase_start_app() failed.".

End Exc.
Export Exc.

(** ** PythonRef: the managed reference to an interpreter object *)

Module PyRef.

(** A [PyObject*]: [None] is [nullptr], [Some a] the object at address [a]. *)
Definition PyObjectPtr : Set := option positive.

(** The interpreter heap: the reference count of every live object. *)
Abbreviation PyHeap := (gmap positive nat).

Definition Py_INCREF (o : positive) (h : PyHeap) : PyHeap :=
  alter S o h.

(** [Py_DECREF] deallocates the object when the count drops to zero. *)
Definition Py_DECREF (o : positive) (h : PyHeap) : PyHeap :=
  match h !! o with
  | Some (S (S n)) => <[o := S n]> h
  | Some _ => delete o h
  | None => h
  end.

Definition refcount (o : positive) (h : PyHeap) : nat :=
  default 0 (h !! o).

(** python_ref.h [enum ReferenceBehavior]. *)
Inductive ReferenceBehavior : Set :=
| kSteal
| kStealSoft
| kAcquire
| kAcquireSoft.

(** python_ref.h: the wrapper's only field, [PyObject* obj_{}]. *)
Record PythonRef : Set := MkPythonRef { obj_ : PyObjectPtr }.

(** [PythonRef() {}]: creates in an unreferenced state. *)
Definition unreferenced : PythonRef := MkPythonRef None.

(** [Get()] and [Exists()], inline in python_ref.h. *)
Definition Get (r : PythonRef) : PyObjectPtr := obj_ r.
Definition Exists (r : PythonRef) : bool :=
  match obj_ r with Some _ => true | None => false end.

(** Modelled from the spec: python_ref.cc is missing.  The error raised
    when a null handle reaches a non-soft operation. *)
Definition InvalidReferenceError : Exception :=
  Exception_msg "Precondition failed: obj_in".

(** Modelled from the spec: python_ref.cc is missing.  [Release()]
    decrements and clears to empty; a no-op when already empty. *)
Definition Release (r : PythonRef) (h : PyHeap) : PythonRef * PyHeap :=
  match obj_ r with
  | Some o => (MkPythonRef None, Py_DECREF o h)
  | None => (r, h)
  end.

(** Modelled from the spec: python_ref.cc is missing.  [Acquire(obj)]
    increments and takes a new reference, failing on null; the reference
    held before is given up after the new one is taken. *)
Definition Acquire (obj : PyObjectPtr) (r : PythonRef) (h : PyHeap)
  : Outcome (PythonRef * PyHeap) :=
  match obj with
  | None => Raised InvalidReferenceError
  | Some o =>
      let h1 := Py_INCREF o h in
      Returned (MkPythonRef (Some o),
                match obj_ r with Some prev => Py_DECREF prev h1 | None => h1 end)
  end.

(** Modelled from the spec: python_ref.cc is missing.  [Steal(obj)] takes
    over a reference the caller already held (no increment), failing on
    null. *)
Definition Steal (obj : PyObjectPtr) (r : PythonRef) (h : PyHeap)
  : Outcome (PythonRef * PyHeap) :=
  match obj with
  | None => Raised InvalidReferenceError
  | Some o =>
      Returned (MkPythonRef (Some o),
                match obj_ r with Some prev => Py_DECREF prev h | None => h end)
  end.

(** Modelled from the spec: python_ref.cc is missing.  The soft variants
    tolerate null, which leaves the wrapper unreferenced. *)
Definition AcquireSoft (obj : PyObjectPtr) (r : PythonRef) (h : PyHeap)
  : Outcome (PythonRef * PyHeap) :=
  match obj with
  | None => Returned (Release r h)
  | Some _ => Acquire obj r h
  end.

Definition StealSoft (obj : PyObjectPtr) (r : PythonRef) (h : PyHeap)
  : Outcome (PythonRef * PyHeap) :=
  match obj with
  | None => Returned (Release r h)
  | Some _ => Steal obj r h
  end.

(** Modelled from the spec: python_ref.cc is missing.
    [PythonRef(PyObject* obj, ReferenceBehavior behavior)] starts from the
    unreferenced wrapper and applies the operation the behavior names. *)
Definition PythonRef_ctor (obj : PyObjectPtr) (behavior : ReferenceBehavior)
    (h : PyHeap) : Outcome (PythonRef * PyHeap) :=
  match behavior with
  | kSteal => Steal obj unreferenced h
  | kStealSoft => StealSoft obj unreferenced h
  | kAcquire => Acquire obj unreferenced h
  | kAcquireSoft => AcquireSoft obj unreferenced h
  end.

(** python_ref.h: the static shortcuts. *)
Definition Stolen (obj : PyObjectPtr) := PythonRef_ctor obj kSteal.
Definition StolenSoft (obj : PyObjectPtr) := PythonRef_ctor obj kStealSoft.
Definition Acquired (obj : PyObjectPtr) := PythonRef_ctor obj kAcquire.
Definition AcquiredSoft (obj : PyObjectPtr) := PythonRef_ctor obj kAcquireSoft.

(** python_ref.h [operator=(const PythonRef& other)]:
    [if (other.Exists()) Acquire(other.Get()); else Release();].
    [other] is a const reference: it is read, never written. *)
Definition assign (self other : PythonRef) (h : PyHeap)
  : Outcome (PythonRef * PyHeap) :=
  if Exists other then Acquire (Get other) self h
  else Returned (Release self h).

(** python_ref.h copy constructor: [{ *this = other; }] on a fresh wrapper. *)
Definition copy_ctor (other : PythonRef) (h : PyHeap)
  : Outcome (PythonRef * PyHeap) :=
  assign unreferenced other h.

(** python_ref.h [operator==]: pointer comparison. *)
Definition eqb (a b : PythonRef) : bool :=
  bool_decide (Get a = Get b).

(** python_ref.h [operator*]: throws when unset. *)
Definition deref (r : PythonRef) : Outcome positive :=
  match obj_ r with
  | None => Raised (Exception_msg "Dereferencing invalid PythonRef")
  | Some o => Returned o
  end.

(** python_ref.h [HandOver()]: clears without decrementing and returns the
    raw pointer ([assert(obj_)] guards the call). *)
Definition HandOver (r : PythonRef) : PythonRef * PyObjectPtr :=
  (MkPythonRef None, obj_ r).

End PyRef.

(** ** EventLoop: a thread and its FIFO queue of deferred calls *)

Module Loop.

Definition thread_id : Set := nat.

(** Modelled from the spec: event_loop.h / event_loop.cc are missing.  An
    EventLoop owns a FIFO queue of deferred callables and a dedicated
    thread; [A] is the type of the queued callables. *)
Record EventLoop (A : Type) : Type := MkEventLoop {
  thread_ : thread_id;
  runnables_ : list A
}.
Arguments MkEventLoop {A} thread_ runnables_.
Arguments thread_ {A} e.
Arguments runnables_ {A} e.

(** Modelled from the spec: [ThreadIsCurrent()], used by base.cc. *)
Definition ThreadIsCurrent {A} (cur : thread_id) (l : EventLoop A) : bool :=
  Nat.eqb cur (thread_ l).

(** Modelled from the spec: [PushCall(callable)] enqueues and returns
    immediately; the queue is appended to under the queue lock. *)
Definition PushCall {A} (c : A) (l : EventLoop A) : EventLoop A :=
  MkEventLoop (thread_ l) (runnables_ l ++ [c]).

(** Modelled from the spec: the loop takes whatever is oldest in its
    queue. *)
Definition pop {A} (l : EventLoop A) : option (A * EventLoop A) :=
  match runnables_ l with
  | [] => None
  | c :: rest => Some (c, MkEventLoop (thread_ l) rest)
  end.

(** *** The loop seen from outside: an interleaving of atomic actions

    Threads push; the owning thread begins the oldest queued callable and
    later finishes it.  What the loop did is recorded as a list of
    observations, each with the thread that made it. *)
Inductive Action (A : Type) : Type :=
| APush (from : thread_id) (c : A)
| ABegin
| AEnd.
Arguments APush {A} from c.
Arguments ABegin {A}.
Arguments AEnd {A}.

Inductive Obs (A : Type) : Type :=
| OBegin (on : thread_id) (c : A)
| OEnd (on : thread_id) (c : A).
Arguments OBegin {A} on c.
Arguments OEnd {A} on c.

Record Sys (A : Type) : Type := MkSys {
  loop : EventLoop A;
  running : option A;
  trace : list (Obs A)
}.
Arguments MkSys {A} loop running trace.
Arguments loop {A} s.
Arguments running {A} s.
Arguments trace {A} s.

Definition init {A} (owner : thread_id) : Sys A :=
  MkSys (MkEventLoop owner []) None [].

(** One atomic action.  [ABegin] is only possible when nothing is running
    (the owning thread is a single sequential thread) and the queue is not
    empty; [AEnd] only when something is running.  An impossible action
    leaves the system as it is. *)
Definition step {A} (s : Sys A) (a : Action A) : Sys A :=
  match a with
  | APush _ c => MkSys (PushCall c (loop s)) (running s) (trace s)
  | ABegin =>
      match running s, pop (loop s) with
      | None, Some (c, l') =>
          MkSys l' (Some c) (trace s ++ [OBegin (thread_ (loop s)) c])
      | _, _ => s
      end
  | AEnd =>
      match running s with
      | Some c => MkSys (loop s) None (trace s ++ [OEnd (thread_ (loop s)) c])
      | None => s
      end
  end.

Definition run {A} (s : Sys A) (acts : list (Action A)) : Sys A :=
  fold_left step acts s.

(** The callables pushed by an interleaving, in the order of their pushes,
    and those pushed by one thread. *)
Fixpoint pushed {A} (acts : list (Action A)) : list A :=
  match acts with
  | [] => []
  | APush _ c :: rest => c :: pushed rest
  | _ :: rest => pushed rest
  end.

Fixpoint pushed_by {A} (t : thread_id) (acts : list (Action A)) : list A :=
  match acts with
  | [] => []
  | APush t' c :: rest =>
      if Nat.eqb t t' then c :: pushed_by t rest else pushed_by t rest
  | _ :: rest => pushed_by t rest
  end.

(** The callables whose execution has begun, in order of beginning. *)
Fixpoint begun {A} (tr : list (Obs A)) : list A :=
  match tr with
  | [] => []
  | OBegin _ c :: rest => c :: begun rest
  | OEnd _ _ :: rest => begun rest
  end.

(** The callables that ran to completion, in order of completion. *)
Fixpoint finished {A} (tr : list (Obs A)) : list A :=
  match tr with
  | [] => []
  | OEnd _ c :: rest => c :: finished rest
  | OBegin _ _ :: rest => finished rest
  end.

Definition obs_thread {A} (o : Obs A) : thread_id :=
  match o with OBegin t _ => t | OEnd t _ => t end.

(** A trace is serial when it is a sequence of [OBegin c; OEnd c] pairs,
    possibly ending in the one [OBegin] of the callable still running:
    no callable begins while another has begun and not ended. *)
Fixpoint serial {A} (tr : list (Obs A)) (cur : option A) : Prop :=
  match tr with
  | [] => True
  | OBegin _ c :: rest => cur = None /\ serial rest (Some c)
  | OEnd _ c :: rest => cur = Some c /\ serial rest None
  end.

(** What is running once a serial trace has been played. *)
Fixpoint after {A} (tr : list (Obs A)) (cur : option A) : option A :=
  match tr with
  | [] => cur
  | OBegin _ c :: rest => after rest (Some c)
  | OEnd _ _ :: rest => after rest None
  end.

(** The owning thread draining the queue on its own: begin and finish the
    oldest callable, [n] times over. *)
Fixpoint drain {A} (n : nat) : list (Action A) :=
  match n with
  | O => []
  | S k => ABegin :: AEnd :: drain k
  end.

(** What every reachable state of the loop satisfies. *)
Record loop_inv {A} (owner : thread_id) (acts : list (Action A)) (s : Sys A) : Prop :=
  MkLoopInv {
    inv_owner : thread_ (loop s) = owner;
    inv_fifo : (begun (trace s) ++ runnables_ (loop s))%list = pushed acts;
    inv_thread : Forall (fun o => obs_thread o = owner) (trace s);
    inv_serial : serial (trace s) None;
    inv_running : after (trace s) None = running s;
    inv_finished :
      begun (trace s) =
      (finished (trace s) ++ from_option (fun c => [c]) [] (running s))%list
  }.

End Loop.

(** ** BaseFeatureSet: contexts, deferred calls and one-shot timers *)

Module Base.
Import Loop.

(** Modelled from the spec: context.h is missing.  A [Context] is the
    "active simulation context"; base_python.cc asks it one question,
    [ContextAllowsDefaultTimerTypes()].  A [ContextRef] names a context or
    is the explicit empty one, [ContextRef(nullptr)]. *)
Record Context : Set := MkContext {
  context_id : nat;
  ContextAllowsDefaultTimerTypes : bool
}.
Definition ContextRef : Set := option Context.

(** The context argument of a [ScopedSetContext], as the closures of the
    sources write it: a value fixed when the closure was built, or
    [g_base->app_mode()->GetForegroundContext()], read when the closure
    runs. *)
Inductive CtxExpr : Set :=
| CtxValue (c : ContextRef)
| CtxForeground.

(** The body of a deferred call.  Closures are kept as data so that a
    queue can hold them and two of them can be told apart. *)
Inductive Stmt : Set :=
| SSkip
| SSeq (a b : Stmt)
| SThrow (e : Exception)
| SScoped (c : CtxExpr) (body : Stmt)      (* { ScopedSetContext ssc(c); body } *)
| SSetCurrentContext (c : ContextRef)      (* g_base->SetCurrentContext(c) *)
| SStealCall (call_obj : positive)         (* PythonRef(call_obj, kSteal).Call() *)
| SObjCall (id : nat)                      (* objset->Obj(id).Call() *)
| SObjCallArg (id : nat) (args : PyRef.PyObjectPtr).
                                           (* PythonRef args(.., kSteal); objset->Obj(id).Call(args) *)

(** A statement whose every change of the ambient context happens inside a
    scope. *)
Fixpoint scope_disciplined (s : Stmt) : bool :=
  match s with
  | SSkip | SThrow _ | SScoped _ _ => true
  | SSeq a b => scope_disciplined a && scope_disciplined b
  | SSetCurrentContext _ | SStealCall _ | SObjCall _ | SObjCallArg _ _ => false
  end.

(** Scopes nested to any depth around an inner statement. *)
Definition nest (cs : list CtxExpr) (inner : Stmt) : Stmt :=
  fold_right SScoped inner cs.

(** Modelled from the spec: logic.h is missing.  A registered one-shot or
    repeating timer: its length in milliseconds ([None] when the
    conversion from double is outside the range of [millisecs_t], which
    C++ leaves undefined), the repeat flag and the runnable. *)
Record Timer : Set := MkTimer {
  timer_length : option Z;
  timer_repeat : bool;
  timer_runnable : Stmt
}.

(** Which Python callable ran, and the ambient context it ran under. *)
Record CallRecord : Set := MkCallRecord {
  ran_callable : positive + nat;
  ran_under : ContextRef
}.

(** The part of [g_base] that the embedded functions read and write. *)
Record BaseFeatureSet : Type := MkBase {
  event_loop : option (EventLoop Stmt);  (* logic->event_loop(); null before it exists *)
  context_ref : ContextRef;              (* g_base->context_ref target *)
  foreground_context : ContextRef;       (* app_mode()->GetForegroundContext() *)
  app_timers : list Timer;               (* timers on the app-time base *)
  display_timers : list Timer;           (* timers on the display-time base *)
  py_heap : gmap positive nat;           (* reference counts of interpreter objects *)
  calls_run : list CallRecord;           (* Python callables run so far *)
  log_ : list string                     (* Log(..) output *)
}.

Definition set_event_loop (l : option (EventLoop Stmt)) (b : BaseFeatureSet) :=
  MkBase l (context_ref b) (foreground_context b) (app_timers b)
         (display_timers b) (py_heap b) (calls_run b) (log_ b).
Definition set_context_ref (c : ContextRef) (b : BaseFeatureSet) :=
  MkBase (event_loop b) c (foreground_context b) (app_timers b)
         (display_timers b) (py_heap b) (calls_run b) (log_ b).
Definition set_foreground_context (c : ContextRef) (b : BaseFeatureSet) :=
  MkBase (event_loop b) (context_ref b) c (app_timers b)
         (display_timers b) (py_heap b) (calls_run b) (log_ b).
Definition set_app_timers (t : list Timer) (b : BaseFeatureSet) :=
  MkBase (event_loop b) (context_ref b) (foreground_context b) t
         (display_timers b) (py_heap b) (calls_run b) (log_ b).
Definition set_display_timers (t : list Timer) (b : BaseFeatureSet) :=
  MkBase (event_loop b) (context_ref b) (foreground_context b) (app_timers b)
         t (py_heap b) (calls_run b) (log_ b).
Definition set_py_heap (h : gmap positive nat) (b : BaseFeatureSet) :=
  MkBase (event_loop b) (context_ref b) (foreground_context b) (app_timers b)
         (display_timers b) h (calls_run b) (log_ b).
Definition set_calls_run (r : list CallRecord) (b : BaseFeatureSet) :=
  MkBase (event_loop b) (context_ref b) (foreground_context b) (app_timers b)
         (display_timers b) (py_heap b) r (log_ b).
Definition set_log (l : list string) (b : BaseFeatureSet) :=
  MkBase (event_loop b) (context_ref b) (foreground_context b) (app_timers b)
         (display_timers b) (py_heap b) (calls_run b) l.

(** *** A small state-and-exception monad for the entry points *)

Definition M (A : Type) : Type := BaseFeatureSet -> Outcome A * BaseFeatureSet.

Definition ret {A} (a : A) : M A := fun b => (Returned a, b).
Definition throw {A} (e : Exception) : M A := fun b => (Raised e, b).
Definition bind {A B} (m : M A) (k : A -> M B) : M B :=
  fun b =>
    match m b with
    | (Returned a, b') => k a b'
    | (Raised e, b') => (Raised e, b')
    | (Fatal msg, b') => (Fatal msg, b')
    end.
Definition get : M BaseFeatureSet := fun b => (Returned b, b).
Definition modify (f : BaseFeatureSet -> BaseFeatureSet) : M unit :=
  fun b => (Returned tt, f b).
Definition lift {A} (o : Outcome A) : M A := fun b => (o, b).

Notation "x <- m ;; k" := (bind m (fun x => k))
  (at level 100, m at next level, right associativity).
Notation "m ;;; k" := (bind m (fun _ => k))
  (at level 100, right associativity).

(** base.cc [BaseFeatureSet::InLogicThread]:
    [if (auto* loop = logic->event_loop()) return loop->ThreadIsCurrent();
     return false;] *)
Definition InLogicThread (cur : thread_id) (b : BaseFeatureSet) : bool :=
  match event_loop b with
  | Some l => ThreadIsCurrent cur l
  | None => false
  end.

(** base.cc [BaseFeatureSet::SetCurrentContext]:
    [context_ref->SetTarget(context.Get())]. *)
Definition SetCurrentContext (c : ContextRef) (b : BaseFeatureSet) : BaseFeatureSet :=
  set_context_ref c b.

(** [g_base->CurrentContext()]. *)
Definition CurrentContext (b : BaseFeatureSet) : ContextRef := context_ref b.

(** unnamed/part_002 [AppMode::GetForegroundContext]: the active mode
    answers; the base class answers with the empty context, a session
    mode with its foreground session's. *)
Definition GetForegroundContext (b : BaseFeatureSet) : ContextRef :=
  foreground_context b.

Definition eval_ctx (c : CtxExpr) (b : BaseFeatureSet) : ContextRef :=
  match c with
  | CtxValue v => v
  | CtxForeground => GetForegroundContext b
  end.

(** [g_base->logic->event_loop()->PushCall(..)]: a null loop is a null
    dereference, a process-level stop. *)
Definition logic_PushCall (c : Stmt) : M unit :=
  fun b =>
    match event_loop b with
    | Some l => (Returned tt, set_event_loop (Some (PushCall c l)) b)
    | None => (Fatal "null event loop", b)
    end.

Section WithPython.

(** What Python code does is outside the engine.  The one effect that
    matters here is the ambient context a callable leaves behind when it
    returns, given the one it was entered with. *)
Variable py_leaves : positive + nat -> ContextRef -> ContextRef.

(** [PythonRef::Call()]: runs the callable; Python errors are printed
    and an empty ref is returned, so nothing is thrown. *)
Definition run_callable (f : positive + nat) (b : BaseFeatureSet) : BaseFeatureSet :=
  set_context_ref (py_leaves f (context_ref b))
    (set_calls_run (calls_run b ++ [MkCallRecord f (context_ref b)]) b).

(** Runs the body of a deferred call.  [SScoped] is the RAII scope:
    Modelled from the spec: context.h is missing.  [ScopedSetContext]
    saves the ambient context and installs the new one when it is
    constructed, and restores the saved one when it is destroyed, on
    every exit path. *)
Fixpoint exec (s : Stmt) (b : BaseFeatureSet) : Outcome unit * BaseFeatureSet :=
  match s with
  | SSkip => (Returned tt, b)
  | SSeq s1 s2 =>
      match exec s1 b with
      | (Returned _, b1) => exec s2 b1
      | (o, b1) => (o, b1)
      end
  | SThrow e => (Raised e, b)
  | SScoped c body =>
      let context_prev_ := CurrentContext b in
      let b1 := SetCurrentContext (eval_ctx c b) b in
      let (o, b2) := exec body b1 in
      (o, SetCurrentContext context_prev_ b2)
  | SSetCurrentContext c => (Returned tt, SetCurrentContext c b)
  | SStealCall call_obj =>
      (* the temporary wrapper takes over the caller's reference, calls,
         and gives the reference up when it goes out of scope *)
      let b1 := run_callable (inl call_obj) b in
      (Returned tt, set_py_heap (PyRef.Py_DECREF call_obj (py_heap b1)) b1)
  | SObjCall id => (Returned tt, run_callable (inr id) b)
  | SObjCallArg id args =>
      match PyRef.PythonRef_ctor args PyRef.kSteal (py_heap b) with
      | Returned (r, h) =>
          let b1 := run_callable (inr id) (set_py_heap h b) in
          (Returned tt, set_py_heap (snd (PyRef.Release r (py_heap b1))) b1)
      | Raised e => (Raised e, b)
      | Fatal m => (Fatal m, b)
      end
  end.

(** Modelled from the spec: event_loop.cc is missing.  One dispatch step
    of the logic thread: the oldest queued call is taken and run to
    completion; an error from it is caught in the dispatch step and
    logged. *)
Definition dispatch_one (b : BaseFeatureSet) : BaseFeatureSet :=
  match event_loop b with
  | Some l =>
      match pop l with
      | Some (c, l') =>
          match exec c (set_event_loop (Some l') b) with
          | (Returned _, b') => b'
          | (Raised e, b') => set_log (log_ b' ++ [message_ e]) b'
          | (Fatal m, b') => set_log (log_ b' ++ [m]) b'
          end
      | None => b
      end
  | None => b
  end.

Fixpoint dispatch (n : nat) (b : BaseFeatureSet) : BaseFeatureSet :=
  match n with
  | O => b
  | S k => dispatch k (dispatch_one b)
  end.

End WithPython.

(** base.cc [BaseFeatureSet::DoPushObjCall(objset, id)]: the closure
    [{ ScopedSetContext ssc(nullptr); objset->Obj(id).Call(); }]. *)
Definition ObjCall_closure (id : nat) : Stmt :=
  SScoped (CtxValue None) (SObjCall id).

Definition DoPushObjCall (id : nat) : M unit :=
  logic_PushCall (ObjCall_closure id).

(** base.cc [BaseFeatureSet::DoPushObjCall(objset, id, arg)]. *)
Definition ObjCallArg_closure (id : nat) (args : PyRef.PyObjectPtr) : Stmt :=
  SScoped (CtxValue None) (SObjCallArg id args).

Definition DoPushObjCallArg (id : nat) (args : PyRef.PyObjectPtr) : M unit :=
  logic_PushCall (ObjCallArg_closure id args).

(** Whether every call waiting in the logic thread's queue is
    scope-disciplined. *)
Definition queue_disciplined (b : BaseFeatureSet) : bool :=
  match event_loop b with
  | Some l => forallb scope_disciplined (runnables_ l)
  | None => true
  end.

(** Modelled from the spec: python_context_call.h is missing.  A
    [PythonContextCall] captures the ambient context when it is built and
    holds its own reference to the callable; run, it installs the captured
    context around the call. *)
Definition PythonContextCall_closure (call_obj : positive) (captured : ContextRef)
  : Stmt :=
  SScoped (CtxValue captured) (SStealCall call_obj).

(** Modelled from the spec: [PythonContextCall::Schedule()] pushes the
    call to the logic event loop. *)
Definition PythonContextCall_Schedule (call_obj : positive) : M unit :=
  b <- get ;;
  modify (fun b => set_py_heap (PyRef.Py_INCREF call_obj (py_heap b)) b) ;;;
  logic_PushCall (PythonContextCall_closure call_obj (CurrentContext b)).

(** python_methods_app.cc [PyPushCall]: the closure of the
    [from_other_thread] branch,
    [{ ScopedSetContext ssc(other_thread_use_fg_context
           ? g_base->app_mode()->GetForegroundContext() : ContextRef(nullptr));
       PythonRef(call_obj, PythonRef::kSteal).Call(); }]. *)
Definition other_thread_closure (call_obj : positive)
    (other_thread_use_fg_context : bool) : Stmt :=
  SScoped (if other_thread_use_fg_context then CtxForeground else CtxValue None)
          (SStealCall call_obj).

(** python_methods_app.cc [PyPushCall]: the closure of the [raw] branch. *)
Definition raw_closure (call_obj : positive) : Stmt := SStealCall call_obj.

Definition pushcall_warning : string :=
  "babase.pushcall() called from the logic thread with from_other_thread set to true".

(** python_methods_app.cc [PyPushCall], after argument parsing. *)
Definition PyPushCall (cur : thread_id) (call_obj : positive)
    (from_other_thread suppress_warning other_thread_use_fg_context raw : bool)
  : M unit :=
  if raw then
    modify (fun b => set_py_heap (PyRef.Py_INCREF call_obj (py_heap b)) b) ;;;
    logic_PushCall (raw_closure call_obj)
  else if from_other_thread then
    b <- get ;;
    (if negb suppress_warning && InLogicThread cur b
     then modify (fun b => set_log (log_ b ++ [pushcall_warning]) b)
     else ret tt) ;;;
    modify (fun b => set_py_heap (PyRef.Py_INCREF call_obj (py_heap b)) b) ;;;
    logic_PushCall (other_thread_closure call_obj other_thread_use_fg_context)
  else
    b <- get ;;
    (if negb (InLogicThread cur b)
     then throw (Exception_msg "You must use from_other_thread mode.")
     else ret tt) ;;;
    PythonContextCall_Schedule call_obj.

End Base.

(** ** One-shot timers: [apptimer] and [displaytimer] *)

Module Timers.
Import Loop Base.

(** A C++ [double]: IEEE 754 binary64. *)
Definition prec : Z := 53.
Definition emax : Z := 1024.
Definition double : Set := spec_float.

(** The literals [0] (converted to double by the comparison) and [1000.0]. *)
Definition double_0 : double := S754_zero false.
Definition double_1000 : double :=
  Eval cbv in binary_normalize prec emax 1000 0 false.

(** [a < b] and [a * b] on doubles. *)
Definition double_lt (a b : double) : bool := SFltb a b.
Definition double_mul (a b : double) : double := SFmul prec emax a b.

Definition int64_min : Z := - 2 ^ 63.
Definition int64_max : Z := 2 ^ 63 - 1.

(** [static_cast<millisecs_t>(d)], [millisecs_t] being [int64_t]: the
    value truncated toward zero; [None] where C++ leaves the conversion
    undefined (NaN, infinities, values outside the range of the type). *)
Definition static_cast_millisecs (d : double) : option Z :=
  match d with
  | S754_zero _ => Some 0%Z
  | S754_finite s m e =>
      let mag := match e with
                 | Z0 => Zpos m
                 | Zpos p => (Zpos m * 2 ^ Zpos p)%Z
                 | Zneg p => (Zpos m / 2 ^ Zpos p)%Z
                 end in
      let z := if s then (- mag)%Z else mag in
      if (int64_min <=? z)%Z && (z <=? int64_max)%Z then Some z else None
  | S754_infinity _ => None
  | S754_nan => None
  end.

(** The sign of a double as a number: negative finite values and minus
    infinity; neither zero is negative, nor is NaN. *)
Definition is_negative (d : double) : bool :=
  match d with
  | S754_finite true _ _ => true
  | S754_infinity true => true
  | _ => false
  end.

(** Zero (of either sign), positive finite values and plus infinity. *)
Definition is_nonnegative (d : double) : bool :=
  match d with
  | S754_zero _ => true
  | S754_finite false _ _ => true
  | S754_infinity false => true
  | _ => false
  end.

(** base_python.cc [BasePython::EnsureContextAllowsDefaultTimerTypes]. *)
Definition EnsureContextAllowsDefaultTimerTypes : M unit :=
  b <- get ;;
  match CurrentContext b with
  | Some context =>
      if negb (ContextAllowsDefaultTimerTypes context)
      then throw (Exception_msg
             "The current context does not allow creation of default timer types. There are probably timer types specific to the context that you should use instead (scene-timers, base-timers, etc.)")
      else ret tt
  | None => ret tt
  end.

(** Modelled from the spec: logic.h / logic.cc are missing.
    [Logic::NewAppTimer] registers a timer measured against app-time
    (monotonic, pauses while the app is suspended). *)
Definition NewAppTimer (length : option Z) (repeat : bool) (runnable : Stmt)
  : M unit :=
  modify (fun b => set_app_timers (app_timers b ++ [MkTimer length repeat runnable]) b).

(** Modelled from the spec: [Logic::NewDisplayTimer] registers a timer
    measured against display-time (the smoothed per-frame value). *)
Definition NewDisplayTimer (length : option Z) (repeat : bool) (runnable : Stmt)
  : M unit :=
  modify (fun b => set_display_timers (display_timers b ++ [MkTimer length repeat runnable]) b).

(** Modelled from the spec: python_context_call_runnable.h is missing.
    [Object::New<Runnable, PythonContextCallRunnable>(call_obj)] wraps a
    [PythonContextCall]: it takes its own reference to the callable and
    captures the ambient context. *)
Definition New_PythonContextCallRunnable (call_obj : positive) : M Stmt :=
  b <- get ;;
  modify (fun b => set_py_heap (PyRef.Py_INCREF call_obj (py_heap b)) b) ;;;
  ret (PythonContextCall_closure call_obj (CurrentContext b)).

Definition timer_length_error : Exception :=
  MkException "Timer length cannot be < 0." kValue.

(** python_methods_app.cc [PyAppTimer], after argument parsing. *)
Definition PyAppTimer (cur : thread_id) (length : double) (call_obj : positive)
  : M unit :=
  b <- get ;;
  lift (BA_PRECONDITION (InLogicThread cur b) "g_base->InLogicThread()") ;;;
  EnsureContextAllowsDefaultTimerTypes ;;;
  (if double_lt length double_0 then throw timer_length_error else ret tt) ;;;
  runnable <- New_PythonContextCallRunnable call_obj ;;
  NewDisplayTimer (static_cast_millisecs (double_mul length double_1000))
                  false runnable.

(** python_methods_app.cc [PyDisplayTimer], after argument parsing. *)
Definition PyDisplayTimer (cur : thread_id) (length : double) (call_obj : positive)
  : M unit :=
  b <- get ;;
  lift (BA_PRECONDITION (InLogicThread cur b) "g_base->InLogicThread()") ;;;
  EnsureContextAllowsDefaultTimerTypes ;;;
  (if double_lt length double_0 then throw timer_length_error else ret tt) ;;;
  runnable <- New_PythonContextCallRunnable call_obj ;;
  NewAppTimer (static_cast_millisecs (double_mul length double_1000))
              false runnable.

(** The test that [EnsureContextAllowsDefaultTimerTypes] makes. *)
Definition context_allows (b : BaseFeatureSet) : bool :=
  match CurrentContext b with
  | Some context => ContextAllowsDefaultTimerTypes context
  | None => true
  end.

(** The doubles [1.0] and [-1.0]. *)
Definition double_1 : double :=
  Eval cbv in binary_normalize prec emax 1 0 false.
Definition double_minus_1 : double := Eval cbv in SFopp double_1.

(** The timer that both entry points build from their arguments. *)
Definition timer_of (length : double) (call_obj : positive) (b : BaseFeatureSet)
  : Timer :=
  MkTimer (static_cast_millisecs (double_mul length double_1000)) false
          (PythonContextCall_closure call_obj (CurrentContext b)).

(** The time base a scripting-level timer operation is documented to use
    (the docstrings of python_methods_app.cc: "Schedule a callable object
    to run based on app-time" / "... based on display-time"). *)
Inductive TimeBase : Set := AppTime | DisplayTime.

Definition timers_on (t : TimeBase) (b : BaseFeatureSet) : list Timer :=
  match t with
  | AppTime => app_timers b
  | DisplayTime => display_timers b
  end.

End Timers.

(** ** Weak references to widgets and the scripting-side Widget handle *)

Module UIV1.
Import Loop Base.

(** What the handle's methods ask of a widget: its type name and whether
    it has a parent container ([parent_widget()] non-null). *)
Record Widget : Set := MkWidget {
  GetWidgetTypeName : string;
  has_parent_widget : bool
}.

(** The native side: the live widgets by address, the allocated
    [Object::WeakRef<Widget>] cells by address with the pointer each one
    holds, the next free cell address, and the log. *)
Record UIState : Type := MkUI {
  widgets : gmap positive Widget;
  weak_refs : gmap positive (option positive);
  next_weak_ref : positive;
  ui_log : list string
}.

Definition empty_ui : UIState := MkUI ∅ ∅ 1%positive [].

(** Modelled from the spec: object.h is missing.  [new Object::WeakRef<T>()]
    makes an empty weak reference. *)
Definition WeakRef_new (u : UIState) : positive * UIState :=
  let w := next_weak_ref u in
  (w, MkUI (widgets u) (<[w := None]> (weak_refs u)) (Pos.succ w) (ui_log u)).

(** Modelled from the spec: [WeakRef<T>::operator=] from a raw pointer points the weak
    reference at an object, or at nothing. *)
Definition WeakRef_assign (w : positive) (target : option positive) (u : UIState)
  : UIState :=
  MkUI (widgets u) (<[w := target]> (weak_refs u)) (next_weak_ref u) (ui_log u).

(** Modelled from the spec: [WeakRef<T>::Get()] returns the object or
    null; it may be asked at any time. *)
Definition WeakRef_Get (w : positive) (u : UIState) : option positive :=
  match weak_refs u !! w with
  | Some target => target
  | None => None
  end.

(** Modelled from the spec: destroying a weak-referenceable object
    invalidates every weak reference to it in the same step. *)
Definition invalidate (o : positive) (target : option positive) : option positive :=
  if decide (target = Some o) then None else target.

Definition Object_destroy (o : positive) (u : UIState) : UIState :=
  MkUI (delete o (widgets u)) (invalidate o <$> weak_refs u)
       (next_weak_ref u) (ui_log u).

(** The native side creating a widget at a free address. *)
Definition Object_new (o : positive) (wd : Widget) (u : UIState) : UIState :=
  MkUI (<[o := wd]> (widgets u)) (weak_refs u) (next_weak_ref u) (ui_log u).

(** python_class_widget.h: the handle's field,
    [Object::WeakRef<Widget>* widget_]. *)
Record PythonClassWidget : Set := MkPyWidget { widget_ : positive }.

Section WithThreads.

(** [CurrentThreadName()], from thread-local state. *)
Variable CurrentThreadName : thread_id -> string.

Definition tp_new_error (cur : thread_id) : Exception :=
  Exception_msg ("ERROR: " ++ "bauiv1.Widget"
                 ++ " objects must only be created in the logic thread (current is ("
                 ++ CurrentThreadName cur ++ ").").

(** [PythonClassWidget::tp_new]: the thread check throws an [Exception]
    inside [BA_PYTHON_TRY] .. [BA_PYTHON_NEW_CATCH], which hands it to
    the interpreter and returns null. *)
Definition tp_new (cur : thread_id) (b : BaseFeatureSet) (u : UIState)
  : Outcome PythonClassWidget * UIState :=
  if negb (InLogicThread cur b) then (Raised (tp_new_error cur), u)
  else let (w, u') := WeakRef_new u in (Returned (MkPyWidget w), u').

(** [PythonClassWidget::Create], given a widget pointer. *)
Definition Create (cur : thread_id) (b : BaseFeatureSet)
    (widget : option positive) (u : UIState)
  : Outcome PythonClassWidget * UIState :=
  match tp_new cur b u with
  | (Returned py_widget, u') =>
      (Returned py_widget, WeakRef_assign (widget_ py_widget) widget u')
  | (Raised _, u') => (Raised (Exception_msg "babase.Widget creation failed"), u')
  | (Fatal m, u') => (Fatal m, u')
  end.

End WithThreads.

(** [PythonClassWidget::GetWidget]. *)
Definition GetWidget (self : PythonClassWidget) (u : UIState) : Outcome positive :=
  match WeakRef_Get (widget_ self) u with
  | None => Raised (Exception_msg "Invalid widget")
  | Some w => Returned w
  end.

(** [PythonClassWidget::Exists] and [nb_bool]. *)
Definition Exists (self : PythonClassWidget) (u : UIState) : Outcome bool :=
  match WeakRef_Get (widget_ self) u with
  | Some _ => Returned true
  | None => Returned false
  end.

(** [PythonClassWidget::GetWidgetType]. *)
Definition GetWidgetType (self : PythonClassWidget) (u : UIState) : Outcome string :=
  match WeakRef_Get (widget_ self) u with
  | None => Raised (Exception_type kWidgetNotFound)
  | Some w =>
      match widgets u !! w with
      | Some wd => Returned (GetWidgetTypeName wd)
      | None => Fatal "use after free"
      end
  end.

(** [PythonClassWidget::Activate]; what [Widget::Activate()] does to the
    widget is outside this model. *)
Definition Activate (self : PythonClassWidget) (u : UIState) : Outcome unit :=
  match WeakRef_Get (widget_ self) u with
  | None => Raised (Exception_type kWidgetNotFound)
  | Some w =>
      match widgets u !! w with
      | Some _ => Returned tt
      | None => Fatal "use after free"
      end
  end.

(** [PythonClassWidget::Delete(ignore_missing)].
    Modelled from the spec: container_widget.cc is missing;
    [p->DeleteWidget(w)] destroys the widget. *)
Definition Delete (self : PythonClassWidget) (ignore_missing : bool) (u : UIState)
  : Outcome unit * UIState :=
  match WeakRef_Get (widget_ self) u with
  | None =>
      if negb ignore_missing then (Raised (Exception_type kWidgetNotFound), u)
      else (Returned tt, u)
  | Some w =>
      match widgets u !! w with
      | Some wd =>
          if has_parent_widget wd then (Returned tt, Object_destroy w u)
          else (Returned tt,
                MkUI (widgets u) (weak_refs u) (next_weak_ref u)
                     (ui_log u ++ ["Can't delete widget: no parent."]))
      | None => (Fatal "use after free", u)
      end
  end.

(** *** What can happen to the native side, one operation at a time *)
Inductive Op : Set :=
| OpNewWidget (o : positive) (wd : Widget)   (* a widget is created at address o *)
| OpDestroy (o : positive)                   (* the widget at o is destroyed *)
| OpCreate (cur : thread_id) (widget : option positive)
                                             (* PythonClassWidget::Create *)
| OpDelete (self : PythonClassWidget) (ignore_missing : bool).
                                             (* Widget.delete() from a script *)

Section Reach.
Variable CurrentThreadName : thread_id -> string.
Variable b : BaseFeatureSet.

(** An operation that cannot happen leaves the state as it is: no
    allocator hands out a live address, only live widgets are destroyed,
    and [Create] is handed a live widget or null. *)
Definition apply_op (u : UIState) (op : Op) : UIState :=
  match op with
  | OpNewWidget o wd =>
      match widgets u !! o with
      | None => Object_new o wd u
      | Some _ => u
      end
  | OpDestroy o =>
      match widgets u !! o with
      | Some _ => Object_destroy o u
      | None => u
      end
  | OpCreate cur widget =>
      match widget with
      | Some o =>
          match widgets u !! o with
          | Some _ => snd (Create CurrentThreadName cur b widget u)
          | None => u
          end
      | None => snd (Create CurrentThreadName cur b widget u)
      end
  | OpDelete self ignore_missing => snd (Delete self ignore_missing u)
  end.

Definition apply_ops (u : UIState) (ops : list Op) : UIState :=
  fold_left apply_op ops u.

End Reach.

(** No weak reference holds the address of a widget that is not live. *)
Definition no_dangling (u : UIState) : Prop :=
  forall w o, WeakRef_Get w u = Some o -> is_Some (widgets u !! o).

(** A cell that is allocated and empty. *)
Definition gone (w : positive) (u : UIState) : Prop :=
  weak_refs u !! w = Some None.

(** Every allocated cell lies below the next free cell address. *)
Definition cells_below_next (u : UIState) : Prop :=
  forall w, is_Some (weak_refs u !! w) -> (w < next_weak_ref u)%positive.

End UIV1.

(** ** Concrete states used in the examples *)

Module Demo.
Import Loop Base.

Definition ctx10 : ContextRef := Some (MkContext 10 true).
Definition ctx20 : ContextRef := Some (MkContext 20 true).

(** The logic thread is thread 1; its queue is empty; no ambient context;
    the interpreter holds one callable, object 3, with one reference. *)
Definition idle_base : BaseFeatureSet :=
  MkBase (Some (MkEventLoop 1 [])) None None [] []
         (<[3%positive := 1]> ∅) [] [].

(** The same with context 10 as the foreground context. *)
Definition base_fg10 : BaseFeatureSet := set_foreground_context ctx10 idle_base.

(** The same with context 10 as the ambient context. *)
Definition base_in10 : BaseFeatureSet := set_context_ref ctx10 idle_base.

(** Python code that leaves the ambient context as it found it. *)
Definition py_keeps : positive + nat -> ContextRef -> ContextRef :=
  fun _ c => c.

(** Thread names. *)
Definition thread_name (t : thread_id) : string :=
  match t with 1 => "logic" | 2 => "assets" | _ => "other" end.

Definition button : UIV1.Widget := UIV1.MkWidget "button" true.

End Demo.

(** ** BasePython: deep links and print-once bookkeeping *)

Module BasePy.
Import Loop Base.

(** base_python.h [enum class ObjID]: the two slots used below, by their
    position in the enumeration. *)
Definition kDeepLinkCall : nat := 2.

Section WithPython.
Variable py_leaves : positive + nat -> ContextRef -> ContextRef.

(** base_python.cc [BasePython::RunDeepLink].  [objs_exists] tells which
    slots of the object table are populated; [args] is what
    [Py_BuildValue("(s)", url)] returned (null when it failed), handed to
    [PythonRef args(.., kSteal)] inside the scope. *)
Definition RunDeepLink (cur : thread_id) (objs_exists : nat -> bool)
    (args : PyRef.PyObjectPtr) : M unit :=
  b <- get ;;
  lift (BA_PRECONDITION (InLogicThread cur b) "g_base->InLogicThread()") ;;;
  if objs_exists kDeepLinkCall
  then exec py_leaves (SScoped (CtxValue None) (SObjCallArg kDeepLinkCall args))
  else modify (fun b => set_log (log_ b ++ ["Error on deep-link call"]) b).

End WithPython.

(** base_python.cc [BasePython::DoOnce]; [location] is what
    [Python::GetPythonFileLocation(false)] returned for the caller.
    The state is [do_once_locations_]. *)
Definition DoOnce (location : string) (do_once_locations_ : gset string)
  : bool * gset string :=
  if decide (location ∈ do_once_locations_)
  then (false, do_once_locations_)
  else (true, {[location]} ∪ do_once_locations_).

(** A run of [DoOnce] calls, one per location in the list, with the answers
    in order. *)
Fixpoint DoOnce_all (locations : list string) (seen : gset string)
  : list bool * gset string :=
  match locations with
  | [] => ([], seen)
  | loc :: rest =>
      let (r, seen1) := DoOnce loc seen in
      let (rs, seen2) := DoOnce_all rest seen1 in
      (r :: rs, seen2)
  end.

(** The answers given for one location in such a run. *)
Fixpoint answers_for (loc : string) (locations : list string) (answers : list bool)
  : list bool :=
  match locations, answers with
  | l :: ls, a :: as_ =>
      if decide (l = loc) then a :: answers_for loc ls as_
      else answers_for loc ls as_
  | _, _ => []
  end.

(** How many times a location occurs in a run. *)
Fixpoint occurrences (loc : string) (locations : list string) : nat :=
  match locations with
  | [] => 0
  | l :: ls => if decide (l = loc) then S (occurrences loc ls) else occurrences loc ls
  end.

(** One [true] followed by [false]s: the answers a fresh location gets. *)
Definition once_then_never (k : nat) : list bool :=
  match k with
  | 0 => []
  | S k' => true :: repeat false k'
  end.

End BasePy.

(** ** BaseFeatureSet: starting the app *)

Module AppStart.

(** The subsystems that [StartApp] tells to start, named as in base.cc. *)
Inductive Subsystem : Set :=
| sub_python | sub_logic | sub_graphics_server | sub_bg_dynamics_server
| sub_network_writer | sub_audio_server | sub_assets_server
| sub_core_platform | sub_app | sub_stdio_console.

#[global] Instance Subsystem_eq_dec : EqDecision Subsystem.
Proof. solve_decision. Defined.

(** What the functions read from their surroundings: whether the caller is
    the main thread, which optional subsystems exist (the two pointers
    [StartApp] tests), whether the app manages the event loop, and whether
    the call made by [BasePython::OnMainThreadStartApp] gave a result. *)
Record Env : Set := MkEnv {
  InMainThread : bool;
  has_bg_dynamics_server : bool;
  has_stdio_console : bool;
  ManagesEventLoop : bool;
  baenv_start_ok : bool
}.

Record State : Set := MkState {
  called_start_app_ : bool;
  app_running_ : bool;
  called_run_app_to_completion_ : bool;
  started : list Subsystem;        (* OnMainThreadStartApp() calls, in order *)
  logic_calls : list string;       (* calls pushed to the logic event loop *)
  boot_log : list string;          (* g_core->BootLog(..) *)
  main_loop_runs : nat             (* g_core->main_event_loop()->RunEventLoop(false) *)
}.

Definition initial : State := MkState false false false [] [] [] 0.

Definition M (A : Type) : Type := State -> Outcome A * State.
Definition ret {A} (a : A) : M A := fun s => (Returned a, s).
Definition bind {A B} (m : M A) (k : A -> M B) : M B :=
  fun s =>
    match m s with
    | (Returned a, s') => k a s'
    | (Raised e, s') => (Raised e, s')
    | (Fatal msg, s') => (Fatal msg, s')
    end.
Definition lift {A} (o : Outcome A) : M A := fun s => (o, s).
Definition modify (f : State -> State) : M unit := fun s => (Returned tt, f s).
Definition get : M State := fun s => (Returned s, s).

Notation "x <-- m ;; k" := (bind m (fun x => k))
  (at level 100, m at next level, right associativity).
Notation "m ;;;; k" := (bind m (fun _ => k))
  (at level 100, right associativity).

Definition start (x : Subsystem) : M unit :=
  modify (fun s => MkState (called_start_app_ s) (app_running_ s)
                     (called_run_app_to_completion_ s) (started s ++ [x])
                     (logic_calls s) (boot_log s) (main_loop_runs s)).

Definition BootLog (msg : string) : M unit :=
  modify (fun s => MkState (called_start_app_ s) (app_running_ s)
                     (called_run_app_to_completion_ s) (started s)
                     (logic_calls s) (boot_log s ++ [msg]) (main_loop_runs s)).

(** base.cc [BaseFeatureSet::StartApp]. *)
Definition StartApp (env : Env) : M unit :=
  lift (BA_PRECONDITION (InMainThread env) "g_core->InMainThread()") ;;;;
  lift (BA_PRECONDITION true "g_base") ;;;;
  s <-- get ;;
  lift (BA_PRECONDITION (negb (called_start_app_ s)) "!called_start_app_") ;;;;
  modify (fun s => MkState true (app_running_ s)
                     (called_run_app_to_completion_ s) (started s)
                     (logic_calls s) (boot_log s) (main_loop_runs s)) ;;;;
  BootLog "start-app begin" ;;;;
  lift (OnMainThreadStartApp (baenv_start_ok env)) ;;;;
  start sub_python ;;;;
  start sub_logic ;;;;
  start sub_graphics_server ;;;;
  (if has_bg_dynamics_server env then start sub_bg_dynamics_server else ret tt) ;;;;
  start sub_network_writer ;;;;
  start sub_audio_server ;;;;
  start sub_assets_server ;;;;
  start sub_core_platform ;;;;
  start sub_app ;;;;
  (if has_stdio_console env then start sub_stdio_console else ret tt) ;;;;
  modify (fun s => MkState (called_start_app_ s) true
                     (called_run_app_to_completion_ s) (started s)
                     (logic_calls s) (boot_log s) (main_loop_runs s)) ;;;;
  modify (fun s => MkState (called_start_app_ s) (app_running_ s)
                     (called_run_app_to_completion_ s) (started s)
                     (logic_calls s ++ ["logic->ApplyAppConfig()"])
                     (boot_log s) (main_loop_runs s)) ;;;;
  BootLog "start-app end".

(** base.cc [BaseFeatureSet::RunAppToCompletion]. *)
Definition RunAppToCompletion (env : Env) : M unit :=
  lift (BA_PRECONDITION (InMainThread env) "g_core->InMainThread()") ;;;;
  lift (BA_PRECONDITION true "g_base") ;;;;
  lift (BA_PRECONDITION (ManagesEventLoop env) "g_base->app->ManagesEventLoop()") ;;;;
  s <-- get ;;
  lift (BA_PRECONDITION (negb (called_run_app_to_completion_ s))
                        "!called_run_app_to_completion_") ;;;;
  modify (fun s => MkState (called_start_app_ s) (app_running_ s) true
                     (started s) (logic_calls s) (boot_log s)
                     (main_loop_runs s)) ;;;;
  s <-- get ;;
  (if negb (called_start_app_ s) then StartApp env else ret tt) ;;;;
  modify (fun s => MkState (called_start_app_ s) (app_running_ s)
                     (called_run_app_to_completion_ s) (started s)
                     (logic_calls s) (boot_log s) (S (main_loop_runs s))).

(** base.cc [BaseFeatureSet::IsAppRunning]. *)
Definition IsAppRunning (s : State) : bool := app_running_ s.

(** The embedder's calls, in order; a call that ends the process ([Fatal])
    ends the run. *)
Inductive Call : Set :=
| CallStartApp (env : Env)
| CallRunAppToCompletion (env : Env).

Definition do_call (c : Call) : M unit :=
  match c with
  | CallStartApp env => StartApp env
  | CallRunAppToCompletion env => RunAppToCompletion env
  end.

Fixpoint do_calls (cs : list Call) (s : State) : State :=
  match cs with
  | [] => s
  | c :: rest =>
      match do_call c s with
      | (Fatal _, s') => s'
      | (_, s') => do_calls rest s'
      end
  end.

(** The subsystems [StartApp] starts, in its order. *)
Definition start_order (env : Env) : list Subsystem :=
  [sub_python; sub_logic; sub_graphics_server]
  ++ (if has_bg_dynamics_server env then [sub_bg_dynamics_server] else [])
  ++ [sub_network_writer; sub_audio_server; sub_assets_server; sub_core_platform; sub_app]
  ++ (if has_stdio_console env then [sub_stdio_console] else []).

(** What holds after any run of calls. *)
Record start_inv (s : State) : Prop := MkStartInv {
  inv_nodup : NoDup (started s);
  inv_pushes : List.length (logic_calls s) <= 1;
  inv_running :
    app_running_ s = true ->
    called_start_app_ s = true /\
    logic_calls s = ["logic->ApplyAppConfig()"] /\
    exists env, started s = start_order env;
  inv_unstarted : called_start_app_ s = false -> started s = [] /\ logic_calls s = [];
  inv_loop : main_loop_runs s <= 1;
  inv_loop_flag : called_run_app_to_completion_ s = false -> main_loop_runs s = 0
}.

End AppStart.

(** ** BaseFeatureSet: the plus feature-set and early cloud logs *)

Module CloudLog.
Import Loop Base.

(** The globals and fields that [HavePlus], [Plus] and [V1CloudLog] read
    and write, with a record of what they did to the outside. *)
Record State : Type := MkState {
  tried_importing_plus_ : bool;
  g_plus_soft : bool;                    (* g_plus_soft != nullptr *)
  g_early_v1_cloud_log_writes : Z;       (* an int *)
  import_attempts : nat;                 (* PyImport_ImportModule("_baplus") calls *)
  direct_sends : list (string * string); (* DirectSendV1CloudLogs(prefix, suffix, ..) *)
  base : BaseFeatureSet                  (* for the calls pushed to the logic loop *)
}.









End CloudLog.

(** ** BaseFeatureSet: the app instance id *)

Module InstanceUUID.

(** What one call of [GetAppInstanceUUID] finds: whether [g_base] exists,
    what came of the uuid callable ([None] when the call returned nothing,
    otherwise the outcome of [ValueAsString()] on its result), and the value
    of [rand()] as an unsigned 32-bit number. *)
Record Env : Set := MkEnv {
  g_base_exists : bool;
  uuid_value : option (Outcome string);
  rand_value : N
}.

(** The two function-level statics and the log. *)
Record State : Set := MkState {
  app_instance_uuid : string;
  have_app_instance_uuid : bool;
  warnings : list string
}.

Definition initial : State := MkState "" false [].

(** [std::to_string] of an unsigned number: its decimal digits. *)
Definition to_string (n : N) : string :=
  NilEmpty.string_of_uint (N.to_uint n).

(** The tail of [GetAppInstanceUUID]: the fallback and the length warning. *)
Definition finish (env : Env) (s1 : State) : Outcome string * State :=
  let s2 :=
    if negb (have_app_instance_uuid s1) then
      MkState (to_string (rand_value env)) true
              (warnings s1 ++ ["GetSessionUUID() using rand fallback."])
    else s1 in
  let s3 :=
    if (100 <=? String.length (app_instance_uuid s2))%nat then
      MkState (app_instance_uuid s2) (have_app_instance_uuid s2)
              (warnings s2 ++ ["session id longer than it should be."])
    else s2 in
  (Returned (app_instance_uuid s3), s3).

(** base.cc [BaseFeatureSet::GetAppInstanceUUID]. *)
Definition GetAppInstanceUUID (env : Env) (s : State) : Outcome string * State :=
  if negb (have_app_instance_uuid s) then
    if g_base_exists env then
      match uuid_value env with
      | Some (Returned uuid) => finish env (MkState uuid true (warnings s))
      | Some (Raised e) => (Raised e, s)
      | Some (Fatal m) => (Fatal m, s)
      | None => finish env s
      end
    else finish env s
  else (Returned (app_instance_uuid s), s).

(** A run of calls with their outcomes. *)
Fixpoint get_all (envs : list Env) (s : State)
  : list (Outcome string) * State :=
  match envs with
  | [] => ([], s)
  | env :: rest =>
      let (u, s1) := GetAppInstanceUUID env s in
      let (us, s2) := get_all rest s1 in
      (u :: us, s2)
  end.

(** The values a list of outcomes returned. *)
Fixpoint returned_values (os : list (Outcome string)) : list string :=
  match os with
  | [] => []
  | Returned u :: rest => u :: returned_values rest
  | _ :: rest => returned_values rest
  end.

End InstanceUUID.

(** ** BaseFeatureSet: text for the in-app console *)

Module ConsolePrint.

(** [console_] (with what it has printed, once it exists), the text held
    back for it, and the print calls waiting in the logic thread's queue. *)
Record State : Set := MkState {
  console_ : option (list string);
  console_startup_messages_ : string;
  print_calls : list string
}.

Definition initial : State := MkState None "" [].

(** [Console::Print(msg)]. *)
Definition Print (msg : string) (s : State) : State :=
  match console_ s with
  | Some printed =>
      MkState (Some (printed ++ [msg])%list) (console_startup_messages_ s)
              (print_calls s)
  | None => s
  end.

(** base.cc [BaseFeatureSet::PushConsolePrintCall].  [headless] is
    [g_core->HeadlessMode()], [have_loop] is whether [logic->event_loop()]
    is non-null. *)
Definition PushConsolePrintCall (headless have_loop : bool) (msg : string)
    (s : State) : State :=
  if headless then s
  else if have_loop && (match console_ s with Some _ => true | None => false end) then
    MkState (console_ s) (console_startup_messages_ s) (print_calls s ++ [msg])
  else
    MkState (console_ s) (console_startup_messages_ s ++ msg) (print_calls s).

(** base.cc [BaseFeatureSet::OnScreenAndAssetsReady]. *)
Definition OnScreenAndAssetsReady (s : State) : State :=
  let s1 := MkState (Some []) (console_startup_messages_ s) (print_calls s) in
  if negb (String.eqb (console_startup_messages_ s1) "") then
    let s2 := Print (console_startup_messages_ s1) s1 in
    MkState (console_ s2) "" (print_calls s2)
  else s1.

(** The logic thread running the print calls waiting in its queue. *)
Definition run_print_calls (s : State) : State :=
  fold_left (fun s msg => Print msg s) (print_calls s)
            (MkState (console_ s) (console_startup_messages_ s) []).

Definition push_all (headless : bool) (msgs : list (bool * string)) (s : State)
  : State :=
  fold_left (fun s m => PushConsolePrintCall headless (fst m) (snd m) s) msgs s.

(** Everything the console has printed, as one text. *)
Definition join (texts : list string) : string :=
  fold_right String.append "" texts.

Definition printed_text (s : State) : string :=
  match console_ s with
  | Some printed => join printed
  | None => ""
  end.

End ConsolePrint.

(** ** The Exception object and its description *)

Module ExcObj.

(** core_platform.h [PlatformStackTrace]: a description, and a [copy()]
    that gives a copy or, when that is not possible, null. *)
Record PlatformStackTrace : Set := MkTrace {
  GetDescription : string;
  can_copy : bool
}.

Definition copy (t : PlatformStackTrace) : option PlatformStackTrace :=
  if can_copy t then Some t else None.

(** exception.cc: the fields of [Exception]. *)
Record Exception : Set := MkExc {
  thread_name_ : string;
  message_ : string;
  full_description_ : string;
  python_type_ : PyExcType;
  stack_trace_ : option PlatformStackTrace
}.

Definition newline : string := String (Ascii.ascii_of_nat 10) "".

(** exception.cc [Exception::Exception(std::string message_in, PyExcType)]:
    [cur_thread_name] is [CurrentThreadName()], [platform_trace] what
    [core::g_core->platform->GetStackTrace()] gives when core is up (null
    otherwise). *)
Definition Exception_ctor (message_in : string) (python_type : PyExcType)
    (cur_thread_name : string) (platform_trace : option PlatformStackTrace)
  : Exception :=
  MkExc cur_thread_name message_in "" python_type platform_trace.

(** exception.cc, the copy constructor. *)
Definition Exception_copy (other : Exception) : Exception :=
  MkExc (thread_name_ other) (message_ other) (full_description_ other)
        (python_type_ other)
        (match stack_trace_ other with
         | Some t => copy t
         | None => None
         end).

(** exception.cc [Exception::what]: the description is put together on the
    first call and kept. *)
Definition what (e : Exception) : string * Exception :=
  if String.eqb (full_description_ e) "" then
    let d := match stack_trace_ e with
             | Some t =>
                 message_ e ++ newline ++ "Thrown from " ++ thread_name_ e
                 ++ " thread:" ++ newline ++ GetDescription t
             | None => message_ e
             end in
    (d, MkExc (thread_name_ e) (message_ e) d (python_type_ e) (stack_trace_ e))
  else (full_description_ e, e).

(** exception.cc [GetShortExceptionDescription], for a ballistica
    [Exception]: [b_exc->message()]. *)
Definition GetShortExceptionDescription (e : Exception) : string := message_ e.

End ExcObj.

(** ** Python values as the native code inspects them *)

Module Py.

Local Set Warnings "-register-all".

(** The interpreter objects the embedded functions tell apart.  An
    instance carries the classes it is an instance of and its attributes; a
    callable carries what a call of it returns ([None]: the call raises).
    Instances of subclasses of the built-in types are not part of this
    model. *)
Inductive Value : Set :=
| PyNone
| PyBool (b : bool)
| PyLong (z : Z)
| PyFloat (d : spec_float)
| PyUnicode (s : string)
| PyTuple (items : list Value)
| PyList (items : list Value)
| PyClass (id : positive)
| PyCallable (result : option Value)
| PyInstance (classes : list positive) (attrs : list (string * Value)).

Definition PyUnicode_Check (o : Value) : bool :=
  match o with PyUnicode _ => true | _ => false end.

(** [bool] is a subclass of [int]. *)
Definition PyLong_Check (o : Value) : bool :=
  match o with PyLong _ | PyBool _ => true | _ => false end.



(** [PyObject_IsInstance(o, cls)]: 1, 0, or -1 when [cls] is not a class. *)
Definition PyObject_IsInstance (o cls : Value) : Z :=
  match cls with
  | PyClass id =>
      match o with
      | PyInstance classes _ => if bool_decide (id ∈ classes) then 1 else 0
      | _ => 0
      end
  | _ => (-1)
  end%Z.

Fixpoint assoc (name : string) (attrs : list (string * Value)) : option Value :=
  match attrs with
  | [] => None
  | (n, v) :: rest => if String.eqb n name then Some v else assoc name rest
  end.

(** [PyObject_GetAttrString(o, name)]: the attribute, or null. *)
Definition PyObject_GetAttrString (o : Value) (name : string) : option Value :=
  match o with
  | PyInstance _ attrs => assoc name attrs
  | _ => None
  end.

(** [PyCallable_Check]: callables and classes can be called. *)
Definition PyCallable_Check (o : Value) : bool :=
  match o with PyCallable _ | PyClass _ => true | _ => false end.

(** [PythonRef::Call()]: the result, or an empty ref when the call raised. *)
Definition Call (o : Value) : option Value :=
  match o with
  | PyCallable result => result
  | PyClass id => Some (PyInstance [id] [])
  | _ => None
  end.

Definition LONG_MIN : Z := - 2 ^ 63.
Definition LONG_MAX : Z := 2 ^ 63 - 1.

(** [PyLong_AS_LONG] on an object that passed [PyLong_Check]: the value,
    or -1 when it does not fit a (64-bit) long. *)
Definition PyLong_AS_LONG (o : Value) : Z :=
  match o with
  | PyLong z => if (LONG_MIN <=? z)%Z && (z <=? LONG_MAX)%Z then z else (-1)%Z
  | PyBool b => if b then 1%Z else 0%Z
  | _ => (-1)%Z
  end.

Section WithObjs.

(** [Python::ObjToString], and the class objects held in the object table
    under [kLStrClass] and under the enum class slot in question. *)
Variable ObjToString : Value -> string.
Variable lstr_class : Value.

(** base_python.cc [BasePython::IsPyLString]. *)
Definition IsPyLString (o : Value) : bool :=
  PyUnicode_Check o || negb (PyObject_IsInstance o lstr_class =? 0)%Z.

(** base_python.cc [BasePython::GetPyLString].  The wrapper around the
    [_get_json] attribute is built with [kSteal], which throws on null;
    [PyUnicode_Check] on the null that a failed call leaves is a null
    dereference. *)
Definition GetPyLString (o : Value) : Outcome string :=
  let failed (exctype : PyExcType) :=
    Raised (MkException ("Can't get string from value: " ++ ObjToString o ++ ".")
                        exctype) in
  match o with
  | PyUnicode s => Returned s
  | _ =>
      let result := PyObject_IsInstance o lstr_class in
      let result := if (result =? -1)%Z then 0%Z else result in
      if (result =? 1)%Z then
        match PyObject_GetAttrString o "_get_json" with
        | None => Raised PyRef.InvalidReferenceError
        | Some get_json_call =>
            if PyCallable_Check get_json_call then
              match Call get_json_call with
              | None => Fatal "PyUnicode_Check(nullptr)"
              | Some json =>
                  match json with
                  | PyUnicode s => Returned s
                  | _ => failed kRuntime
                  end
              end
            else failed kRuntime
        end
      else failed kType
  end.

(** base_python.cc [IsPyEnum<T>]. *)
Definition IsPyEnum (enum_class_obj obj : Value) : bool :=
  negb (PyObject_IsInstance obj enum_class_obj =? 0)%Z.

(** base_python.cc [GetPyEnum<T>]; [kLast] is [static_cast<int>(T::kLast)]. *)
Definition GetPyEnum (enum_class_obj : Value) (kLast : Z) (obj : Value)
  : Outcome Z :=
  if (PyObject_IsInstance obj enum_class_obj =? 0)%Z then
    Raised (MkException (ObjToString obj ++ " is not an instance of "
                         ++ ObjToString enum_class_obj ++ ".") kType)
  else
    match PyObject_GetAttrString obj "value" with
    | None => Raised PyRef.InvalidReferenceError
    | Some value_obj =>
        if negb (PyLong_Check value_obj) then
          Raised (MkException (ObjToString obj ++ " is not a valid int-valued enum.")
                              kType)
        else
          let value := PyLong_AS_LONG value_obj in
          if (value <? 0)%Z || (kLast <=? value)%Z then
            Raised (MkException (ObjToString obj
                                 ++ " is an invalid out-of-range enum value.")
                                kValue)
          else Returned value
    end.

End WithObjs.

End Py.

(** ** Committing the config file *)

Module Config.

Import Py.

(** The files that [commit_config] touches, by path. *)
Definition Files := gmap string string.

(** core_platform.cc is not among the sources: [FOpen], [Remove] and
    [Rename] are the C library's [fopen], [remove] and [rename], and
    [FilePathExists] tells whether the path is there.  Each operation can
    fail for reasons outside the program; [Faults] says which do in a
    given run.  [fwrite_short = Some part] is a write that stops after
    [part]. *)
Record Faults : Set := MkFaults {
  fopen_fails : bool;
  fwrite_short : option string;
  remove_fails : bool;
  rename_prev_fails : bool;
  rename_final_fails : bool
}.

Definition no_faults : Faults := MkFaults false None false false false.

Definition FilePathExists (fs : Files) (p : string) : bool :=
  match fs !! p with Some _ => true | None => false end.

(** [fopen(path, "wb")]: the file is created or cut to nothing. *)
Definition FOpen_wb (fails : bool) (p : string) (fs : Files) : option Files :=
  if fails then None else Some (<[p := ""]> fs).

(** [fwrite(data, size, 1, f)] gives the number of whole items written:
    1, or 0 when the write falls short and also when [size] is 0. *)
Definition fwrite (short : option string) (data : string) (p : string)
    (fs : Files) : Z * Files :=
  if String.eqb data "" then (0%Z, fs)
  else match short with
       | None => (1%Z, <[p := data]> fs)
       | Some part => (0%Z, <[p := part]> fs)
       end.

Definition Remove (fails : bool) (p : string) (fs : Files) : Z * Files :=
  if fails || negb (FilePathExists fs p) then ((-1)%Z, fs)
  else (0%Z, delete p fs).

(** [rename]: on Windows it does not overwrite an existing file. *)
Definition Rename (windows fails : bool) (oldname newname : string)
    (fs : Files) : Z * Files :=
  match fs !! oldname with
  | None => ((-1)%Z, fs)
  | Some content =>
      if fails || (windows && FilePathExists fs newname) then ((-1)%Z, fs)
      else (0%Z, <[newname := content]> (delete oldname fs))
  end.

Section WithEnv.

Variable ObjToString : Value -> string.
Variable lstr_class : Value.
(** [g_buildconfig.ostype_windows()], [GetConfigFilePath()] and
    [GetErrnoString()]. *)
Variable ostype_windows : bool.
Variable path : string.
Variable errno_string : string.

Definition path_temp : string := path ++ ".tmp".
Definition path_prev : string := path ++ ".prev".

(** python_methods_app.cc [PyCommitConfig], after its argument is parsed. *)
Definition PyCommitConfig (faults : Faults) (config_obj : Value) (fs : Files)
  : Outcome unit * Files :=
  if negb (IsPyLString lstr_class config_obj) then
    (Raised (Exception_msg "ERROR ON JSON DUMP"), fs)
  else
    match GetPyLString ObjToString lstr_class config_obj with
    | Raised e => (Raised e, fs)
    | Fatal m => (Fatal m, fs)
    | Returned final_str =>
        match FOpen_wb (fopen_fails faults) path_temp fs with
        | None =>
            (Raised (Exception_msg ("Error opening config file for writing: '"
                                    ++ path_temp ++ "': " ++ errno_string)), fs)
        | Some fs =>
            let '(result, fs) := fwrite (fwrite_short faults) final_str path_temp fs in
            if negb (result =? 1)%Z then
              (Raised (Exception_msg ("Error writing config file to '"
                                      ++ path_temp ++ "': " ++ errno_string)), fs)
            else
              let move_into_place (fs : Files) :=
                let '(result2, fs) :=
                  Rename ostype_windows (rename_final_fails faults) path_temp path fs in
                if negb (result2 =? 0)%Z then
                  (Raised (Exception_msg ("Error renaming temp config file to final '"
                                          ++ path ++ "': " ++ errno_string)), fs)
                else (Returned tt, fs) in
              let backup (fs : Files) :=
                let '(result2, fs) :=
                  Rename ostype_windows (rename_prev_fails faults) path path_prev fs in
                if negb (result2 =? 0)%Z then
                  (Raised (Exception_msg ("Error backing up config file to '"
                                          ++ path_prev ++ "': " ++ errno_string)), fs)
                else move_into_place fs in
              if FilePathExists fs path then
                if ostype_windows && FilePathExists fs path_prev then
                  let '(result2, fs) := Remove (remove_fails faults) path_prev fs in
                  if negb (result2 =? 0)%Z then
                    (Raised (Exception_msg ("Error removing prev config file '"
                                            ++ path_prev ++ "': " ++ errno_string)), fs)
                  else backup fs
                else backup fs
              else move_into_place fs
        end
    end.

End WithEnv.

End Config.

(** ** Random names and node message types of the scene feature set *)

Module SceneV1.

(** The fields of [SceneV1FeatureSet] that scene_v1.cc works on here.
    [random_name_registry_] is a pointer, null until first used. *)
Record State : Type := MkState {
  random_name_registry_ : option (gmap string string);
  default_names_ : list string;
  node_message_types_ : gmap string nat;
  node_message_formats_ : list string
}.

Definition initial : State := MkState None [] ∅ [].

Definition set_registry (r : option (gmap string string)) (s : State) : State :=
  MkState r (default_names_ s) (node_message_types_ s) (node_message_formats_ s).

(** scene_v1.cc [SceneV1FeatureSet::ResetRandomNames]. *)
Definition ResetRandomNames (s : State) : State :=
  match random_name_registry_ s with
  | None => s
  | Some _ => set_registry (Some ∅) s
  end.

(** scene_v1.cc [SceneV1FeatureSet::GetRandomName].  [rand] is what
    [rand()] gives in this call and [random_name_list] what
    [Utils::GetRandomNameList()] gives.  With no name to draw from, the
    code computes a remainder by zero. *)
Definition GetRandomName (full_name : string) (rand : nat)
    (random_name_list : list string) (s : State) : Outcome string * State :=
  let registry := match random_name_registry_ s with
                  | None => ∅
                  | Some r => r
                  end in
  match registry !! full_name with
  | Some name => (Returned name, set_registry (Some registry) s)
  | None =>
      let names := match default_names_ s with
                   | [] => random_name_list
                   | _ => default_names_ s
                   end in
      match names with
      | [] => (Fatal "remainder by zero", set_registry (Some registry) s)
      | first :: _ =>
          let index := (rand mod length names)%nat in
          let name := nth index names first in
          (Returned name,
           MkState (Some (<[full_name := name]> registry))
                   (delete index names)
                   (node_message_types_ s) (node_message_formats_ s))
      end
  end.

(** The registry as a map; a null pointer stands for no entries. *)
Definition registry (s : State) : gmap string string :=
  match random_name_registry_ s with Some r => r | None => ∅ end.

(** scene_v1.cc [SceneV1FeatureSet::SetupNodeMessageType]; [val] is the
    enumerator as a number, not negative. *)
Definition SetupNodeMessageType (name : string) (val : nat) (format : string)
    (s : State) : State :=
  let formats := node_message_formats_ s in
  let formats := if (length formats <=? val)%nat
                 then (formats ++ replicate (val + 1 - length formats) "")%list
                 else formats in
  MkState (random_name_registry_ s) (default_names_ s)
          (<[name := val]> (node_message_types_ s))
          (<[val := format]> formats).

(** A run of [GetRandomName] calls, each with its own [rand()] result;
    the names they return. *)
Fixpoint get_names (random_name_list : list string)
    (calls : list (string * nat)) (s : State) : list (Outcome string) * State :=
  match calls with
  | [] => ([], s)
  | (full_name, rand) :: rest =>
      let '(r, s1) := GetRandomName full_name rand random_name_list s in
      let '(rs, s2) := get_names random_name_list rest s1 in
      (r :: rs, s2)
  end.

(** A run of [SetupNodeMessageType] calls, as in the constructor. *)
Definition setup_all (regs : list (string * nat * string)) (s : State) : State :=
  fold_left (fun s r => SetupNodeMessageType r.1.1 r.1.2 r.2 s) regs s.

End SceneV1.

(** ** Installing the language keys and the random name list *)

Module LanguageKeys.

Import Py.

(** What the call hands over in the end: the list that
    [Utils::SetRandomNameList] receives and the map that
    [Assets::SetLanguageKeys] receives. *)
Record State : Type := MkState {
  random_name_list : list string;
  language_keys : gmap string string
}.









End LanguageKeys.

(** ** Concrete inputs used in the further examples *)

Module Samples.

(** The main thread of a build with every optional subsystem, on a platform
    whose app manages the event loop. *)
Definition env_main : AppStart.Env := AppStart.MkEnv true true true true true.


(** A first call that finds the uuid callable, and a later one made where
    there is nothing but the random fallback. *)
Definition env_uuid : InstanceUUID.Env :=
  InstanceUUID.MkEnv true (Some (Returned "5f3a")) 7%N.
Definition env_fallback : InstanceUUID.Env :=
  InstanceUUID.MkEnv false None 7%N.

(** The [Lstr] class, and an instance whose [_get_json] gives a string. *)
Definition lstr_class : Py.Value := Py.PyClass 7.

(** An enum class, and a member of it with value 2. *)
Definition enum_class : Py.Value := Py.PyClass 9.
Definition enum_member : Py.Value :=
  Py.PyInstance [9%positive] [("value", Py.PyLong 2)].

(** How [Python::ObjToString] prints, as far as the examples need it. *)
Definition show (v : Py.Value) : string := "<object>".

(** A config path with a config in place, and a run in which the last
    rename fails. *)
Definition config_path : string := "config.json".
Definition old_files : Config.Files := {[ "config.json" := "old" ]}.

(** A list of names to draw from, two players with what [rand()] gives
    when each asks for a name, and three message types registered with
    their numbers out of order. *)
Definition name_list : list string := ["Ann"; "Bo"; "Cy"].
Definition two_players : list (string * nat) := [("p1", 5%nat); ("p2", 7%nat)].
Definition three_message_types : list (string * nat * string) :=
  [("flash", 2%nat, ""); ("footing", 4%nat, "c"); ("knockout", 0%nat, "f")].

End Samples.

(* ===================================================================== *)
(** * Part II: properties                                                 *)
(* ===================================================================== *)

Local Open Scope list_scope.

(** ** Reference counts under [Py_INCREF] and [Py_DECREF] *)

Section RefCounts.
Import PyRef.
Implicit Types (h : gmap positive nat) (o p : positive).

Lemma refcount_INCREF_eq h o :
  is_Some (h !! o) -> refcount o (Py_INCREF o h) = S (refcount o h).
Proof.
  intros [n Hn]. unfold refcount, Py_INCREF.
  rewrite lookup_alter_eq, Hn. reflexivity.
Qed.

Lemma refcount_INCREF_ne h o p :
  o <> p -> refcount p (Py_INCREF o h) = refcount p h.
Proof.
  intros Hne. unfold refcount, Py_INCREF.
  rewrite lookup_alter_ne by done. reflexivity.
Qed.

Lemma refcount_DECREF_eq h o :
  refcount o (Py_DECREF o h) = Nat.pred (refcount o h).
Proof.
  unfold refcount, Py_DECREF.
  destruct (h !! o) as [[|[|n]]|] eqn:Ho; simpl.
  - rewrite lookup_delete_eq. reflexivity.
  - rewrite lookup_delete_eq. reflexivity.
  - rewrite lookup_insert_eq. reflexivity.
  - rewrite Ho. reflexivity.
Qed.

Lemma refcount_DECREF_ne h o p :
  o <> p -> refcount p (Py_DECREF o h) = refcount p h.
Proof.
  intros Hne. unfold refcount, Py_DECREF.
  destruct (h !! o) as [[|[|n]]|] eqn:Ho; simpl.
  - rewrite lookup_delete_ne by done. reflexivity.
  - rewrite lookup_delete_ne by done. reflexivity.
  - rewrite lookup_insert_ne by done. reflexivity.
  - reflexivity.
Qed.

Lemma refcount_pos_is_Some h o : 0 < refcount o h -> is_Some (h !! o).
Proof.
  unfold refcount. destruct (h !! o); simpl; [eauto | lia].
Qed.

(** Releasing twice is releasing once: the second call finds the wrapper
    empty and does nothing. *)
Lemma Release_idempotent (r : PythonRef) h :
  let (r1, h1) := Release r h in Release r1 h1 = (r1, h1).
Proof.
  unfold Release. destruct (obj_ r) eqn:Hr; simpl; [reflexivity|].
  rewrite Hr. reflexivity.
Qed.

End RefCounts.

(** ** Null handles: the hard and the soft acquisition modes *)

Section NullHandles.
Import PyRef.

(** C6.  For a null object handle, [Steal] and [Acquire] (and the
    constructor with [kSteal] or [kAcquire]) fail with the
    invalid-reference error, whatever the wrapper held; [StealSoft] and
    [AcquireSoft] (and the constructor with [kStealSoft] or
    [kAcquireSoft]) succeed and leave an unreferenced wrapper: [Get] is
    null and [Exists] is false. *)
Theorem null_handle_hard_fails_soft_unreferenced
    (r : PythonRef) (h : gmap positive nat) :
  Steal None r h = Raised InvalidReferenceError /\
  Acquire None r h = Raised InvalidReferenceError /\
  PythonRef_ctor None kSteal h = Raised InvalidReferenceError /\
  PythonRef_ctor None kAcquire h = Raised InvalidReferenceError /\
  Stolen None h = Raised InvalidReferenceError /\
  Acquired None h = Raised InvalidReferenceError /\
  (exists r' h', StealSoft None r h = Returned (r', h')
                 /\ Get r' = None /\ Exists r' = false) /\
  (exists r' h', AcquireSoft None r h = Returned (r', h')
                 /\ Get r' = None /\ Exists r' = false) /\
  (exists r', PythonRef_ctor None kStealSoft h = Returned (r', h)
              /\ Get r' = None /\ Exists r' = false) /\
  (exists r', PythonRef_ctor None kAcquireSoft h = Returned (r', h)
              /\ Get r' = None /\ Exists r' = false).
Proof.
  repeat split; try reflexivity.
  - unfold StealSoft, Release, Get, Exists.
    destruct (obj_ r) eqn:Hr; do 2 eexists; (split; [reflexivity|]); simpl;
      rewrite ?Hr; split; reflexivity.
  - unfold AcquireSoft, Release, Get, Exists.
    destruct (obj_ r) eqn:Hr; do 2 eexists; (split; [reflexivity|]); simpl;
      rewrite ?Hr; split; reflexivity.
  - exists unreferenced. repeat split.
  - exists unreferenced. repeat split.
Qed.

End NullHandles.

(** ** Copy-assignment of the reference wrapper *)

Section CopyAssignment.
Import PyRef.

(** C7.  Copy-assignment never steals.  When [b] references a live object
    [o], [a = b] leaves [a] holding [o] through a reference of its own:
    the count of [o] is one higher than before when [a] did not already
    hold [o], and unchanged when it did (its old reference to [o] is given
    up for the new one); the reference [a] held to another object is
    released.  When [b] is unreferenced, [a] gives up whatever it held and
    is unreferenced. *)
Theorem copy_assignment_acquires_or_releases
    (a b : PythonRef) (h : gmap positive nat) :
  (forall o, Get b = Some o -> 0 < refcount o h ->
     exists h',
       assign a b h = Returned (MkPythonRef (Some o), h') /\
       refcount o h' =
         (if decide (Get a = Some o) then refcount o h else S (refcount o h)) /\
       (forall prev, Get a = Some prev -> prev <> o ->
          refcount prev h' = Nat.pred (refcount prev h))) /\
  (Get b = None ->
     exists a' h',
       assign a b h = Returned (a', h') /\
       Get a' = None /\ Exists a' = false /\
       (forall prev, Get a = Some prev ->
          refcount prev h' = Nat.pred (refcount prev h)) /\
       (Get a = None -> h' = h)).
Proof.
  split.
  - intros o Hb Hlive. unfold assign, Exists, Get in *. rewrite Hb. simpl.
    eexists. split; [reflexivity|].
    pose proof (refcount_pos_is_Some _ _ Hlive) as Hs.
    destruct (obj_ a) as [prev|] eqn:Ha.
    + split.
      * case_decide as E.
        -- inversion E; subst prev.
           rewrite refcount_DECREF_eq, refcount_INCREF_eq by done.
           reflexivity.
        -- rewrite refcount_DECREF_ne by congruence.
           apply refcount_INCREF_eq; done.
      * intros prev' E Hne. inversion E; subst prev'.
        rewrite refcount_DECREF_eq, refcount_INCREF_ne by done. reflexivity.
    + split.
      * case_decide as E; [discriminate|].
        apply refcount_INCREF_eq; done.
      * intros prev' E. discriminate.
  - intros Hb. unfold assign, Exists, Get in *. rewrite Hb. simpl.
    unfold Release.
    destruct (obj_ a) as [prev|] eqn:Ha.
    + do 2 eexists. split; [reflexivity|]. simpl. repeat split.
      * intros prev' E. inversion E; subst. apply refcount_DECREF_eq.
      * discriminate.
    + do 2 eexists. split; [reflexivity|]. simpl. rewrite Ha. repeat split.
      intros prev' E. discriminate.
Qed.

(** The theorem at work: [b] holds object 7 (count 1), [a] holds object 5
    (count 1) and is assigned from [b]; then [a] is assigned from an
    unreferenced wrapper. *)
Lemma copy_assignment_acquires_or_releases_witness :
  (exists h',
     assign (MkPythonRef (Some 5%positive)) (MkPythonRef (Some 7%positive))
            (<[5%positive := 1]> (<[7%positive := 1]> ∅))
       = Returned (MkPythonRef (Some 7%positive), h') /\
     refcount 7 h' = 2 /\ refcount 5 h' = 0) /\
  (exists a' h',
     assign (MkPythonRef (Some 5%positive)) unreferenced
            (<[5%positive := 1]> ∅) = Returned (a', h') /\
     Get a' = None /\ refcount 5 h' = 0).
Proof.
  split.
  - assert (Hlive : 0 < refcount 7 (<[5%positive := 1]> (<[7%positive := 1]> ∅)))
      by (vm_compute; lia).
    destruct (proj1 (copy_assignment_acquires_or_releases
                (MkPythonRef (Some 5%positive)) (MkPythonRef (Some 7%positive))
                (<[5%positive := 1]> (<[7%positive := 1]> ∅)))
                7%positive eq_refl Hlive)
      as (h' & E & Hc & Hp).
    exists h'. split; [exact E|]. split; [exact Hc|].
    exact (Hp 5%positive eq_refl ltac:(discriminate)).
  - destruct (proj2 (copy_assignment_acquires_or_releases
                (MkPythonRef (Some 5%positive)) unreferenced
                (<[5%positive := 1]> ∅)) eq_refl)
      as (a' & h' & E & Hg & _ & Hp & _).
    exists a', h'. split; [exact E|]. split; [exact Hg|].
    exact (Hp 5%positive eq_refl).
Defined.

End CopyAssignment.

(** ** The event loop: submission order, run to completion, one thread *)

Section LoopFacts.
Import Loop.
Context {A : Type}.
Implicit Types (s : Sys A) (acts : list (Action A)) (tr : list (Obs A)).

Lemma pushed_app acts1 acts2 :
  pushed (acts1 ++ acts2) = pushed acts1 ++ pushed acts2.
Proof.
  induction acts1 as [|[t c| |] acts1 IH]; simpl; rewrite ?IH; reflexivity.
Qed.

Lemma begun_app tr1 tr2 : begun (tr1 ++ tr2) = begun tr1 ++ begun tr2.
Proof.
  induction tr1 as [|[t c|t c] tr1 IH]; simpl; rewrite ?IH; reflexivity.
Qed.

Lemma finished_app tr1 tr2 :
  finished (tr1 ++ tr2) = finished tr1 ++ finished tr2.
Proof.
  induction tr1 as [|[t c|t c] tr1 IH]; simpl; rewrite ?IH; reflexivity.
Qed.

Lemma after_app tr1 tr2 cur :
  after (tr1 ++ tr2) cur = after tr2 (after tr1 cur).
Proof.
  revert cur. induction tr1 as [|[t c|t c] tr1 IH]; intros cur; simpl;
    rewrite ?IH; reflexivity.
Qed.

Lemma serial_app tr1 tr2 cur :
  serial (tr1 ++ tr2) cur <-> serial tr1 cur /\ serial tr2 (after tr1 cur).
Proof.
  revert cur. induction tr1 as [|[t c|t c] tr1 IH]; intros cur; simpl.
  - tauto.
  - rewrite IH. tauto.
  - rewrite IH. tauto.
Qed.

Lemma run_snoc s acts a : run s (acts ++ [a]) = step (run s acts) a.
Proof. unfold run. rewrite fold_left_app. reflexivity. Qed.

Lemma run_app s acts1 acts2 : run s (acts1 ++ acts2) = run (run s acts1) acts2.
Proof. unfold run. apply fold_left_app. Qed.

Lemma loop_inv_init owner : loop_inv owner [] (init (A:=A) owner).
Proof. split; simpl; auto. Qed.

Lemma pushed_snoc acts a :
  pushed (acts ++ [a]) =
  pushed acts ++ match a with APush _ c => [c] | _ => [] end.
Proof. rewrite pushed_app. destruct a; reflexivity. Qed.

Lemma loop_inv_step owner acts s a :
  loop_inv owner acts s -> loop_inv owner (acts ++ [a]) (step s a).
Proof.
  intros [Ho Hf Ht Hs Hr Hd].
  pose proof (pushed_snoc acts a) as Hp.
  destruct a as [t c| |]; simpl in *; rewrite ?app_nil_r in Hp.
  - split; simpl; auto.
    rewrite Hp, <- Hf, app_assoc. reflexivity.
  - destruct (running s) as [c0|] eqn:Hrun;
      [split; rewrite ?Hp, ?Hrun; auto|].
    unfold pop. destruct (runnables_ (loop s)) as [|c rest] eqn:Hq;
      [split; rewrite ?Hp, ?Hrun, ?Hq; auto|].
    split; simpl.
    + exact Ho.
    + rewrite Hp, begun_app. simpl. rewrite <- Hf, <- app_assoc. reflexivity.
    + apply Forall_app. split; [exact Ht|]. constructor; [exact Ho | constructor].
    + apply serial_app. split; [exact Hs|]. simpl. rewrite Hr. auto.
    + rewrite after_app. reflexivity.
    + rewrite begun_app, finished_app, Hd. simpl.
      rewrite !app_nil_r. reflexivity.
  - destruct (running s) as [c0|] eqn:Hrun;
      [|split; rewrite ?Hp, ?Hrun; auto].
    split; simpl.
    + exact Ho.
    + rewrite Hp, begun_app. simpl. rewrite app_nil_r. exact Hf.
    + apply Forall_app. split; [exact Ht|]. constructor; [exact Ho | constructor].
    + apply serial_app. split; [exact Hs|]. simpl. rewrite Hr. auto.
    + rewrite after_app. reflexivity.
    + rewrite begun_app, finished_app, Hd. simpl.
      rewrite !app_nil_r. reflexivity.
Qed.

Lemma loop_inv_run owner acts : loop_inv owner acts (run (init owner) acts).
Proof.
  induction acts as [|a acts IH] using rev_ind.
  - apply loop_inv_init.
  - rewrite run_snoc. apply loop_inv_step. exact IH.
Qed.

(** Draining a loop that is idle and holds [q] runs all of [q], in order. *)
Lemma drain_runs_queue (q : list A) owner tr :
  run (MkSys (MkEventLoop owner q) None tr) (drain (length q)) =
  MkSys (MkEventLoop owner []) None
        (tr ++ flat_map (fun c => [OBegin owner c; OEnd owner c]) q).
Proof.
  revert tr. induction q as [|c q IH]; intros tr; simpl.
  - rewrite app_nil_r. reflexivity.
  - unfold run in *. simpl. rewrite IH. rewrite <- !app_assoc. reflexivity.
Qed.

Lemma run_pushes (cs : list A) (t owner : thread_id) q tr r :
  run (MkSys (MkEventLoop owner q) r tr) (map (APush t) cs) =
  MkSys (MkEventLoop owner (q ++ cs)) r tr.
Proof.
  revert q. induction cs as [|c cs IH]; intros q; simpl.
  - rewrite app_nil_r. reflexivity.
  - unfold run in *. simpl. unfold PushCall at 1. simpl.
    rewrite IH, <- app_assoc. reflexivity.
Qed.

Lemma finished_pairs (cs : list A) owner :
  finished (flat_map (fun c => [OBegin owner c; OEnd owner c]) cs) = cs.
Proof. induction cs as [|c cs IH]; simpl; rewrite ?IH; reflexivity. Qed.

Lemma begun_pairs (cs : list A) owner :
  begun (flat_map (fun c => [OBegin owner c; OEnd owner c]) cs) = cs.
Proof. induction cs as [|c cs IH]; simpl; rewrite ?IH; reflexivity. Qed.

Lemma pushed_by_sublist (t : thread_id) acts :
  sublist (pushed_by t acts) (pushed acts).
Proof.
  induction acts as [|[t' c| |] acts IH]; simpl.
  - constructor.
  - destruct (Nat.eqb t t'); [apply sublist_skip | apply sublist_cons]; exact IH.
  - exact IH.
  - exact IH.
Qed.

(** C3.  Whatever the interleaving of pushes (from any threads) with the
    owning thread's dispatching: every callable is run on the owning
    thread; the callables begun so far, followed by those still queued,
    are exactly the callables pushed, in the order of their pushes; no
    callable begins while another has begun and not finished; and the
    callables begun are those finished plus the one still running.  The
    callables pushed by one thread [t] keep their order within that
    sequence.  In particular a thread [t] pushing [cs] to an idle loop that
    then drains sees exactly [cs] run, in that order. *)
Theorem event_loop_runs_in_submission_order
    (owner t : thread_id) (acts : list (Action A)) (cs : list A) :
  let s := run (init owner) acts in
  Forall (fun o => obs_thread o = owner) (trace s) /\
  begun (trace s) ++ runnables_ (loop s) = pushed acts /\
  serial (trace s) None /\
  begun (trace s) = finished (trace s) ++ from_option (fun c => [c]) [] (running s) /\
  sublist (pushed_by t acts) (begun (trace s) ++ runnables_ (loop s)) /\
  (let s' := run (init owner) (map (APush t) cs ++ drain (length cs)) in
   begun (trace s') = cs /\ finished (trace s') = cs /\
   runnables_ (loop s') = [] /\ running s' = None).
Proof.
  intros s. destruct (loop_inv_run owner acts) as [Ho Hf Ht Hs Hr Hd].
  split; [exact Ht|]. split; [exact Hf|]. split; [exact Hs|].
  split; [exact Hd|].
  split; [subst s; rewrite Hf; apply pushed_by_sublist|].
  intros s'. subst s'.
  rewrite run_app. unfold init. rewrite run_pushes. simpl.
  rewrite drain_runs_queue. simpl.
  split; [apply begun_pairs|]. split; [apply finished_pairs|].
  split; reflexivity.
Qed.

End LoopFacts.

(** The scenario of the spec: [A], [B], [C] pushed by thread 7 to the loop of
    thread 1 come out as [A], [B], [C]. *)
Example push_A_B_C_runs_A_B_C :
  let s := Loop.run (Loop.init 1)
             [Loop.APush 7 "A"; Loop.APush 7 "B"; Loop.APush 7 "C";
              Loop.ABegin; Loop.AEnd; Loop.ABegin; Loop.AEnd; Loop.ABegin; Loop.AEnd] in
  Loop.trace s =
    [Loop.OBegin 1 "A"; Loop.OEnd 1 "A"; Loop.OBegin 1 "B"; Loop.OEnd 1 "B";
     Loop.OBegin 1 "C"; Loop.OEnd 1 "C"].
Proof. reflexivity. Qed.

(** ** Ambient context: save, install, restore *)

Section ContextFacts.
Import Loop Base.
Variable py_leaves : positive + nat -> ContextRef -> ContextRef.

Local Abbreviation exec := (Base.exec py_leaves).
Local Abbreviation dispatch_one := (Base.dispatch_one py_leaves).
Local Abbreviation dispatch := (Base.dispatch py_leaves).

Lemma exec_scoped_restores c body b :
  context_ref (snd (exec (SScoped c body) b)) = context_ref b.
Proof.
  simpl. destruct (Base.exec py_leaves body _) as [o b2]. reflexivity.
Qed.

Lemma exec_scoped_outcome c body b :
  fst (exec (SScoped c body) b) =
  fst (exec body (SetCurrentContext (eval_ctx c b) b)).
Proof.
  simpl. destruct (Base.exec py_leaves body _) as [o b2]. reflexivity.
Qed.

Lemma exec_event_loop s b : event_loop (snd (exec s b)) = event_loop b.
Proof.
  revert b. induction s; intros b; simpl; try reflexivity.
  - destruct (Base.exec py_leaves s1 b) as [[[]| |] b1] eqn:E1; simpl.
    + rewrite IHs2. rewrite <- (IHs1 b), E1. reflexivity.
    + rewrite <- (IHs1 b), E1. reflexivity.
    + rewrite <- (IHs1 b), E1. reflexivity.
  - destruct (Base.exec py_leaves s _) as [o b2] eqn:E. simpl.
    change b2 with (snd (o, b2)). rewrite <- E, IHs. reflexivity.
  - destruct args; reflexivity.
Qed.

Lemma exec_disciplined s b :
  scope_disciplined s = true -> context_ref (snd (exec s b)) = context_ref b.
Proof.
  revert b. induction s; intros b Hd; simpl in Hd; try discriminate.
  - reflexivity.
  - apply andb_true_iff in Hd as [H1 H2]. simpl.
    destruct (Base.exec py_leaves s1 b) as [[[]| |] b1] eqn:E1; simpl.
    + rewrite (IHs2 _ H2). rewrite <- (IHs1 b H1), E1. reflexivity.
    + rewrite <- (IHs1 b H1), E1. reflexivity.
    + rewrite <- (IHs1 b H1), E1. reflexivity.
  - reflexivity.
  - apply exec_scoped_restores.
Qed.

Lemma dispatch_one_disciplined b :
  (forall l, event_loop b = Some l ->
             Forall (fun s => scope_disciplined s = true) (runnables_ l)) ->
  context_ref (dispatch_one b) = context_ref b /\
  (forall l, event_loop (dispatch_one b) = Some l ->
             Forall (fun s => scope_disciplined s = true) (runnables_ l)).
Proof.
  intros Hq. unfold Base.dispatch_one.
  destruct (event_loop b) as [l|] eqn:El; [|split; [reflexivity|]; intros l' E; congruence].
  unfold pop. destruct (runnables_ l) as [|c rest] eqn:Eq.
  - split; [reflexivity|]. intros l' E. rewrite El in E. inversion E; subst.
    rewrite Eq. constructor.
  - pose proof (Hq l eq_refl) as Hall. rewrite Eq in Hall.
    inversion Hall as [|? ? Hc Hrest]; subst.
    pose proof (exec_disciplined c (set_event_loop (Some (MkEventLoop (thread_ l) rest)) b) Hc) as Hctx.
    pose proof (exec_event_loop c (set_event_loop (Some (MkEventLoop (thread_ l) rest)) b)) as Hloop.
    destruct (Base.exec py_leaves c _) as [[[]| |] b'] eqn:E; simpl in *.
    + split; [exact Hctx|]. intros l' E'. rewrite Hloop in E'.
      inversion E'; subst. exact Hrest.
    + split; [exact Hctx|]. intros l' E'. rewrite Hloop in E'.
      inversion E'; subst. exact Hrest.
    + split; [exact Hctx|]. intros l' E'. rewrite Hloop in E'.
      inversion E'; subst. exact Hrest.
Qed.

Lemma dispatch_disciplined n b :
  (forall l, event_loop b = Some l ->
             Forall (fun s => scope_disciplined s = true) (runnables_ l)) ->
  context_ref (dispatch n b) = context_ref b.
Proof.
  revert b. induction n as [|n IH]; intros b Hq; simpl; [reflexivity|].
  destruct (dispatch_one_disciplined b Hq) as [Hc Hq'].
  rewrite (IH _ Hq'). exact Hc.
Qed.

Lemma forallb_Forall_true {X} (f : X -> bool) (xs : list X) :
  forallb f xs = true -> Forall (fun x => f x = true) xs.
Proof.
  induction xs as [|x xs IH]; simpl; intros H; [constructor|].
  apply andb_true_iff in H as [Hx Hxs]. constructor; auto.
Qed.

Lemma queue_disciplined_Forall b :
  queue_disciplined b = true ->
  forall l, event_loop b = Some l ->
            Forall (fun s => scope_disciplined s = true) (runnables_ l).
Proof.
  unfold queue_disciplined. intros H l El. rewrite El in H.
  apply forallb_Forall_true. exact H.
Qed.

Lemma queue_disciplined_DoPushObjCall id b :
  queue_disciplined b = true ->
  queue_disciplined (snd (DoPushObjCall id b)) = true /\
  context_ref (snd (DoPushObjCall id b)) = context_ref b.
Proof.
  unfold queue_disciplined, DoPushObjCall, logic_PushCall.
  destruct (event_loop b) as [l|] eqn:El; simpl.
  - intros H. split; [|reflexivity].
    rewrite forallb_app, H. reflexivity.
  - rewrite El. auto.
Qed.

(** C4.  Whatever the body does (further scopes nested to any depth,
    direct overwrites of the ambient context, Python callables, a thrown
    exception), the ambient context after a [ScopedSetContext] scope is
    the ambient context from before it, and the outcome of the scope is
    the outcome of its body run with the new context installed.  A
    callable run directly inside the scope sees the new context; after an
    inner scope the enclosing scope's context is in force again.  The
    closures that [DoPushObjCall] queues are such scopes: when the logic
    thread's queue holds only scope-disciplined calls, pushing one more with
    [DoPushObjCall] and dispatching any number of calls leaves the logic
    thread's ambient context as it was. *)
Theorem scoped_set_context_round_trip
    (c : CtxExpr) (v1 v2 : ContextRef) (cs : list CtxExpr)
    (body : Stmt) (e : Exception) (f g id n : nat) (args : PyRef.PyObjectPtr)
    (b : BaseFeatureSet)
    (Hqueue : queue_disciplined b = true) :
  context_ref (snd (exec (SScoped c body) b)) = context_ref b /\
  context_ref (snd (exec (nest (c :: cs) body) b)) = context_ref b /\
  fst (exec (SScoped c body) b) =
    fst (exec body (SetCurrentContext (eval_ctx c b) b)) /\
  exec (SScoped c (SThrow e)) b = (Raised e, b) /\
  calls_run (snd (exec (SScoped c (SObjCall f)) b)) =
    calls_run b ++ [MkCallRecord (inr f) (eval_ctx c b)] /\
  calls_run (snd (exec (SScoped (CtxValue v1)
               (SSeq (SScoped (CtxValue v2) (SObjCall f)) (SObjCall g))) b)) =
    calls_run b ++ [MkCallRecord (inr f) v2; MkCallRecord (inr g) v1] /\
  context_ref (snd (exec (ObjCall_closure id) b)) = context_ref b /\
  context_ref (snd (exec (ObjCallArg_closure id args) b)) = context_ref b /\
  context_ref (dispatch n (snd (DoPushObjCall id b))) = context_ref b.
Proof.
  split; [apply exec_scoped_restores|].
  split; [apply (exec_scoped_restores c (nest cs body))|].
  split; [apply exec_scoped_outcome|].
  split; [destruct b; reflexivity|].
  split; [reflexivity|].
  split; [simpl; rewrite <- app_assoc; reflexivity|].
  split; [apply exec_scoped_restores|].
  split; [apply exec_scoped_restores|].
  destruct (queue_disciplined_DoPushObjCall id b Hqueue) as [Hq Hc].
  rewrite dispatch_disciplined; [exact Hc|].
  apply queue_disciplined_Forall. exact Hq.
Qed.

End ContextFacts.

(** The theorem at work: the logic thread is in context 10 with an empty
    queue; a call to object 4 is pushed with [DoPushObjCall] and dispatched;
    it ran under the empty context and the logic thread is in context 10
    again. *)
Lemma scoped_set_context_round_trip_witness :
  Base.queue_disciplined Demo.base_in10 = true /\
  Base.context_ref
    (Base.dispatch Demo.py_keeps 1 (snd (Base.DoPushObjCall 4 Demo.base_in10)))
    = Demo.ctx10.
Proof.
  split; [reflexivity|].
  exact (proj2 (proj2 (proj2 (proj2 (proj2 (proj2 (proj2 (proj2
           (scoped_set_context_round_trip Demo.py_keeps
              Base.CtxForeground None None [] Base.SSkip
              (Exception_msg "e") 0 0 4 1 None Demo.base_in10 eq_refl))))))))).
Defined.

(** ** [pushcall]: which context a deferred call runs under *)

Section PushCallFacts.
Import Loop Base.
Variable py_leaves : positive + nat -> ContextRef -> ContextRef.

Local Abbreviation exec := (Base.exec py_leaves).
Local Abbreviation dispatch_one := (Base.dispatch_one py_leaves).

Lemma PyPushCall_other_thread cur call_obj suppress use_fg b l :
  event_loop b = Some l ->
  exists lg,
    PyPushCall cur call_obj true suppress use_fg false b =
    (Returned tt,
     MkBase (Some (PushCall (other_thread_closure call_obj use_fg) l))
            (context_ref b) (foreground_context b) (app_timers b)
            (display_timers b) (PyRef.Py_INCREF call_obj (py_heap b))
            (calls_run b) lg).
Proof.
  intros El. destruct b as [el cr fg at_ dt ph cl lg]. simpl in El. subst el.
  unfold PyPushCall, bind, get, modify, logic_PushCall, ret, InLogicThread.
  simpl. destruct (negb suppress && ThreadIsCurrent cur l); simpl;
    eexists; reflexivity.
Qed.

Lemma exec_other_thread_closure call_obj use_fg b :
  calls_run (snd (exec (other_thread_closure call_obj use_fg) b)) =
    calls_run b ++
    [MkCallRecord (inl call_obj)
                  (if use_fg then GetForegroundContext b else None)] /\
  context_ref (snd (exec (other_thread_closure call_obj use_fg) b)) =
    context_ref b.
Proof. destruct use_fg; split; reflexivity. Qed.

(** C5.  A call submitted with [from_other_thread=True] (and [raw=False])
    is queued on the logic event loop.  With
    [other_thread_use_fg_context=True] the callable runs under the
    foreground context that the application mode reports when the call is
    executed, whatever it reported when the call was submitted; without
    the option it runs under the explicit empty context.  Either way the
    logic thread's ambient context is afterwards what it was just before
    the call ran. *)
Theorem pushcall_foreground_context_is_late_bound
    (cur : thread_id) (call_obj : positive) (suppress : bool)
    (b : BaseFeatureSet) (l : EventLoop Stmt)
    (fg_later amb_later : ContextRef)
    (Hloop : event_loop b = Some l) (Hidle : runnables_ l = []) :
  let later := fun b1 =>
    set_context_ref amb_later (set_foreground_context fg_later b1) in
  let r_fg := PyPushCall cur call_obj true suppress true false b in
  let r_no := PyPushCall cur call_obj true suppress false false b in
  fst r_fg = Returned tt /\
  event_loop (snd r_fg) =
    Some (PushCall (other_thread_closure call_obj true) l) /\
  calls_run (dispatch_one (later (snd r_fg))) =
    calls_run b ++ [MkCallRecord (inl call_obj) fg_later] /\
  context_ref (dispatch_one (later (snd r_fg))) = amb_later /\
  fst r_no = Returned tt /\
  calls_run (dispatch_one (later (snd r_no))) =
    calls_run b ++ [MkCallRecord (inl call_obj) None] /\
  context_ref (dispatch_one (later (snd r_no))) = amb_later /\
  (forall b', calls_run (snd (exec (other_thread_closure call_obj true) b')) =
              calls_run b' ++
              [MkCallRecord (inl call_obj) (foreground_context b')]).
Proof.
  intros later r_fg r_no. subst later r_fg r_no.
  destruct (PyPushCall_other_thread cur call_obj suppress true b l Hloop)
    as [lg1 E1].
  destruct (PyPushCall_other_thread cur call_obj suppress false b l Hloop)
    as [lg2 E2].
  rewrite E1, E2. simpl.
  unfold Base.dispatch_one, PushCall, pop. simpl. rewrite Hidle. simpl.
  repeat split; try reflexivity.
Qed.

(** C10.  [pushcall] in its default mode ([raw=False],
    [from_other_thread=False]): called from a thread that is not the logic
    thread it raises "You must use from_other_thread mode." and changes
    nothing, so nothing is queued; called on the logic thread it returns
    and queues the callable together with the ambient context of the
    moment of the call, under which the callable later runs whatever the
    ambient context is by then. *)
Theorem pushcall_default_mode_needs_logic_thread
    (cur : thread_id) (call_obj : positive) (suppress use_fg : bool)
    (b : BaseFeatureSet) :
  (InLogicThread cur b = false ->
     PyPushCall cur call_obj false suppress use_fg false b =
     (Raised (Exception_msg "You must use from_other_thread mode."), b)) /\
  (InLogicThread cur b = true ->
     exists l,
       event_loop b = Some l /\
       PyPushCall cur call_obj false suppress use_fg false b =
       (Returned tt,
        set_event_loop
          (Some (PushCall (PythonContextCall_closure call_obj (context_ref b)) l))
          (set_py_heap (PyRef.Py_INCREF call_obj (py_heap b)) b)) /\
       (forall b',
          calls_run (snd (exec (PythonContextCall_closure call_obj (context_ref b)) b')) =
            calls_run b' ++ [MkCallRecord (inl call_obj) (context_ref b)] /\
          context_ref (snd (exec (PythonContextCall_closure call_obj (context_ref b)) b')) =
            context_ref b')).
Proof.
  split.
  - intros Hn. unfold PyPushCall, bind, get, throw. simpl. rewrite Hn.
    reflexivity.
  - intros Hy. unfold InLogicThread in Hy.
    destruct (event_loop b) as [l|] eqn:El; [|discriminate].
    exists l. split; [reflexivity|]. split.
    + unfold PyPushCall, PythonContextCall_Schedule, bind, get, modify, ret,
        logic_PushCall, InLogicThread. simpl. rewrite El, Hy. simpl.
      rewrite El. reflexivity.
    + intros b'. split; reflexivity.
Qed.

End PushCallFacts.

(** The theorem at work: the call is submitted from thread 2 while the
    foreground context is context 10; by the time the logic thread (thread
    1) runs it, the foreground context is context 20. *)
Lemma pushcall_foreground_context_is_late_bound_witness :
  Base.calls_run
    (Base.dispatch_one Demo.py_keeps
       (Base.set_context_ref None
          (Base.set_foreground_context Demo.ctx20
             (snd (Base.PyPushCall 2 3%positive true false true false
                     Demo.base_fg10)))))
  = [Base.MkCallRecord (inl 3%positive) Demo.ctx20].
Proof.
  exact (proj1 (proj2 (proj2
           (pushcall_foreground_context_is_late_bound Demo.py_keeps
              2 3%positive false Demo.base_fg10 (Loop.MkEventLoop 1 [])
              Demo.ctx20 None eq_refl eq_refl)))).
Defined.

(** The theorem at work: thread 2 is refused, thread 1 (the logic thread)
    queues the call with the ambient context, context 10. *)
Lemma pushcall_default_mode_needs_logic_thread_witness :
  Base.PyPushCall 2 3%positive false false false false Demo.base_in10 =
    (Raised (Exception_msg "You must use from_other_thread mode."),
     Demo.base_in10) /\
  exists l,
    Base.event_loop Demo.base_in10 = Some l /\
    Base.event_loop
      (snd (Base.PyPushCall 1 3%positive false false false false Demo.base_in10)) =
      Some (Loop.PushCall (Base.PythonContextCall_closure 3%positive Demo.ctx10) l).
Proof.
  split.
  - exact (proj1 (pushcall_default_mode_needs_logic_thread Demo.py_keeps
                    2 3%positive false false Demo.base_in10) eq_refl).
  - destruct (proj2 (pushcall_default_mode_needs_logic_thread Demo.py_keeps
                       1 3%positive false false Demo.base_in10) eq_refl)
      as (l & El & E & _).
    exists l. split; [exact El|]. rewrite E. reflexivity.
Defined.

(** ** One-shot timers: the delay check and the time base *)

Section TimerFacts.
Import Loop Base Timers.

Lemma double_lt_0_is_negative (d : double) :
  double_lt d double_0 = is_negative d.
Proof. destruct d as [s|s| |s m e]; try destruct s; reflexivity. Qed.

Lemma nonnegative_not_negative (d : double) :
  is_nonnegative d = true -> is_negative d = false.
Proof. destruct d as [s|s| |s m e]; try destruct s; simpl; congruence. Qed.

Lemma PyAppTimer_wrong_thread cur length call_obj b :
  InLogicThread cur b = false ->
  PyAppTimer cur length call_obj b =
  (Raised (Exception_msg "Precondition failed: g_base->InLogicThread()"), b).
Proof.
  intros H. unfold PyAppTimer, bind, get, lift. simpl. rewrite H. reflexivity.
Qed.

Lemma PyDisplayTimer_wrong_thread cur length call_obj b :
  InLogicThread cur b = false ->
  PyDisplayTimer cur length call_obj b =
  (Raised (Exception_msg "Precondition failed: g_base->InLogicThread()"), b).
Proof.
  intros H. unfold PyDisplayTimer, bind, get, lift. simpl. rewrite H. reflexivity.
Qed.

Lemma PyAppTimer_context_refuses cur length call_obj b :
  InLogicThread cur b = true -> context_allows b = false ->
  exists e, PyAppTimer cur length call_obj b = (Raised e, b)
            /\ python_type_ e = kRuntime.
Proof.
  intros H Hc. unfold PyAppTimer, EnsureContextAllowsDefaultTimerTypes,
    bind, get, lift, throw, context_allows in *. simpl. rewrite H. simpl.
  destruct (CurrentContext b) as [c|]; [|discriminate].
  rewrite Hc. simpl. eexists. split; reflexivity.
Qed.

Lemma PyDisplayTimer_context_refuses cur length call_obj b :
  InLogicThread cur b = true -> context_allows b = false ->
  exists e, PyDisplayTimer cur length call_obj b = (Raised e, b)
            /\ python_type_ e = kRuntime.
Proof.
  intros H Hc. unfold PyDisplayTimer, EnsureContextAllowsDefaultTimerTypes,
    bind, get, lift, throw, context_allows in *. simpl. rewrite H. simpl.
  destruct (CurrentContext b) as [c|]; [|discriminate].
  rewrite Hc. simpl. eexists. split; reflexivity.
Qed.

Lemma PyAppTimer_checked cur length call_obj b :
  InLogicThread cur b = true -> context_allows b = true ->
  PyAppTimer cur length call_obj b =
  if is_negative length then (Raised timer_length_error, b)
  else (Returned tt,
        set_display_timers (display_timers b ++ [timer_of length call_obj b])
          (set_py_heap (PyRef.Py_INCREF call_obj (py_heap b)) b)).
Proof.
  intros H Hc. unfold PyAppTimer, EnsureContextAllowsDefaultTimerTypes,
    New_PythonContextCallRunnable, NewDisplayTimer,
    bind, get, lift, throw, modify, ret, context_allows in *.
  simpl. rewrite H. simpl. rewrite double_lt_0_is_negative.
  destruct (CurrentContext b) as [c|] eqn:Ec.
  - rewrite Hc. simpl. destruct (is_negative length); [reflexivity|].
    simpl. unfold timer_of. rewrite Ec. reflexivity.
  - simpl. destruct (is_negative length); [reflexivity|].
    simpl. unfold timer_of. rewrite Ec. reflexivity.
Qed.

Lemma PyDisplayTimer_checked cur length call_obj b :
  InLogicThread cur b = true -> context_allows b = true ->
  PyDisplayTimer cur length call_obj b =
  if is_negative length then (Raised timer_length_error, b)
  else (Returned tt,
        set_app_timers (app_timers b ++ [timer_of length call_obj b])
          (set_py_heap (PyRef.Py_INCREF call_obj (py_heap b)) b)).
Proof.
  intros H Hc. unfold PyDisplayTimer, EnsureContextAllowsDefaultTimerTypes,
    New_PythonContextCallRunnable, NewAppTimer,
    bind, get, lift, throw, modify, ret, context_allows in *.
  simpl. rewrite H. simpl. rewrite double_lt_0_is_negative.
  destruct (CurrentContext b) as [c|] eqn:Ec.
  - rewrite Hc. simpl. destruct (is_negative length); [reflexivity|].
    simpl. unfold timer_of. rewrite Ec. reflexivity.
  - simpl. destruct (is_negative length); [reflexivity|].
    simpl. unfold timer_of. rewrite Ec. reflexivity.
Qed.

(** C8.  The error for a bad delay is a value error.  For a negative delay
    (negative finite or minus infinity) both [apptimer] and [displaytimer]
    fail and leave the state as it was, so no timer is scheduled and the
    delay is not clamped to zero; called on the logic thread under a
    context that allows default timer types, the failure is that value
    error.  For a delay that is zero or positive the value error is never
    raised, and such a call on the logic thread under an allowing context
    returns and schedules one timer. *)
Theorem negative_timer_delay_is_value_error
    (cur : thread_id) (length : double) (call_obj : positive)
    (b : BaseFeatureSet) :
  python_type_ timer_length_error = kValue /\
  (is_negative length = true ->
     is_raised (fst (PyAppTimer cur length call_obj b)) = true /\
     snd (PyAppTimer cur length call_obj b) = b /\
     is_raised (fst (PyDisplayTimer cur length call_obj b)) = true /\
     snd (PyDisplayTimer cur length call_obj b) = b /\
     (InLogicThread cur b = true -> context_allows b = true ->
        PyAppTimer cur length call_obj b = (Raised timer_length_error, b) /\
        PyDisplayTimer cur length call_obj b = (Raised timer_length_error, b))) /\
  (is_nonnegative length = true ->
     fst (PyAppTimer cur length call_obj b) <> Raised timer_length_error /\
     fst (PyDisplayTimer cur length call_obj b) <> Raised timer_length_error /\
     (InLogicThread cur b = true -> context_allows b = true ->
        let b1 := snd (PyAppTimer cur length call_obj b) in
        let b2 := snd (PyDisplayTimer cur length call_obj b) in
        fst (PyAppTimer cur length call_obj b) = Returned tt /\
        fst (PyDisplayTimer cur length call_obj b) = Returned tt /\
        List.length (app_timers b1 ++ display_timers b1) =
          S (List.length (app_timers b ++ display_timers b)) /\
        List.length (app_timers b2 ++ display_timers b2) =
          S (List.length (app_timers b ++ display_timers b)))).
Proof.
  split; [reflexivity|]. split.
  - intros Hneg.
    destruct (InLogicThread cur b) eqn:Ht.
    + destruct (context_allows b) eqn:Hc.
      * rewrite (PyAppTimer_checked _ _ _ _ Ht Hc),
          (PyDisplayTimer_checked _ _ _ _ Ht Hc), Hneg. simpl.
        repeat split; reflexivity.
      * destruct (PyAppTimer_context_refuses cur length call_obj b Ht Hc)
          as (e1 & E1 & _).
        destruct (PyDisplayTimer_context_refuses cur length call_obj b Ht Hc)
          as (e2 & E2 & _).
        rewrite E1, E2. simpl. repeat split; try reflexivity; discriminate.
    + rewrite (PyAppTimer_wrong_thread _ _ _ _ Ht),
        (PyDisplayTimer_wrong_thread _ _ _ _ Ht). simpl.
      repeat split; try reflexivity; discriminate.
  - intros Hnn. pose proof (nonnegative_not_negative _ Hnn) as Hneg.
    destruct (InLogicThread cur b) eqn:Ht.
    + destruct (context_allows b) eqn:Hc.
      * rewrite (PyAppTimer_checked _ _ _ _ Ht Hc),
          (PyDisplayTimer_checked _ _ _ _ Ht Hc), Hneg. simpl.
        split; [discriminate|]. split; [discriminate|].
        intros _ _. split; [reflexivity|]. split; [reflexivity|].
        rewrite !length_app. simpl. split; lia.
      * destruct (PyAppTimer_context_refuses cur length call_obj b Ht Hc)
          as (e1 & E1 & T1).
        destruct (PyDisplayTimer_context_refuses cur length call_obj b Ht Hc)
          as (e2 & E2 & T2).
        rewrite E1, E2. simpl.
        split; [intros E; inversion E; subst; discriminate|].
        split; [intros E; inversion E; subst; discriminate|].
        discriminate.
    + rewrite (PyAppTimer_wrong_thread _ _ _ _ Ht),
        (PyDisplayTimer_wrong_thread _ _ _ _ Ht). simpl.
      split; [discriminate|]. split; [discriminate|]. discriminate.
Qed.

(** The theorem at work on the logic thread of the idle engine: a delay of
    [-1.0] is refused with the value error, a delay of [1.0] is not. *)
Lemma negative_timer_delay_is_value_error_witness :
  PyAppTimer 1 double_minus_1 3%positive Demo.idle_base =
    (Raised timer_length_error, Demo.idle_base) /\
  PyDisplayTimer 1 double_minus_1 3%positive Demo.idle_base =
    (Raised timer_length_error, Demo.idle_base) /\
  fst (PyAppTimer 1 double_1 3%positive Demo.idle_base) = Returned tt /\
  fst (PyDisplayTimer 1 double_1 3%positive Demo.idle_base) = Returned tt.
Proof.
  pose proof (negative_timer_delay_is_value_error
                1 double_minus_1 3%positive Demo.idle_base) as (_ & Hn & _).
  pose proof (negative_timer_delay_is_value_error
                1 double_1 3%positive Demo.idle_base) as (_ & _ & Hp).
  destruct (Hn eq_refl) as (_ & _ & _ & _ & Hv).
  destruct (Hv eq_refl eq_refl) as [Ha Hd].
  destruct (Hp eq_refl) as (_ & _ & Hs).
  destruct (Hs eq_refl eq_refl) as (Ra & Rd & _).
  split; [exact Ha|]. split; [exact Hd|]. split; [exact Ra | exact Rd].
Defined.

(** C1 (what the code does).  A call that passes the checks of [apptimer]
    registers its timer on the display-time base and leaves the app-time
    base alone, and a call that passes the checks of [displaytimer]
    registers its timer on the app-time base and leaves the display-time
    base alone: each lands on the other operation's time base. *)
Theorem timer_operations_use_each_others_time_base
    (cur : thread_id) (length : double) (call_obj : positive)
    (b : BaseFeatureSet)
    (Hthread : InLogicThread cur b = true)
    (Hctx : context_allows b = true)
    (Hlen : is_negative length = false) :
  let b1 := snd (PyAppTimer cur length call_obj b) in
  let b2 := snd (PyDisplayTimer cur length call_obj b) in
  timers_on AppTime b1 = timers_on AppTime b /\
  timers_on DisplayTime b1 =
    timers_on DisplayTime b ++ [timer_of length call_obj b] /\
  timers_on DisplayTime b2 = timers_on DisplayTime b /\
  timers_on AppTime b2 =
    timers_on AppTime b ++ [timer_of length call_obj b].
Proof.
  intros b1 b2. subst b1 b2.
  rewrite (PyAppTimer_checked _ _ _ _ Hthread Hctx),
    (PyDisplayTimer_checked _ _ _ _ Hthread Hctx), Hlen. simpl.
  repeat split; reflexivity.
Qed.

(** [apptimer(1.0, call)] on the logic thread of the idle engine: the
    app-time base stays empty, the 1000 ms timer sits on the display-time
    base. *)
Lemma timer_operations_use_each_others_time_base_witness :
  timers_on AppTime (snd (PyAppTimer 1 double_1 3%positive Demo.idle_base)) = [] /\
  timers_on DisplayTime (snd (PyAppTimer 1 double_1 3%positive Demo.idle_base)) =
    [MkTimer (Some 1000%Z) false (PythonContextCall_closure 3%positive None)] /\
  timers_on DisplayTime (snd (PyDisplayTimer 1 double_1 3%positive Demo.idle_base)) = [] /\
  timers_on AppTime (snd (PyDisplayTimer 1 double_1 3%positive Demo.idle_base)) =
    [MkTimer (Some 1000%Z) false (PythonContextCall_closure 3%positive None)].
Proof.
  exact (timer_operations_use_each_others_time_base
           1 double_1 3%positive Demo.idle_base eq_refl eq_refl eq_refl).
Defined.

End TimerFacts.

(** ** Weak references: live or gone, nothing else *)

Section WeakRefFacts.
Import Loop Base UIV1.
Variable CurrentThreadName : thread_id -> string.
Variable b : BaseFeatureSet.

Local Abbreviation apply_op := (UIV1.apply_op CurrentThreadName b).
Local Abbreviation apply_ops := (UIV1.apply_ops CurrentThreadName b).

Lemma WeakRef_Get_destroy w o u :
  WeakRef_Get w (Object_destroy o u) = invalidate o (WeakRef_Get w u).
Proof.
  unfold WeakRef_Get, Object_destroy. simpl. rewrite lookup_fmap.
  destruct (weak_refs u !! w) as [t|]; simpl; [reflexivity|].
  unfold invalidate. case_decide; reflexivity.
Qed.

Lemma invalidate_Some o t o' :
  invalidate o t = Some o' -> t = Some o' /\ o' <> o.
Proof.
  unfold invalidate. case_decide as E; [discriminate|].
  intros ->. split; [reflexivity|]. congruence.
Qed.

Lemma Create_state cur widget u :
  snd (Create CurrentThreadName cur b widget u) =
  if InLogicThread cur b
  then MkUI (widgets u) (<[next_weak_ref u := widget]> (weak_refs u))
            (Pos.succ (next_weak_ref u)) (ui_log u)
  else u.
Proof.
  unfold Create, tp_new. destruct (InLogicThread cur b); simpl; [|reflexivity].
  unfold WeakRef_assign. simpl. rewrite insert_insert_eq. reflexivity.
Qed.

Lemma no_dangling_destroy o u : no_dangling u -> no_dangling (Object_destroy o u).
Proof.
  intros Hnd w o' Hg. rewrite WeakRef_Get_destroy in Hg.
  apply invalidate_Some in Hg as [Hg Hne]. simpl.
  rewrite lookup_delete_ne by congruence. eapply Hnd; eassumption.
Qed.

Lemma cells_destroy o u :
  cells_below_next u -> cells_below_next (Object_destroy o u).
Proof.
  intros Hc w. simpl. rewrite lookup_fmap, fmap_is_Some. apply Hc.
Qed.

Lemma no_dangling_Create cur widget u :
  no_dangling u ->
  (forall o, widget = Some o -> is_Some (widgets u !! o)) ->
  no_dangling (snd (Create CurrentThreadName cur b widget u)).
Proof.
  intros Hnd Hw. rewrite Create_state.
  destruct (InLogicThread cur b); [|exact Hnd].
  intros w o'. unfold WeakRef_Get. simpl.
  destruct (decide (next_weak_ref u = w)) as [->|Hne].
  - rewrite lookup_insert_eq. intros E. apply Hw. exact E.
  - rewrite lookup_insert_ne by done. apply Hnd.
Qed.

Lemma cells_Create cur widget u :
  cells_below_next u ->
  cells_below_next (snd (Create CurrentThreadName cur b widget u)).
Proof.
  intros Hc. rewrite Create_state.
  destruct (InLogicThread cur b); [|exact Hc].
  intros w. simpl.
  destruct (decide (next_weak_ref u = w)) as [<-|Hne].
  - intros _. lia.
  - rewrite lookup_insert_ne by done. intros Hs. specialize (Hc w Hs). lia.
Qed.

Lemma apply_op_no_dangling u op : no_dangling u -> no_dangling (apply_op u op).
Proof.
  intros Hnd. destruct op as [o wd|o|cur widget|self ign]; simpl.
  - destruct (widgets u !! o) eqn:Eo; [exact Hnd|].
    intros w o' Hg. simpl.
    destruct (decide (o = o')) as [->|Hne].
    + rewrite lookup_insert_eq. eauto.
    + rewrite lookup_insert_ne by done. eapply Hnd. exact Hg.
  - destruct (widgets u !! o); [|exact Hnd]. apply no_dangling_destroy, Hnd.
  - destruct widget as [o|].
    + destruct (widgets u !! o) eqn:Eo; [|exact Hnd].
      apply no_dangling_Create; [exact Hnd|].
      intros o' E. inversion E; subst. rewrite Eo. eauto.
    + apply no_dangling_Create; [exact Hnd|]. discriminate.
  - unfold Delete. destruct (WeakRef_Get (widget_ self) u) as [w|].
    + destruct (widgets u !! w) as [wd|]; [|exact Hnd].
      destruct (has_parent_widget wd); simpl.
      * apply no_dangling_destroy, Hnd.
      * exact Hnd.
    + destruct (negb ign); exact Hnd.
Qed.

Lemma apply_op_cells u op : cells_below_next u -> cells_below_next (apply_op u op).
Proof.
  intros Hc. destruct op as [o wd|o|cur widget|self ign]; simpl.
  - destruct (widgets u !! o); exact Hc.
  - destruct (widgets u !! o); [|exact Hc]. apply cells_destroy, Hc.
  - destruct widget as [o|].
    + destruct (widgets u !! o); [|exact Hc]. apply cells_Create, Hc.
    + apply cells_Create, Hc.
  - unfold Delete. destruct (WeakRef_Get (widget_ self) u) as [w|].
    + destruct (widgets u !! w) as [wd|]; [|exact Hc].
      destruct (has_parent_widget wd); simpl.
      * apply cells_destroy, Hc.
      * exact Hc.
    + destruct (negb ign); exact Hc.
Qed.

Lemma gone_destroy w o u : gone w u -> gone w (Object_destroy o u).
Proof.
  unfold gone. intros Hg. simpl. rewrite lookup_fmap, Hg. simpl.
  unfold invalidate. case_decide; [discriminate | reflexivity].
Qed.

Lemma gone_Create w cur widget u :
  cells_below_next u -> gone w u ->
  gone w (snd (Create CurrentThreadName cur b widget u)).
Proof.
  unfold gone. intros Hc Hg. rewrite Create_state.
  destruct (InLogicThread cur b); [|exact Hg]. simpl.
  assert (w < next_weak_ref u)%positive as Hlt by (apply Hc; rewrite Hg; eauto).
  rewrite lookup_insert_ne by lia. exact Hg.
Qed.

Lemma apply_op_gone w u op :
  cells_below_next u -> gone w u -> gone w (apply_op u op).
Proof.
  intros Hc Hg. destruct op as [o wd|o|cur widget|self ign]; simpl.
  - destruct (widgets u !! o); exact Hg.
  - destruct (widgets u !! o); [|exact Hg]. apply gone_destroy, Hg.
  - destruct widget as [o|].
    + destruct (widgets u !! o); [|exact Hg]. apply gone_Create; assumption.
    + apply gone_Create; assumption.
  - unfold Delete. destruct (WeakRef_Get (widget_ self) u) as [w'|].
    + destruct (widgets u !! w') as [wd|]; [|exact Hg].
      destruct (has_parent_widget wd); simpl.
      * apply gone_destroy, Hg.
      * exact Hg.
    + destruct (negb ign); exact Hg.
Qed.

Lemma apply_ops_inv u ops :
  no_dangling u -> cells_below_next u ->
  no_dangling (apply_ops u ops) /\ cells_below_next (apply_ops u ops).
Proof.
  revert u. induction ops as [|op ops IH]; intros u Hnd Hc; simpl; [auto|].
  apply IH; [apply apply_op_no_dangling | apply apply_op_cells]; assumption.
Qed.

Lemma apply_ops_gone w u ops :
  cells_below_next u -> gone w u -> gone w (apply_ops u ops).
Proof.
  revert u. induction ops as [|op ops IH]; intros u Hc Hg; simpl; [auto|].
  apply IH; [apply apply_op_cells | apply apply_op_gone]; assumption.
Qed.

Lemma empty_ui_inv : no_dangling empty_ui /\ cells_below_next empty_ui.
Proof.
  split.
  - intros w o. unfold WeakRef_Get. simpl. rewrite lookup_empty. discriminate.
  - intros w. simpl. rewrite lookup_empty. intros [? ?]. discriminate.
Qed.

Lemma gone_Get w u : gone w u -> WeakRef_Get w u = None.
Proof. unfold gone, WeakRef_Get. intros ->. reflexivity. Qed.

Lemma reachable_no_use_after_free u (self : PythonClassWidget) :
  no_dangling u ->
  is_fatal (GetWidgetType self u) = false /\
  is_fatal (Activate self u) = false /\
  is_fatal (fst (Delete self true u)) = false /\
  is_fatal (fst (Delete self false u)) = false.
Proof.
  intros Hnd. unfold GetWidgetType, Activate, Delete.
  destruct (WeakRef_Get (widget_ self) u) as [o|] eqn:Eg.
  - destruct (Hnd _ _ Eg) as [wd Hwd]. rewrite Hwd.
    destruct (has_parent_widget wd); repeat split; reflexivity.
  - repeat split; reflexivity.
Qed.

(** C2.  In every state the native side can reach, a weak reference
    resolves to nothing or to a widget that is live, and no handle method
    runs into a destroyed widget.  While a weak reference [w] resolves to a
    widget [o], [o] is live and the handle reports it.  Once [o] is
    destroyed, and whatever happens afterwards (a new widget at the same
    address included), [w] resolves to null: [exists()] is false,
    [GetWidget] raises "Invalid widget", the methods raise the
    widget-not-found error, and [delete()] raises it or, when told to
    ignore a missing widget, does nothing. *)
Theorem weak_ref_resolves_live_or_gone
    (ops ops' : list Op) (w o : positive) :
  let u := apply_ops empty_ui ops in
  no_dangling u /\
  (forall self : PythonClassWidget,
     is_fatal (GetWidgetType self u) = false /\
     is_fatal (Activate self u) = false) /\
  (WeakRef_Get w u = Some o ->
     is_Some (widgets u !! o) /\
     GetWidget (MkPyWidget w) u = Returned o /\
     Exists (MkPyWidget w) u = Returned true /\
     let u' := apply_ops (Object_destroy o u) ops' in
     no_dangling u' /\
     WeakRef_Get w u' = None /\
     Exists (MkPyWidget w) u' = Returned false /\
     GetWidget (MkPyWidget w) u' = Raised (Exception_msg "Invalid widget") /\
     GetWidgetType (MkPyWidget w) u' = Raised (Exception_type kWidgetNotFound) /\
     Activate (MkPyWidget w) u' = Raised (Exception_type kWidgetNotFound) /\
     Delete (MkPyWidget w) false u' =
       (Raised (Exception_type kWidgetNotFound), u') /\
     Delete (MkPyWidget w) true u' = (Returned tt, u')).
Proof.
  intros u.
  destruct empty_ui_inv as [Hnd0 Hc0].
  destruct (apply_ops_inv empty_ui ops Hnd0 Hc0) as [Hnd Hc]. fold u in Hnd, Hc.
  split; [exact Hnd|]. split.
  - intros self.
    destruct (reachable_no_use_after_free u self Hnd) as (H1 & H2 & _).
    split; assumption.
  - intros Hg. split; [eapply Hnd; exact Hg|].
    split; [unfold GetWidget; simpl; rewrite Hg; reflexivity|].
    split; [unfold Exists; simpl; rewrite Hg; reflexivity|].
    intros u'.
    assert (gone w (Object_destroy o u)) as Hgone.
    { unfold gone. simpl. rewrite lookup_fmap.
      unfold WeakRef_Get in Hg.
      destruct (weak_refs u !! w) as [t|]; [|discriminate]. subst t. simpl.
      unfold invalidate. case_decide; [reflexivity | congruence]. }
    destruct (apply_ops_inv (Object_destroy o u) ops'
                (no_dangling_destroy o u Hnd) (cells_destroy o u Hc))
      as [Hnd' _].
    pose proof (apply_ops_gone w (Object_destroy o u) ops'
                  (cells_destroy o u Hc) Hgone) as Hg'.
    fold u' in Hg', Hnd'. apply gone_Get in Hg'.
    split; [exact Hnd'|]. split; [exact Hg'|].
    unfold Exists, GetWidget, GetWidgetType, Activate, Delete. simpl.
    rewrite Hg'. repeat split; reflexivity.
Qed.

(** C9 (amended).  Building a Widget handle from a thread that is not the
    logic thread fails at once with an ordinary exception: [tp_new] raises
    its thread error and [Create] raises "babase.Widget creation failed";
    no handle is returned, the native state is unchanged, and the failure
    is not a process-level stop. *)
Theorem widget_handle_wrong_thread_raises
    (cur : thread_id) (widget : option positive) (u : UIState)
    (Hthread : InLogicThread cur b = false) :
  tp_new CurrentThreadName cur b u =
    (Raised (tp_new_error CurrentThreadName cur), u) /\
  Create CurrentThreadName cur b widget u =
    (Raised (Exception_msg "babase.Widget creation failed"), u) /\
  is_fatal (fst (tp_new CurrentThreadName cur b u)) = false /\
  is_returned (fst (tp_new CurrentThreadName cur b u)) = false /\
  is_fatal (fst (Create CurrentThreadName cur b widget u)) = false /\
  is_returned (fst (Create CurrentThreadName cur b widget u)) = false.
Proof.
  unfold Create, tp_new. rewrite Hthread. simpl. repeat split; reflexivity.
Qed.

End WeakRefFacts.

(** The theorem at work: a button is created at address 5 and handed to a
    handle (weak reference cell 1); the button is destroyed and another
    widget is created at address 5; the handle stays gone. *)
Lemma weak_ref_resolves_live_or_gone_witness :
  UIV1.WeakRef_Get 1
    (UIV1.apply_ops Demo.thread_name Demo.idle_base UIV1.empty_ui
       [UIV1.OpNewWidget 5 Demo.button; UIV1.OpCreate 1 (Some 5%positive)])
    = Some 5%positive /\
  UIV1.WeakRef_Get 1
    (UIV1.apply_ops Demo.thread_name Demo.idle_base
       (UIV1.Object_destroy 5
          (UIV1.apply_ops Demo.thread_name Demo.idle_base UIV1.empty_ui
             [UIV1.OpNewWidget 5 Demo.button; UIV1.OpCreate 1 (Some 5%positive)]))
       [UIV1.OpNewWidget 5 Demo.button])
    = None.
Proof.
  assert (UIV1.WeakRef_Get 1
            (UIV1.apply_ops Demo.thread_name Demo.idle_base UIV1.empty_ui
               [UIV1.OpNewWidget 5 Demo.button; UIV1.OpCreate 1 (Some 5%positive)])
          = Some 5%positive) as Hg by reflexivity.
  split; [exact Hg|].
  destruct (weak_ref_resolves_live_or_gone Demo.thread_name Demo.idle_base
              [UIV1.OpNewWidget 5 Demo.button; UIV1.OpCreate 1 (Some 5%positive)]
              [UIV1.OpNewWidget 5 Demo.button] 1 5) as (_ & _ & H).
  destruct (H Hg) as (_ & _ & _ & _ & Hgone & _).
  exact Hgone.
Defined.

(** C9 as stated fails: a handle built from thread 2, which is not the logic
    thread, ends in a raised exception, not in a process-level stop. *)
Lemma widget_handle_wrong_thread_is_not_fatal :
  ~ (forall (cur : Loop.thread_id) (b : Base.BaseFeatureSet) (u : UIV1.UIState),
       Base.InLogicThread cur b = false ->
       is_fatal (fst (UIV1.tp_new Demo.thread_name cur b u)) = true).
Proof.
  intros H.
  specialize (H 2 Demo.idle_base UIV1.empty_ui eq_refl).
  discriminate H.
Qed.

(** The amended statement at work: thread 2 asks for a handle. *)
Lemma widget_handle_wrong_thread_raises_witness :
  Base.InLogicThread 2 Demo.idle_base = false /\
  UIV1.tp_new Demo.thread_name 2 Demo.idle_base UIV1.empty_ui =
    (Raised (UIV1.tp_new_error Demo.thread_name 2), UIV1.empty_ui) /\
  is_fatal (fst (UIV1.tp_new Demo.thread_name 2 Demo.idle_base UIV1.empty_ui)) = false.
Proof.
  split; [reflexivity|].
  destruct (widget_handle_wrong_thread_raises Demo.thread_name Demo.idle_base
              2 None UIV1.empty_ui eq_refl) as (E & _ & F & _).
  split; [exact E | exact F].
Defined.

(** ** The scenarios of the spec, run on the idle engine *)

(** A call pushed with [DoPushObjCall] from context 10 runs under the empty
    context. *)
Example pushed_obj_call_runs_without_context :
  Base.calls_run
    (Base.dispatch Demo.py_keeps 1 (snd (Base.DoPushObjCall 4 Demo.base_in10)))
  = [Base.MkCallRecord (inr 4) None].
Proof. reflexivity. Qed.

(** A context-sensitive call is submitted on the logic thread while the
    ambient context is context 10; before it runs the ambient context
    becomes context 20; the callable sees context 10, and the ambient
    context is context 20 again afterwards. *)
Example context_call_sees_captured_context :
  let submitted :=
    snd (Base.PyPushCall 1 3%positive false false false false Demo.base_in10) in
  let ran :=
    Base.dispatch_one Demo.py_keeps (Base.set_context_ref Demo.ctx20 submitted) in
  Base.calls_run ran = [Base.MkCallRecord (inl 3%positive) Demo.ctx10] /\
  Base.context_ref ran = Demo.ctx20.
Proof. split; reflexivity. Qed.

(** Releasing an empty wrapper twice changes nothing either time. *)
Example release_empty_twice (h : gmap positive nat) :
  PyRef.Release PyRef.unreferenced h = (PyRef.unreferenced, h) /\
  PyRef.Release (fst (PyRef.Release PyRef.unreferenced h))
                (snd (PyRef.Release PyRef.unreferenced h))
    = (PyRef.unreferenced, h).
Proof. split; reflexivity. Qed.


(* ===================================================================== *)
(** * Part III: further properties of the code                            *)
(* ===================================================================== *)

Local Set Warnings "-clear-no-such-hyp".

(** ** PythonRef: copies compare equal, hand-over moves the reference *)

Section PythonRefMore.
Import PyRef.

(** X1.  Copy-assignment and copy-construction never fail, whatever the two
    wrappers hold, and the copy compares equal to its source: both reference
    the same object, or both are unreferenced. *)
Theorem copy_compares_equal_to_source (a b : PythonRef) (h : gmap positive nat) :
  (exists a' h', assign a b h = Returned (a', h')
                 /\ eqb a' b = true /\ Exists a' = Exists b) /\
  (exists c h', copy_ctor b h = Returned (c, h')
                /\ eqb c b = true /\ Exists c = Exists b).
Proof.
  assert (forall x, exists a' h', assign x b h = Returned (a', h')
                                  /\ eqb a' b = true /\ Exists a' = Exists b) as H.
  { intros x. unfold assign, Exists, Get, eqb, Release.
    destruct (obj_ b) as [o|] eqn:Hb; simpl.
    - do 2 eexists. split; [reflexivity|]. simpl.
      split; [apply bool_decide_eq_true; unfold Get; simpl; congruence | reflexivity].
    - destruct (obj_ x) as [p|] eqn:Hx; do 2 eexists;
        (split; [reflexivity|]); simpl; rewrite ?Hx;
        (split; [apply bool_decide_eq_true; unfold Get; simpl; congruence
                | reflexivity]). }
  split; [apply H | apply (H unreferenced)].
Qed.

(** X2.  [HandOver] empties the wrapper and returns the pointer it held,
    without touching any reference count: the emptied wrapper can no longer
    be dereferenced and releasing it changes nothing, and stealing the
    returned pointer back gives the original wrapper and the original
    heap. *)
Theorem hand_over_moves_the_reference (r : PythonRef) (h : gmap positive nat)
    (Hheld : Exists r = true) :
  Get (fst (HandOver r)) = None /\
  snd (HandOver r) = Get r /\
  is_raised (deref (fst (HandOver r))) = true /\
  Release (fst (HandOver r)) h = (fst (HandOver r), h) /\
  Steal (snd (HandOver r)) (fst (HandOver r)) h = Returned (r, h).
Proof.
  destruct r as [[o|]]; [|discriminate]. repeat split; reflexivity.
Qed.

Lemma hand_over_moves_the_reference_witness :
  Steal (snd (HandOver (MkPythonRef (Some 7%positive))))
        (fst (HandOver (MkPythonRef (Some 7%positive))))
        (<[7%positive := 1]> ∅)
  = Returned (MkPythonRef (Some 7%positive), <[7%positive := 1]> ∅).
Proof.
  exact (proj2 (proj2 (proj2 (proj2
           (hand_over_moves_the_reference (MkPythonRef (Some 7%positive))
              (<[7%positive := 1]> ∅) eq_refl))))).
Defined.

End PythonRefMore.

(** ** [pushcall]: the raw and the other-thread modes *)

Section PushCallMore.
Import Loop Base.
Variable py_leaves : positive + nat -> ContextRef -> ContextRef.

Local Abbreviation exec := (Base.exec py_leaves).
Local Abbreviation dispatch_one := (Base.dispatch_one py_leaves).

Lemma PyPushCall_raw cur call_obj fot suppress use_fg b l :
  event_loop b = Some l ->
  PyPushCall cur call_obj fot suppress use_fg true b =
  (Returned tt,
   MkBase (Some (PushCall (raw_closure call_obj) l))
          (context_ref b) (foreground_context b) (app_timers b)
          (display_timers b) (PyRef.Py_INCREF call_obj (py_heap b))
          (calls_run b) (log_ b)).
Proof.
  intros El. destruct b as [el cr fg at_ dt ph cl lg]. simpl in El. subst el.
  reflexivity.
Qed.

Lemma PyPushCall_other cur call_obj suppress use_fg b l :
  event_loop b = Some l ->
  PyPushCall cur call_obj true suppress use_fg false b =
  (Returned tt,
   MkBase (Some (PushCall (other_thread_closure call_obj use_fg) l))
          (context_ref b) (foreground_context b) (app_timers b)
          (display_timers b) (PyRef.Py_INCREF call_obj (py_heap b))
          (calls_run b)
          (if negb suppress && InLogicThread cur b
           then log_ b ++ [pushcall_warning] else log_ b)).
Proof.
  intros El. destruct b as [el cr fg at_ dt ph cl lg]. simpl in El. subst el.
  unfold PyPushCall, bind, get, modify, logic_PushCall, ret, InLogicThread.
  simpl. destruct (negb suppress && ThreadIsCurrent cur l); reflexivity.
Qed.

(** X3.  A call queued in raw or other-thread mode keeps the callable alive
    and leaks nothing: while the call waits in the queue the callable's
    reference count is one higher than before, once the logic thread has run
    the call it is back to what it was, and the count of no other object
    changes. *)
Theorem pushcall_reference_is_taken_and_given_back
    (cur : thread_id) (call_obj other : positive) (fot suppress use_fg raw : bool)
    (b : BaseFeatureSet) (l : EventLoop Stmt)
    (Hloop : event_loop b = Some l) (Hidle : runnables_ l = [])
    (Hmode : raw || fot = true)
    (Hlive : 0 < PyRef.refcount call_obj (py_heap b))
    (Hother : other <> call_obj) :
  let queued := snd (PyPushCall cur call_obj fot suppress use_fg raw b) in
  let ran := dispatch_one queued in
  PyRef.refcount call_obj (py_heap queued) = S (PyRef.refcount call_obj (py_heap b)) /\
  PyRef.refcount call_obj (py_heap ran) = PyRef.refcount call_obj (py_heap b) /\
  PyRef.refcount other (py_heap queued) = PyRef.refcount other (py_heap b) /\
  PyRef.refcount other (py_heap ran) = PyRef.refcount other (py_heap b) /\
  calls_run ran <> calls_run b.
Proof.
  intros queued ran. subst ran queued.
  pose proof (refcount_pos_is_Some _ _ Hlive) as Hs.
  destruct raw.
  - rewrite (PyPushCall_raw _ _ _ _ _ _ _ Hloop). simpl.
    unfold Base.dispatch_one, PushCall, pop. simpl. rewrite Hidle. simpl.
    rewrite refcount_DECREF_eq, !refcount_INCREF_eq by done.
    rewrite refcount_DECREF_ne, !refcount_INCREF_ne by done.
    repeat split; try reflexivity.
    intros E. apply (f_equal List.length) in E. rewrite length_app in E.
    simpl in E. lia.
  - simpl in Hmode. subst fot.
    rewrite (PyPushCall_other _ _ _ _ _ _ Hloop). simpl.
    unfold Base.dispatch_one, PushCall, pop. simpl. rewrite Hidle. simpl.
    rewrite refcount_DECREF_eq, !refcount_INCREF_eq by done.
    rewrite refcount_DECREF_ne, !refcount_INCREF_ne by done.
    repeat split; try reflexivity.
    intros E. apply (f_equal List.length) in E. rewrite length_app in E.
    simpl in E. lia.
Qed.

End PushCallMore.

Lemma pushcall_reference_is_taken_and_given_back_witness :
  PyRef.refcount 3
    (Base.py_heap (snd (Base.PyPushCall 2 3%positive true false true false
                          Demo.idle_base))) = 2 /\
  PyRef.refcount 3
    (Base.py_heap (Base.dispatch_one Demo.py_keeps
       (snd (Base.PyPushCall 2 3%positive true false true false
               Demo.idle_base)))) = 1.
Proof.
  assert (0 < PyRef.refcount 3 (Base.py_heap Demo.idle_base)) as Hlive
    by (vm_compute; lia).
  assert (4%positive <> 3%positive) as Hne by discriminate.
  pose proof (pushcall_reference_is_taken_and_given_back Demo.py_keeps
                2 3%positive 4%positive true false true false Demo.idle_base
                (Loop.MkEventLoop 1 []) eq_refl eq_refl eq_refl Hlive Hne)
    as (H1 & H2 & _).
  split; [exact H1 | exact H2].
Defined.

(** ** One-shot timers: the order of the checks, the stored length *)

Section TimerMore.
Import Loop Base Timers.

(** X4.  The checks of [apptimer] and [displaytimer] run in a fixed order
    and each refusal leaves the state untouched: a call from a thread that
    is not the logic thread is refused with the precondition error whatever
    the context and the delay; on the logic thread, under an ambient context
    that does not allow default timer types, the call is refused with that
    context's error (a runtime error, not the value error) whatever the
    delay. *)
Theorem timer_checks_thread_then_context_then_delay
    (cur : thread_id) (length : double) (call_obj : positive)
    (b : BaseFeatureSet) :
  (InLogicThread cur b = false ->
     PyAppTimer cur length call_obj b =
       (Raised (Exception_msg "Precondition failed: g_base->InLogicThread()"), b) /\
     PyDisplayTimer cur length call_obj b =
       (Raised (Exception_msg "Precondition failed: g_base->InLogicThread()"), b)) /\
  (InLogicThread cur b = true -> context_allows b = false ->
     exists e1 e2,
       PyAppTimer cur length call_obj b = (Raised e1, b) /\
       PyDisplayTimer cur length call_obj b = (Raised e2, b) /\
       python_type_ e1 = kRuntime /\ python_type_ e2 = kRuntime /\
       e1 <> timer_length_error /\ e2 <> timer_length_error).
Proof.
  split.
  - intros Ht. split;
      [apply PyAppTimer_wrong_thread | apply PyDisplayTimer_wrong_thread];
      exact Ht.
  - intros Ht Hc.
    destruct (PyAppTimer_context_refuses cur length call_obj b Ht Hc)
      as (e1 & E1 & T1).
    destruct (PyDisplayTimer_context_refuses cur length call_obj b Ht Hc)
      as (e2 & E2 & T2).
    exists e1, e2. repeat split; try assumption.
    + intros ->. discriminate T1.
    + intros ->. discriminate T2.
Qed.

Lemma cast_of_positive_is_not_negative m e z :
  static_cast_millisecs (S754_finite false m e) = Some z -> (0 <= z)%Z.
Proof.
  unfold static_cast_millisecs.
  set (mag := match e with
              | Z0 => Zpos m
              | Zpos p => (Zpos m * 2 ^ Zpos p)%Z
              | Zneg p => (Zpos m / 2 ^ Zpos p)%Z
              end).
  assert (0 <= mag)%Z.
  { subst mag. destruct e as [|p|p].
    - lia.
    - apply Z.mul_nonneg_nonneg; [lia|]. apply Z.pow_nonneg. lia.
    - apply Z.div_pos; [lia|]. apply Z.pow_pos_nonneg; lia. }
  cbv zeta. destruct (_ && _); intros E; inversion E; subst; assumption.
Qed.

Lemma millisecs_of_delay_not_negative (d : double) (z : Z) :
  is_negative d = false ->
  static_cast_millisecs (double_mul d double_1000) = Some z -> (0 <= z)%Z.
Proof.
  intros Hn. destruct d as [s|s| |s m e]; unfold double_mul, SFmul, double_1000.
  - simpl. intros E; inversion E; lia.
  - simpl. discriminate.
  - simpl. discriminate.
  - destruct s; [discriminate|]. cbv [xorb].
    unfold binary_round_aux.
    destruct (shr_fexp _ _ _ _ _) as [mrs' e'].
    destruct (shr_fexp _ _ _ _ _) as [mrs'' e''].
    destruct (shr_m mrs'') as [|p|p].
    + simpl. intros E; inversion E; lia.
    + destruct (_ <=? _)%Z;
        [apply cast_of_positive_is_not_negative | simpl; discriminate].
    + simpl. discriminate.
Qed.

(** X5.  A timer that [apptimer] or [displaytimer] registers never has a
    negative length: whenever the call is accepted, the millisecond length
    stored with the new timer, if the conversion from seconds is defined at
    all, is zero or positive; the timer is one-shot and its runnable carries
    the ambient context of the moment of the call. *)
Theorem registered_timer_length_is_not_negative
    (cur : thread_id) (length : double) (call_obj : positive)
    (b b' : BaseFeatureSet) (t : Timer) (z : Z)
    (Hcall : PyAppTimer cur length call_obj b = (Returned tt, b')
             \/ PyDisplayTimer cur length call_obj b = (Returned tt, b'))
    (Hnew : In t (app_timers b' ++ display_timers b'))
    (Hold : ~ In t (app_timers b ++ display_timers b))
    (Hlen : timer_length t = Some z) :
  (0 <= z)%Z /\ timer_repeat t = false /\
  timer_runnable t = PythonContextCall_closure call_obj (context_ref b).
Proof.
  assert (InLogicThread cur b = true) as Ht.
  { destruct (InLogicThread cur b) eqn:E; [reflexivity|].
    destruct Hcall as [H|H];
      [rewrite (PyAppTimer_wrong_thread _ _ _ _ E) in H
      |rewrite (PyDisplayTimer_wrong_thread _ _ _ _ E) in H]; discriminate. }
  assert (context_allows b = true) as Hc.
  { destruct (context_allows b) eqn:E; [reflexivity|].
    destruct Hcall as [H|H].
    - destruct (PyAppTimer_context_refuses cur length call_obj b Ht E)
        as (e & E1 & _). rewrite E1 in H. discriminate.
    - destruct (PyDisplayTimer_context_refuses cur length call_obj b Ht E)
        as (e & E1 & _). rewrite E1 in H. discriminate. }
  assert (is_negative length = false /\ t = timer_of length call_obj b)
    as [Hneg ->].
  { destruct Hcall as [H|H];
      [rewrite (PyAppTimer_checked _ _ _ _ Ht Hc) in H
      |rewrite (PyDisplayTimer_checked _ _ _ _ Ht Hc) in H];
      destruct (is_negative length); try discriminate;
      inversion H; subst b'; simpl in Hnew;
      (split; [reflexivity|]);
      rewrite !in_app_iff in Hnew; rewrite in_app_iff in Hold; simpl in Hnew;
      intuition congruence. }
  split; [|split; reflexivity].
  eapply millisecs_of_delay_not_negative; [exact Hneg|]. exact Hlen.
Qed.

Lemma registered_timer_length_is_not_negative_witness :
  (0 <= 1000)%Z /\
  timer_runnable (MkTimer (Some 1000%Z) false (PythonContextCall_closure 3 None))
    = PythonContextCall_closure 3 None.
Proof.
  assert (In (MkTimer (Some 1000%Z) false (PythonContextCall_closure 3 None))
             (app_timers (snd (PyAppTimer 1 double_1 3%positive Demo.idle_base)) ++
              display_timers (snd (PyAppTimer 1 double_1 3%positive Demo.idle_base))))
    as Hnew by (left; reflexivity).
  assert (~ In (MkTimer (Some 1000%Z) false (PythonContextCall_closure 3 None))
               (app_timers Demo.idle_base ++ display_timers Demo.idle_base))
    as Hold by (intros []).
  destruct (registered_timer_length_is_not_negative
              1 double_1 3%positive Demo.idle_base
              (snd (PyAppTimer 1 double_1 3%positive Demo.idle_base))
              (MkTimer (Some 1000%Z) false (PythonContextCall_closure 3 None))
              1000%Z (or_introl eq_refl) Hnew Hold eq_refl) as (H1 & _ & H3).
  split; [exact H1 | exact H3].
Defined.

End TimerMore.

Lemma timer_checks_thread_then_context_then_delay_witness :
  Timers.PyAppTimer 2 Timers.double_minus_1 3%positive Demo.idle_base =
    (Raised (Exception_msg "Precondition failed: g_base->InLogicThread()"),
     Demo.idle_base).
Proof.
  exact (proj1 (proj1 (timer_checks_thread_then_context_then_delay
                         2 Timers.double_minus_1 3%positive Demo.idle_base)
                      eq_refl)).
Defined.

(** ** Widget handles: creation and deletion *)

Section WidgetMore.
Import Loop Base UIV1.
Variable CurrentThreadName : thread_id -> string.
Variable b : BaseFeatureSet.

(** X6.  On the logic thread [Create] returns a handle in a new weak
    reference cell that resolves to the widget it was given ([exists()] is
    true, [get_widget_type()] is the widget's type name) or, given null, to
    nothing; no widget is created or destroyed, and every handle that
    existed before resolves to what it resolved to before. *)
Theorem created_handle_resolves_to_its_widget
    (cur : thread_id) (o : positive) (wd : Widget) (u : UIState)
    (Hthread : InLogicThread cur b = true)
    (Hlive : widgets u !! o = Some wd)
    (Hcells : cells_below_next u) :
  exists h u',
    Create CurrentThreadName cur b (Some o) u = (Returned h, u') /\
    weak_refs u !! widget_ h = None /\
    GetWidget h u' = Returned o /\
    Exists h u' = Returned true /\
    GetWidgetType h u' = Returned (GetWidgetTypeName wd) /\
    widgets u' = widgets u /\
    (forall h0, is_Some (weak_refs u !! widget_ h0) ->
                widget_ h0 <> widget_ h /\
                WeakRef_Get (widget_ h0) u' = WeakRef_Get (widget_ h0) u) /\
    (exists h1 u1,
       Create CurrentThreadName cur b None u = (Returned h1, u1) /\
       Exists h1 u1 = Returned false).
Proof.
  unfold Create, tp_new. rewrite Hthread. simpl.
  assert (weak_refs u !! next_weak_ref u = None) as Hfresh.
  { destruct (weak_refs u !! next_weak_ref u) eqn:E; [|reflexivity].
    assert (next_weak_ref u < next_weak_ref u)%positive by (apply Hcells; eauto).
    lia. }
  do 2 eexists. split; [reflexivity|]. simpl.
  split; [exact Hfresh|].
  unfold GetWidget, Exists, GetWidgetType, WeakRef_Get. simpl.
  rewrite !lookup_insert_eq, Hlive.
  split; [reflexivity|]. split; [reflexivity|]. split; [reflexivity|].
  split; [reflexivity|]. split.
  - intros h0 Hs.
    assert (widget_ h0 <> next_weak_ref u) as Hne.
    { intros E. rewrite E, Hfresh in Hs. destruct Hs; discriminate. }
    split; [exact Hne|].
    rewrite insert_insert_eq, lookup_insert_ne by congruence. reflexivity.
  - do 2 eexists. split; [reflexivity|]. simpl. rewrite lookup_insert_eq.
    reflexivity.
Qed.

(** X7.  [delete()] on a handle whose widget is live and has a parent
    destroys the widget: this handle and every other handle to the same
    widget report it gone, handles to other widgets are unaffected, and a
    second [delete()] does nothing (or raises the widget-not-found error
    when asked not to ignore a missing widget).  When the widget has no
    parent nothing is destroyed: the call returns, the widget stays, and an
    error is logged. *)
Theorem delete_destroys_widget_with_parent
    (self : PythonClassWidget) (ign : bool) (o : positive) (wd : Widget)
    (u : UIState)
    (Hres : WeakRef_Get (widget_ self) u = Some o)
    (Hlive : widgets u !! o = Some wd) :
  let u' := snd (Delete self ign u) in
  fst (Delete self ign u) = Returned tt /\
  (has_parent_widget wd = true ->
     widgets u' !! o = None /\
     Exists self u' = Returned false /\
     (forall h, WeakRef_Get (widget_ h) u = Some o -> Exists h u' = Returned false) /\
     (forall h o2, WeakRef_Get (widget_ h) u = Some o2 -> o2 <> o ->
                   WeakRef_Get (widget_ h) u' = Some o2 /\
                   widgets u' !! o2 = widgets u !! o2) /\
     Delete self true u' = (Returned tt, u') /\
     Delete self false u' = (Raised (Exception_type kWidgetNotFound), u')) /\
  (has_parent_widget wd = false ->
     widgets u' = widgets u /\ weak_refs u' = weak_refs u /\
     Exists self u' = Returned true /\
     ui_log u' = ui_log u ++ ["Can't delete widget: no parent."]).
Proof.
  unfold Delete. rewrite Hres, Hlive.
  destruct (has_parent_widget wd) eqn:Hp; simpl.
  - split; [reflexivity|]. split; [|discriminate]. intros _.
    assert (forall h, WeakRef_Get (widget_ h) u = Some o ->
                      WeakRef_Get (widget_ h) (Object_destroy o u) = None) as Hg.
    { intros h Hh. rewrite (WeakRef_Get_destroy (widget_ h) o u), Hh.
      unfold invalidate. case_decide; [reflexivity | congruence]. }
    split; [apply lookup_delete_eq|].
    split; [unfold Exists; rewrite (Hg self Hres); reflexivity|].
    split; [intros h Hh; unfold Exists; rewrite (Hg h Hh); reflexivity|].
    split.
    { intros h o2 Hh Hne. split.
      - rewrite (WeakRef_Get_destroy (widget_ h) o u), Hh.
        unfold invalidate. case_decide; [congruence | reflexivity].
      - apply lookup_delete_ne. congruence. }
    rewrite (Hg self Hres). split; reflexivity.
  - split; [reflexivity|]. split; [discriminate|]. intros _.
    unfold Exists, WeakRef_Get in *. simpl.
    split; [reflexivity|]. split; [reflexivity|].
    destruct (weak_refs u !! widget_ self) as [t|]; [|discriminate].
    subst t. split; reflexivity.
Qed.

End WidgetMore.

Lemma created_handle_resolves_to_its_widget_witness :
  exists h u',
    UIV1.Create Demo.thread_name 1 Demo.idle_base (Some 5%positive)
      (UIV1.Object_new 5 Demo.button UIV1.empty_ui) = (Returned h, u') /\
    UIV1.GetWidget h u' = Returned 5%positive.
Proof.
  assert (UIV1.cells_below_next (UIV1.Object_new 5 Demo.button UIV1.empty_ui))
    as Hc.
  { intros w [x Hx]. simpl in Hx. rewrite lookup_empty in Hx. discriminate. }
  destruct (created_handle_resolves_to_its_widget Demo.thread_name Demo.idle_base
              1 5%positive Demo.button
              (UIV1.Object_new 5 Demo.button UIV1.empty_ui)
              eq_refl eq_refl Hc) as (h & u' & E & _ & G & _).
  exists h, u'. split; [exact E | exact G].
Defined.

Lemma delete_destroys_widget_with_parent_witness :
  UIV1.Exists (UIV1.MkPyWidget 1)
    (snd (UIV1.Delete (UIV1.MkPyWidget 1) true
            (UIV1.apply_ops Demo.thread_name Demo.idle_base UIV1.empty_ui
               [UIV1.OpNewWidget 5 Demo.button; UIV1.OpCreate 1 (Some 5%positive)])))
  = Returned false.
Proof.
  pose proof (delete_destroys_widget_with_parent
                (UIV1.MkPyWidget 1) true 5%positive Demo.button
                (UIV1.apply_ops Demo.thread_name Demo.idle_base UIV1.empty_ui
                   [UIV1.OpNewWidget 5 Demo.button; UIV1.OpCreate 1 (Some 5%positive)])
                eq_refl eq_refl) as (_ & H & _).
  exact (proj1 (proj2 (H eq_refl))).
Defined.

(** ** BasePython: deep links, print-once *)

Section DeepLinkFacts.
Import Loop Base BasePy.
Variable py_leaves : positive + nat -> ContextRef -> ContextRef.

Local Abbreviation RunDeepLink := (BasePy.RunDeepLink py_leaves).

Lemma set_context_ref_back (c : ContextRef) (b : BaseFeatureSet) :
  SetCurrentContext (context_ref b) (SetCurrentContext c b) = b.
Proof. destruct b; reflexivity. Qed.

(** X8.  [RunDeepLink] never changes the logic thread's ambient context,
    whatever happens.  Called from another thread it raises the precondition
    error and does nothing.  On the logic thread, with the deep-link slot
    populated, the callable runs once under the empty context, consuming the
    argument tuple; if the tuple could not be built the invalid-reference
    error is raised, the callable is not run and the state is as before;
    with the slot empty only an error is logged. *)
Theorem deep_link_runs_without_context
    (cur : thread_id) (objs_exists : nat -> bool) (args : PyRef.PyObjectPtr)
    (a : positive) (b : BaseFeatureSet) :
  context_ref (snd (RunDeepLink cur objs_exists args b)) = context_ref b /\
  (InLogicThread cur b = false ->
     RunDeepLink cur objs_exists args b =
       (Raised (Exception_msg "Precondition failed: g_base->InLogicThread()"), b)) /\
  (InLogicThread cur b = true -> objs_exists kDeepLinkCall = false ->
     RunDeepLink cur objs_exists args b =
       (Returned tt, set_log (log_ b ++ ["Error on deep-link call"]) b)) /\
  (InLogicThread cur b = true -> objs_exists kDeepLinkCall = true ->
     RunDeepLink cur objs_exists None b =
       (Raised PyRef.InvalidReferenceError, b) /\
     fst (RunDeepLink cur objs_exists (Some a) b) = Returned tt /\
     calls_run (snd (RunDeepLink cur objs_exists (Some a) b)) =
       calls_run b ++ [MkCallRecord (inr kDeepLinkCall) None] /\
     PyRef.refcount a (py_heap (snd (RunDeepLink cur objs_exists (Some a) b))) =
       Nat.pred (PyRef.refcount a (py_heap b))).
Proof.
  unfold BasePy.RunDeepLink, bind, get, lift, modify.
  destruct (InLogicThread cur b) eqn:Ht; simpl.
  - destruct (objs_exists kDeepLinkCall) eqn:Ho; simpl.
    + split.
      { destruct args; reflexivity. }
      split; [discriminate|]. split; [discriminate|]. intros _ _.
      split; [rewrite set_context_ref_back; reflexivity|].
      split; [reflexivity|]. split; [reflexivity|].
      apply refcount_DECREF_eq.
    + split; [reflexivity|]. split; [discriminate|].
      split; [reflexivity|]. discriminate.
  - split; [reflexivity|]. split; [reflexivity|].
    split; discriminate.
Qed.

End DeepLinkFacts.

Lemma deep_link_runs_without_context_witness :
  Base.calls_run
    (snd (BasePy.RunDeepLink Demo.py_keeps 1 (fun _ => true) (Some 3%positive)
            Demo.base_in10))
  = [Base.MkCallRecord (inr BasePy.kDeepLinkCall) None] /\
  Base.context_ref
    (snd (BasePy.RunDeepLink Demo.py_keeps 1 (fun _ => true) (Some 3%positive)
            Demo.base_in10))
  = Demo.ctx10.
Proof.
  pose proof (deep_link_runs_without_context Demo.py_keeps 1 (fun _ => true)
                (Some 3%positive) 3%positive Demo.base_in10) as (Hc & _ & _ & H).
  destruct (H eq_refl eq_refl) as (_ & _ & Hr & _).
  split; [exact Hr | exact Hc].
Defined.

Section DoOnceFacts.
Import BasePy.

Lemma DoOnce_all_seen (loc : string) (locations : list string) (seen : gset string) :
  loc ∈ seen ->
  answers_for loc locations (fst (DoOnce_all locations seen)) =
  repeat false (occurrences loc locations).
Proof.
  revert seen. induction locations as [|l ls IH]; intros seen Hin; simpl;
    [reflexivity|].
  unfold DoOnce at 1. destruct (decide (l ∈ seen)) as [Hl|Hl].
  - destruct (DoOnce_all ls seen) as [rs seen2] eqn:E. simpl.
    specialize (IH seen Hin). rewrite E in IH. simpl in IH.
    destruct (decide (l = loc)); simpl; rewrite IH; reflexivity.
  - destruct (DoOnce_all ls ({[l]} ∪ seen)) as [rs seen2] eqn:E. simpl.
    assert (loc ∈ {[l]} ∪ seen) as Hin' by set_solver.
    specialize (IH _ Hin'). rewrite E in IH. simpl in IH.
    destruct (decide (l = loc)) as [->|Hne]; [contradiction|]. exact IH.
Qed.

Lemma DoOnce_all_final (locations : list string) (seen : gset string) :
  snd (DoOnce_all locations seen) = list_to_set locations ∪ seen /\
  List.length (fst (DoOnce_all locations seen)) = List.length locations.
Proof.
  revert seen. induction locations as [|l ls IH]; intros seen; simpl.
  - split; [set_solver | reflexivity].
  - unfold DoOnce.
    destruct (decide (l ∈ seen)) as [Hl|Hl].
    + destruct (IH seen) as [H1 H2].
      destruct (DoOnce_all ls seen) as [rs seen2]. simpl in *.
      split; [subst seen2; set_solver | congruence].
    + destruct (IH ({[l]} ∪ seen)) as [H1 H2].
      destruct (DoOnce_all ls ({[l]} ∪ seen)) as [rs seen2]. simpl in *.
      split; [subst seen2; set_solver | congruence].
Qed.

(** X9.  Over any run of [DoOnce] calls, a source location that had not
    been registered gets [true] on its first call and [false] on every later
    one, and a location that had been registered gets [false] every time;
    afterwards exactly the locations registered before and those of the run
    are registered. *)
Theorem do_once_answers_true_once_per_location
    (loc : string) (locations : list string) (seen : gset string) :
  answers_for loc locations (fst (DoOnce_all locations seen)) =
    (if decide (loc ∈ seen) then repeat false (occurrences loc locations)
     else once_then_never (occurrences loc locations)) /\
  snd (DoOnce_all locations seen) = list_to_set locations ∪ seen /\
  List.length (fst (DoOnce_all locations seen)) = List.length locations.
Proof.
  split; [|apply DoOnce_all_final].
  destruct (decide (loc ∈ seen)) as [Hin|Hin]; [apply DoOnce_all_seen, Hin|].
  revert seen Hin. induction locations as [|l ls IH]; intros seen Hin; simpl;
    [reflexivity|].
  unfold DoOnce at 1. destruct (decide (l ∈ seen)) as [Hl|Hl].
  - destruct (DoOnce_all ls seen) as [rs seen2] eqn:E. simpl.
    specialize (IH seen Hin). rewrite E in IH. simpl in IH.
    destruct (decide (l = loc)) as [->|Hne]; [contradiction|]. exact IH.
  - destruct (DoOnce_all ls ({[l]} ∪ seen)) as [rs seen2] eqn:E. simpl.
    destruct (decide (l = loc)) as [->|Hne].
    + simpl. f_equal.
      assert (loc ∈ {[loc]} ∪ seen) as Hin' by set_solver.
      pose proof (DoOnce_all_seen loc ls _ Hin') as H. rewrite E in H.
      exact H.
    + assert (loc ∉ {[l]} ∪ seen) as Hin' by set_solver.
      specialize (IH _ Hin'). rewrite E in IH. exact IH.
Qed.

End DoOnceFacts.

(** ** Starting the app: once, and in order *)

Section AppStartFacts.
Import AppStart.

Lemma StartApp_eq (env : Env) (s : State) :
  StartApp env s =
  if negb (InMainThread env)
  then (Raised (Exception_msg "Precondition failed: g_core->InMainThread()"), s)
  else if called_start_app_ s
  then (Raised (Exception_msg "Precondition failed: !called_start_app_"), s)
  else if negb (baenv_start_ok env)
  then (Fatal "baenv.on_babase_start_app() failed.",
        MkState true (app_running_ s) (called_run_app_to_completion_ s)
                (started s) (logic_calls s)
                (boot_log s ++ ["start-app begin"]) (main_loop_runs s))
  else (Returned tt,
        MkState true true (called_run_app_to_completion_ s)
                (started s ++ start_order env)
                (logic_calls s ++ ["logic->ApplyAppConfig()"])
                (boot_log s ++ ["start-app begin"; "start-app end"])
                (main_loop_runs s)).
Proof.
  destruct env as [im bg sc me ok], s as [c r cr st lc bl ml].
  destruct im, c, ok, bg, sc;
    cbv [RunAppToCompletion StartApp start_order bind lift get ret start BootLog
         modify BA_PRECONDITION OnMainThreadStartApp negb
         InMainThread has_bg_dynamics_server has_stdio_console baenv_start_ok
         ManagesEventLoop
         called_start_app_ app_running_ called_run_app_to_completion_ started
         logic_calls boot_log main_loop_runs];
    repeat rewrite <- app_assoc; reflexivity.
Qed.

Lemma RunAppToCompletion_eq (env : Env) (s : State) :
  RunAppToCompletion env s =
  if negb (InMainThread env)
  then (Raised (Exception_msg "Precondition failed: g_core->InMainThread()"), s)
  else if negb (ManagesEventLoop env)
  then (Raised (Exception_msg "Precondition failed: g_base->app->ManagesEventLoop()"), s)
  else if called_run_app_to_completion_ s
  then (Raised (Exception_msg "Precondition failed: !called_run_app_to_completion_"), s)
  else
    let s1 := MkState (called_start_app_ s) (app_running_ s) true (started s)
                      (logic_calls s) (boot_log s) (main_loop_runs s) in
    if called_start_app_ s
    then (Returned tt,
          MkState true (app_running_ s) true (started s) (logic_calls s)
                  (boot_log s) (S (main_loop_runs s)))
    else match StartApp env s1 with
         | (Returned _, s2) =>
             (Returned tt,
              MkState (called_start_app_ s2) (app_running_ s2)
                      (called_run_app_to_completion_ s2) (started s2)
                      (logic_calls s2) (boot_log s2) (S (main_loop_runs s2)))
         | (Raised e, s2) => (Raised e, s2)
         | (Fatal m, s2) => (Fatal m, s2)
         end.
Proof.
  destruct env as [im bg sc me ok], s as [c r cr st lc bl ml].
  destruct im, me, cr, c, ok, bg, sc;
    cbv [RunAppToCompletion StartApp start_order bind lift get ret start BootLog
         modify BA_PRECONDITION OnMainThreadStartApp negb
         InMainThread has_bg_dynamics_server has_stdio_console baenv_start_ok
         ManagesEventLoop
         called_start_app_ app_running_ called_run_app_to_completion_ started
         logic_calls boot_log main_loop_runs];
    repeat rewrite <- app_assoc; reflexivity.
Qed.

Lemma start_order_NoDup (env : Env) : NoDup (start_order env).
Proof.
  destruct env as [im bg sc me ok]. unfold start_order. simpl.
  destruct bg, sc; simpl;
    repeat (apply NoDup_cons; split; [set_solver|]); apply NoDup_nil; exact I.
Qed.

Lemma start_inv_initial : start_inv initial.
Proof.
  split; simpl; try lia; try discriminate; auto.
  apply NoDup_nil. exact I.
Qed.

Lemma start_inv_StartApp (env : Env) (s : State) :
  start_inv s -> start_inv (snd (StartApp env s)).
Proof.
  intros Hinv. pose proof Hinv as [Hn Hp Hr Hu Hl Hf]. rewrite StartApp_eq.
  destruct (InMainThread env); simpl; [|exact Hinv].
  destruct (called_start_app_ s) eqn:Ec; simpl; [exact Hinv|].
  destruct (Hu eq_refl) as [Hs Hc].
  destruct (baenv_start_ok env); simpl.
  - split; simpl.
    + rewrite Hs. simpl. apply start_order_NoDup.
    + rewrite Hc. simpl. lia.
    + intros _. rewrite Hs, Hc. simpl. eauto.
    + discriminate.
    + exact Hl.
    + exact Hf.
  - split; simpl; try assumption.
    + intros Hrun. destruct (Hr Hrun) as [E _]. congruence.
    + discriminate.
Qed.

Lemma start_inv_RunAppToCompletion (env : Env) (s : State) :
  start_inv s -> start_inv (snd (RunAppToCompletion env s)).
Proof.
  intros Hinv. pose proof Hinv as [Hn Hp Hr Hu Hl Hf].
  rewrite RunAppToCompletion_eq.
  destruct (InMainThread env) eqn:Eim; simpl; [|exact Hinv].
  destruct (ManagesEventLoop env); simpl; [|exact Hinv].
  destruct (called_run_app_to_completion_ s) eqn:Ecr; simpl; [exact Hinv|].
  pose proof (Hf eq_refl) as Hz.
  destruct (called_start_app_ s) eqn:Ec; simpl.
  - split; simpl; try assumption; try lia; try discriminate.
  - destruct (Hu eq_refl) as [Hs Hc].
    rewrite StartApp_eq. simpl. rewrite Eim. simpl.
    destruct (baenv_start_ok env); simpl.
    + split; simpl.
      * rewrite Hs. simpl. apply start_order_NoDup.
      * rewrite Hc. simpl. lia.
      * intros _. rewrite Hs, Hc. simpl. eauto.
      * discriminate.
      * lia.
      * discriminate.
    + split; simpl; try assumption; try lia; try discriminate.
      intros Hrun. destruct (Hr Hrun) as [E _]. congruence.
Qed.

Lemma start_inv_do_calls (cs : list Call) (s : State) :
  start_inv s -> start_inv (do_calls cs s).
Proof.
  revert s. induction cs as [|c cs IH]; intros s Hinv; simpl; [exact Hinv|].
  assert (start_inv (snd (do_call c s))) as Hstep.
  { destruct c; simpl;
      [apply start_inv_StartApp | apply start_inv_RunAppToCompletion]; exact Hinv. }
  destruct (do_call c s) as [[[]|e|m] s']; simpl in Hstep; auto.
Qed.

(** X10.  However the embedder mixes calls to [StartApp] and
    [RunAppToCompletion], from whatever threads: no subsystem is told to
    start twice, at most one apply-config call is pushed to the logic loop,
    the main event loop is entered at most once, and whenever the app is
    marked running every subsystem of the start order has been started, in
    that order.  Once [StartApp] has been called, calling it again from the
    main thread raises "Precondition failed: !called_start_app_" and changes
    nothing. *)
Theorem app_is_started_at_most_once
    (cs : list Call) (env : Env) (s : State) :
  let final := do_calls cs initial in
  NoDup (started final) /\
  List.length (logic_calls final) <= 1 /\
  main_loop_runs final <= 1 /\
  (app_running_ final = true ->
     called_start_app_ final = true /\
     logic_calls final = ["logic->ApplyAppConfig()"] /\
     exists env0, started final = start_order env0) /\
  (called_start_app_ s = true -> InMainThread env = true ->
     StartApp env s =
       (Raised (Exception_msg "Precondition failed: !called_start_app_"), s)).
Proof.
  intros final.
  destruct (start_inv_do_calls cs initial start_inv_initial)
    as [Hn Hp Hr Hu Hl Hf]. fold final in Hn, Hp, Hr, Hu, Hl, Hf.
  repeat split; try assumption.
  - apply Hr; assumption.
  - apply Hr; assumption.
  - apply Hr; assumption.
  - intros Hc Him. rewrite StartApp_eq, Him, Hc. reflexivity.
Qed.

End AppStartFacts.

Lemma app_is_started_at_most_once_witness :
  AppStart.StartApp Samples.env_main
    (snd (AppStart.StartApp Samples.env_main AppStart.initial)) =
  (Raised (Exception_msg "Precondition failed: !called_start_app_"),
   snd (AppStart.StartApp Samples.env_main AppStart.initial)).
Proof.
  exact (proj2 (proj2 (proj2 (proj2
           (app_is_started_at_most_once [] Samples.env_main
              (snd (AppStart.StartApp Samples.env_main AppStart.initial))))))
           eq_refl eq_refl).
Defined.

(** ** Early cloud logs: the budget of direct sends *)

Section CloudLogFacts.
Import Loop Base CloudLog.





End CloudLogFacts.


(** ** The app instance id *)

Section InstanceUUIDFacts.
Import InstanceUUID.

Lemma GetAppInstanceUUID_have (env : Env) (s : State) :
  have_app_instance_uuid s = true ->
  GetAppInstanceUUID env s = (Returned (app_instance_uuid s), s).
Proof. intros H. unfold GetAppInstanceUUID. rewrite H. reflexivity. Qed.

Lemma finish_fixes (env : Env) (s1 : State) :
  exists s', finish env s1 = (Returned (app_instance_uuid s'), s')
             /\ have_app_instance_uuid s' = true.
Proof.
  exists (snd (finish env s1)). unfold finish.
  destruct (have_app_instance_uuid s1) eqn:Eh;
    cbn [negb app_instance_uuid have_app_instance_uuid warnings fst snd].
  - destruct (100 <=? String.length (app_instance_uuid s1))%nat;
      cbn [negb app_instance_uuid have_app_instance_uuid warnings fst snd];
      (split; [reflexivity|]); first [assumption | reflexivity].
  - destruct (100 <=? String.length (to_string (rand_value env)))%nat;
      cbn [negb app_instance_uuid have_app_instance_uuid warnings fst snd];
      split; reflexivity.
Qed.

Lemma GetAppInstanceUUID_cases (env : Env) (s : State) :
  (exists s', GetAppInstanceUUID env s = (Returned (app_instance_uuid s'), s')
              /\ have_app_instance_uuid s' = true) \/
  (is_returned (fst (GetAppInstanceUUID env s)) = false
   /\ snd (GetAppInstanceUUID env s) = s).
Proof.
  unfold GetAppInstanceUUID.
  destruct (have_app_instance_uuid s) eqn:Eh; simpl.
  - left. exists s. split; [reflexivity | exact Eh].
  - destruct (g_base_exists env); [|left; apply finish_fixes].
    destruct (uuid_value env) as [[u|e|m]|].
    + left. apply finish_fixes.
    + right. split; reflexivity.
    + right. split; reflexivity.
    + left. apply finish_fixes.
Qed.

Lemma get_all_have (envs : list Env) (s : State) :
  have_app_instance_uuid s = true ->
  returned_values (fst (get_all envs s)) =
    repeat (app_instance_uuid s) (List.length envs) /\
  snd (get_all envs s) = s.
Proof.
  intros H. induction envs as [|env envs [IH1 IH2]]; simpl; [auto|].
  rewrite (GetAppInstanceUUID_have env s H).
  destruct (get_all envs s) as [us s2]. simpl in *. subst s2.
  rewrite IH1. auto.
Qed.

(** X12.  The app instance id is fixed by the first call that returns one:
    over any run of [GetAppInstanceUUID] calls, whatever each call finds
    around it, all the values returned are the same string.  A call that
    has returned leaves the id in place, so that every later call returns it
    again and changes nothing, without a further warning; a call that fails
    (the uuid callable's result could not be read as a string) changes
    nothing either. *)
Theorem app_instance_uuid_never_changes
    (envs : list Env) (env env' : Env) (s : State) :
  (exists u, Forall (fun v => v = u) (returned_values (fst (get_all envs s)))) /\
  (forall u s', GetAppInstanceUUID env s = (Returned u, s') ->
                GetAppInstanceUUID env' s' = (Returned u, s')) /\
  (is_returned (fst (GetAppInstanceUUID env s)) = false ->
   snd (GetAppInstanceUUID env s) = s).
Proof.
  split; [|split].
  - revert s. induction envs as [|e envs IH]; intros s; simpl.
    + exists "". constructor.
    + destruct (GetAppInstanceUUID_cases e s) as [(s' & E & Hh) | [Hn Hs]].
      * rewrite E.
        destruct (get_all_have envs s' Hh) as [H1 H2].
        destruct (get_all envs s') as [us s2]. simpl in *.
        exists (app_instance_uuid s'). constructor; [reflexivity|].
        rewrite H1. apply List.Forall_forall. intros x Hx.
        apply repeat_spec in Hx. exact Hx.
      * destruct (GetAppInstanceUUID e s) as [o s1] eqn:E. simpl in *. subst s1.
        destruct (IH s) as [u Hu].
        destruct (get_all envs s) as [us s2]. simpl in *.
        exists u. destruct o; simpl; [discriminate | exact Hu | exact Hu].
  - intros u s' E.
    destruct (GetAppInstanceUUID_cases env s) as [(s1 & E1 & Hh) | [Hn _]].
    + rewrite E in E1. inversion E1; subst.
      apply GetAppInstanceUUID_have. exact Hh.
    + rewrite E in Hn. discriminate.
  - intros Hn.
    destruct (GetAppInstanceUUID_cases env s) as [(s1 & E1 & Hh) | [_ Hs]].
    + rewrite E1 in Hn. discriminate.
    + exact Hs.
Qed.

End InstanceUUIDFacts.

Lemma app_instance_uuid_never_changes_witness :
  InstanceUUID.GetAppInstanceUUID Samples.env_fallback
    (snd (InstanceUUID.GetAppInstanceUUID Samples.env_uuid InstanceUUID.initial))
  = (Returned "5f3a",
     snd (InstanceUUID.GetAppInstanceUUID Samples.env_uuid InstanceUUID.initial)).
Proof.
  destruct (app_instance_uuid_never_changes
              [] Samples.env_uuid Samples.env_fallback InstanceUUID.initial)
    as (_ & H & _).
  apply H. vm_compute. reflexivity.
Defined.

(** ** Console text: nothing is lost *)

Section ConsoleFacts.
Import ConsolePrint.

Lemma string_append_nil_r (s : string) : String.append s "" = s.
Proof.
  induction s as [|c s IH]; [reflexivity|].
  change (String c (String.append s "") = String c s). f_equal. exact IH.
Qed.

Lemma string_append_assoc (a b c : string) :
  String.append (String.append a b) c = String.append a (String.append b c).
Proof.
  induction a as [|x a IH]; [reflexivity|].
  change (String x (String.append (String.append a b) c) =
          String x (String.append a (String.append b c))).
  f_equal. exact IH.
Qed.

Lemma join_app (l1 l2 : list string) :
  join (l1 ++ l2) = String.append (join l1) (join l2).
Proof.
  induction l1 as [|x l1 IH]; simpl; [reflexivity|].
  rewrite IH, string_append_assoc. reflexivity.
Qed.

Lemma push_before_console (hl : bool) (m buf : string) (q : list string) :
  PushConsolePrintCall false hl m (MkState None buf q) =
  MkState None (String.append buf m) q.
Proof. unfold PushConsolePrintCall. simpl. rewrite andb_false_r. reflexivity. Qed.

Lemma push_with_console (m buf : string) (printed q : list string) :
  PushConsolePrintCall false true m (MkState (Some printed) buf q) =
  MkState (Some printed) buf (q ++ [m]).
Proof. reflexivity. Qed.

Lemma push_all_cons (h : bool) (m : bool * string) (msgs : list (bool * string))
    (s : State) :
  push_all h (m :: msgs) s =
  push_all h msgs (PushConsolePrintCall h (fst m) (snd m) s).
Proof. reflexivity. Qed.

Lemma push_all_before_console (msgs : list (bool * string)) (buf : string)
    (q : list string) :
  push_all false msgs (MkState None buf q) =
  MkState None (String.append buf (join (map snd msgs))) q.
Proof.
  revert buf. induction msgs as [|[hl m] msgs IH]; intros buf.
  - simpl. rewrite string_append_nil_r. reflexivity.
  - rewrite push_all_cons. simpl fst. simpl snd.
    rewrite push_before_console, IH, string_append_assoc. reflexivity.
Qed.

Lemma push_all_with_console (texts : list string) (printed : list string)
    (buf : string) (q : list string) :
  push_all false (map (pair true) texts) (MkState (Some printed) buf q) =
  MkState (Some printed) buf (q ++ texts).
Proof.
  revert q. induction texts as [|t texts IH]; intros q.
  - simpl. rewrite app_nil_r. reflexivity.
  - simpl map. rewrite push_all_cons. simpl fst. simpl snd.
    rewrite push_with_console, IH, <- app_assoc. reflexivity.
Qed.

Lemma print_all (printed : list string) (buf : string) (q r : list string) :
  fold_left (fun s msg => Print msg s) q (MkState (Some printed) buf r) =
  MkState (Some (printed ++ q)) buf r.
Proof.
  revert printed. induction q as [|m q IH]; intros printed; simpl.
  - rewrite app_nil_r. reflexivity.
  - unfold Print at 2. simpl. rewrite IH, <- app_assoc. reflexivity.
Qed.

Lemma run_print_calls_prints (printed : list string) (buf : string)
    (q : list string) :
  run_print_calls (MkState (Some printed) buf q) =
  MkState (Some (printed ++ q)) buf [].
Proof. unfold run_print_calls. simpl. apply print_all. Qed.

Lemma push_all_headless (any : list (bool * string)) (s : State) :
  push_all true any s = s.
Proof.
  revert s. induction any as [|m any IH]; intros s; [reflexivity|].
  rewrite push_all_cons. apply IH.
Qed.

Lemma ready_state (buf : string) (q : list string) :
  OnScreenAndAssetsReady (MkState None buf q) =
  MkState (Some (if String.eqb buf "" then [] else [buf])) "" q.
Proof.
  unfold OnScreenAndAssetsReady. simpl.
  destruct (String.eqb buf "") eqn:Ee; simpl; [|reflexivity].
  apply String.eqb_eq in Ee. subst buf. reflexivity.
Qed.

Lemma join_ready (buf : string) :
  join (if String.eqb buf "" then [] else [buf]) = buf.
Proof.
  destruct (String.eqb buf "") eqn:Ee.
  - apply String.eqb_eq in Ee. subst buf. reflexivity.
  - unfold join. simpl. apply string_append_nil_r.
Qed.

(** X13.  No console text is lost or reordered.  Outside headless mode,
    whatever is pushed before the console exists (with or without a logic
    event loop) is held back, and handed to the console in one piece when
    [OnScreenAndAssetsReady] creates it; what is pushed afterwards is queued
    for the logic thread; once that queue has run, the console has printed
    exactly the pushed texts, in the order of the pushes, and nothing is
    held back.  In headless mode pushing does nothing. *)
Theorem console_prints_everything_in_order
    (before : list (bool * string)) (after_ : list string)
    (any : list (bool * string)) (s : State) :
  let ready := OnScreenAndAssetsReady (push_all false before initial) in
  let done := run_print_calls (push_all false (map (pair true) after_) ready) in
  printed_text ready = join (map snd before) /\
  console_startup_messages_ ready = "" /\
  printed_text done = join (map snd before ++ after_) /\
  console_startup_messages_ done = "" /\
  print_calls done = [] /\
  push_all true any s = s.
Proof.
  intros ready done. subst done ready. unfold initial.
  rewrite push_all_before_console.
  change (String.append "" (join (map snd before))) with (join (map snd before)).
  rewrite ready_state, push_all_with_console, run_print_calls_prints.
  unfold printed_text. cbn [console_ console_startup_messages_ print_calls app].
  split; [apply join_ready|]. split; [reflexivity|].
  split; [rewrite !join_app, join_ready; reflexivity|].
  split; [reflexivity|]. split; [reflexivity|].
  apply push_all_headless.
Qed.

End ConsoleFacts.

(** ** The description of an exception *)

Section ExceptionFacts.
Import ExcObj.

Lemma prefix_append (a b : string) : String.prefix a (a ++ b) = true.
Proof.
  induction a as [|c a IH].
  - destruct b; reflexivity.
  - change (String.prefix (String c a) (String c (a ++ b)) = true).
    cbn [String.prefix]. destruct (Ascii.ascii_dec c c); [exact IH | contradiction].
Qed.

Lemma append_newline_not_empty (a b : string) :
  String.eqb (a ++ newline ++ b) "" = false.
Proof. destruct a; reflexivity. Qed.

Lemma what_of_described (e : Exception) :
  String.eqb (full_description_ e) "" = false ->
  what e = (full_description_ e, e).
Proof. intros H. unfold what. rewrite H. reflexivity. Qed.

(** X14.  [what()] builds the description once: a second call gives the
    same text and leaves the object as the first call left it.  A copy
    made after a call of [what()] gives that same text too, also when the
    stack trace could not be copied. *)
Theorem what_is_built_once_and_survives_copy (e : Exception) :
  what (snd (what e)) = (fst (what e), snd (what e)) /\
  fst (what (Exception_copy (snd (what e)))) = fst (what e).
Proof.
  destruct (what e) as [d e1] eqn:Hw. cbn [fst snd].
  unfold what in Hw.
  destruct (String.eqb (full_description_ e) "") eqn:E.
  - destruct (stack_trace_ e) as [t|] eqn:Et; inversion Hw; subst d e1; clear Hw.
    + split.
      * apply what_of_described. apply append_newline_not_empty.
      * unfold what, Exception_copy. cbn [full_description_].
        rewrite append_newline_not_empty. reflexivity.
    + destruct (String.eqb (message_ e) "") eqn:Em;
        split; unfold what, Exception_copy;
        cbn [full_description_ stack_trace_ message_ thread_name_ python_type_];
        rewrite Em; reflexivity.
  - inversion Hw; subst d e1; clear Hw. split.
    + apply what_of_described. exact E.
    + unfold what, Exception_copy. cbn [full_description_]. rewrite E. reflexivity.
Qed.

(** X15.  For a newly constructed exception the short description (the
    message) is the beginning of what [what()] gives.  A copy taken before
    the first [what()] gives the same text when the stack trace could be
    copied, and the message alone when it could not. *)
Theorem short_description_begins_what
    (message_in : string) (python_type : PyExcType) (cur_thread_name : string)
    (platform_trace : option PlatformStackTrace) :
  let e := Exception_ctor message_in python_type cur_thread_name platform_trace in
  String.prefix (GetShortExceptionDescription e) (fst (what e)) = true /\
  fst (what (Exception_copy e)) =
    match platform_trace with
    | Some t => if can_copy t then fst (what e) else message_in
    | None => message_in
    end.
Proof.
  cbv zeta. unfold GetShortExceptionDescription, Exception_ctor, Exception_copy, what.
  cbn [full_description_ stack_trace_ message_ thread_name_ python_type_].
  change (String.eqb "" "") with true. cbv iota.
  destruct platform_trace as [t|]; cbn [fst].
  - split; [apply prefix_append|].
    unfold copy. destruct (can_copy t); reflexivity.
  - split; [|reflexivity].
    rewrite <- (string_append_nil_r message_in) at 2. apply prefix_append.
Qed.

End ExceptionFacts.

(** ** Strings and enums read from Python objects *)

Section PyValueFacts.
Import Py.

Variable ObjToString : Value -> string.
Variable lstr_class : Value.


Lemma GetPyLString_Returned_IsPyLString (o : Value) (s : string) :
  GetPyLString ObjToString lstr_class o = Returned s ->
  IsPyLString lstr_class o = true.
Proof.
  unfold GetPyLString, IsPyLString.
  destruct o; try reflexivity; cbn [PyUnicode_Check orb];
    match goal with
    | |- context [PyObject_IsInstance ?o ?c] =>
        destruct (Z.eqb_spec (PyObject_IsInstance o c) (-1)) as [->|Hn];
        [discriminate|];
        destruct (Z.eqb_spec (PyObject_IsInstance o c) 1) as [->|H1];
        [reflexivity | discriminate]
    end.
Qed.


(** X17.  [GetPyLString] raises a type error exactly for an object that is
    neither a [str] nor an instance of the [Lstr] class; whatever goes wrong
    inside an [Lstr] is not reported as a type error. *)
Theorem lstring_type_error_only_for_other_types (o : Value) :
  (exists e, GetPyLString ObjToString lstr_class o = Raised e
             /\ python_type_ e = kType) <->
  (PyUnicode_Check o = false /\ PyObject_IsInstance o lstr_class <> 1%Z).
Proof.
  unfold GetPyLString. split.
  - intros (e & H & Ht).
    destruct (PyUnicode_Check o) eqn:Eu.
    { destruct o; discriminate. }
    split; [reflexivity|]. intros Hi.
    rewrite Hi in H. cbn [Z.eqb Pos.eqb] in H.
    destruct o; try discriminate;
      destruct (PyObject_GetAttrString _ "_get_json") as [call|];
      try (inversion H; subst e; discriminate);
      destruct (PyCallable_Check call);
      try (inversion H; subst e; discriminate);
      destruct (Call call) as [json|]; try discriminate;
      destruct json; inversion H; subst e; discriminate.
  - intros [Eu Hi].
    exists (MkException ("Can't get string from value: " ++ ObjToString o ++ ".") kType).
    split; [|reflexivity].
    destruct o; try discriminate;
      match goal with
      | |- context [PyObject_IsInstance ?o ?c] =>
          destruct (Z.eqb_spec (PyObject_IsInstance o c) (-1)) as [E|Hn];
          [reflexivity|];
          destruct (Z.eqb_spec (PyObject_IsInstance o c) 1) as [E1|H1];
          [contradiction | reflexivity]
      end.
Qed.

(** X18.  [GetPyEnum] returns a number only if it lies from 0 up to, not
    including, [kLast], the object is one that [IsPyEnum] accepts, and the
    number is what the object's [value] attribute, an [int], holds. *)
Theorem enum_value_is_in_range
    (enum_class_obj : Value) (kLast : Z) (obj : Value) (value : Z) :
  GetPyEnum ObjToString enum_class_obj kLast obj = Returned value ->
  (0 <= value < kLast)%Z /\
  IsPyEnum enum_class_obj obj = true /\
  exists value_obj,
    PyObject_GetAttrString obj "value" = Some value_obj /\
    PyLong_Check value_obj = true /\
    PyLong_AS_LONG value_obj = value.
Proof.
  unfold GetPyEnum, IsPyEnum. intros H.
  destruct (PyObject_IsInstance obj enum_class_obj =? 0)%Z; [discriminate|].
  destruct (PyObject_GetAttrString obj "value") as [value_obj|]; [|discriminate].
  destruct (PyLong_Check value_obj) eqn:El; [|discriminate].
  cbn [negb] in H.
  destruct (Z.ltb_spec (PyLong_AS_LONG value_obj) 0); [discriminate|].
  destruct (Z.leb_spec kLast (PyLong_AS_LONG value_obj)); [discriminate|].
  cbn [orb] in H. inversion H; subst value.
  split; [lia|]. split; [reflexivity|].
  exists value_obj. auto.
Qed.

End PyValueFacts.


Lemma enum_value_is_in_range_witness :
  (0 <= 2 < 5)%Z /\
  Py.IsPyEnum Samples.enum_class Samples.enum_member = true /\
  exists value_obj,
    Py.PyObject_GetAttrString Samples.enum_member "value" = Some value_obj /\
    Py.PyLong_Check value_obj = true /\
    Py.PyLong_AS_LONG value_obj = 2%Z.
Proof.
  apply (enum_value_is_in_range Samples.show Samples.enum_class 5 Samples.enum_member 2).
  vm_compute. reflexivity.
Defined.

(** ** Committing the config file *)

Section ConfigFacts.
Import Py Config.

Variable ObjToString : Value -> string.
Variable lstr_class : Value.
Variable ostype_windows : bool.
Variable path : string.
Variable errno_string : string.

Lemma append_neq_self (a b : string) : b <> "" -> (a ++ b)%string <> a.
Proof.
  intros Hb. induction a as [|c a IH].
  - exact Hb.
  - change (String c (a ++ b)%string <> String c a). intros E. injection E. exact IH.
Qed.

Lemma append_inj (a b c : string) : (a ++ b = a ++ c)%string -> b = c.
Proof.
  induction a as [|x a IH]; intros E.
  - exact E.
  - change (String x (a ++ b)%string = String x (a ++ c)%string) in E.
    injection E. exact IH.
Qed.

Lemma temp_is_not_path : path_temp path <> path.
Proof. apply append_neq_self. discriminate. Qed.

Lemma prev_is_not_path : path_prev path <> path.
Proof. apply append_neq_self. discriminate. Qed.

Lemma temp_is_not_prev : path_temp path <> path_prev path.
Proof. intros E. apply append_inj in E. discriminate. Qed.

(** Lookups in a file table after inserts and deletes at other paths. *)
Ltac fs_simpl :=
  repeat first
    [ rewrite lookup_insert_eq
    | rewrite lookup_insert_ne by congruence
    | rewrite lookup_delete_eq
    | rewrite lookup_delete_ne by congruence
    | progress cbn [orb andb negb Z.eqb Pos.eqb fst snd] ].

(** X19.  When nothing fails on the way and the config string is not
    empty, [commit_config] returns, the config path holds the new string,
    the temp file is gone, every other file is as before, and the previous
    config, if there was one, is now the [.prev] file.  This is so on
    Windows too, where a rename does not overwrite. *)
Theorem commit_config_installs_new_and_backs_up_old
    (config_obj : Value) (final_str : string) (fs : Files) :
  GetPyLString ObjToString lstr_class config_obj = Returned final_str ->
  final_str <> "" ->
  let r := PyCommitConfig ObjToString lstr_class ostype_windows path errno_string
             no_faults config_obj fs in
  fst r = Returned tt /\
  snd r !! path = Some final_str /\
  snd r !! path_temp path = None /\
  snd r !! path_prev path =
    match fs !! path with
    | Some old => Some old
    | None => fs !! path_prev path
    end /\
  forall q, q <> path -> q <> path_temp path -> q <> path_prev path ->
            snd r !! q = fs !! q.
Proof.
  intros Hg Hne r. subst r.
  pose proof temp_is_not_path as Htp.
  pose proof prev_is_not_path as Hvp.
  pose proof temp_is_not_prev as Htv.
  unfold PyCommitConfig.
  rewrite (GetPyLString_Returned_IsPyLString _ _ _ _ Hg), Hg.
  cbn [negb no_faults fopen_fails fwrite_short remove_fails rename_prev_fails rename_final_fails].
  unfold FOpen_wb, fwrite.
  apply String.eqb_neq in Hne. rewrite Hne.
  cbn [Z.eqb Pos.eqb negb].
  generalize dependent (path_temp path). generalize dependent (path_prev path).
  intros V Hvp T Htp Htv.
  unfold FilePathExists, Rename, Remove, FilePathExists.
  unfold Files in *.
  rewrite !lookup_insert_ne by congruence.
  destruct (fs !! path) as [old|] eqn:Eold;
    destruct ostype_windows; destruct (fs !! V) as [prev|] eqn:Eprev;
    fs_simpl; rewrite ?Eold, ?Eprev; fs_simpl;
    (split; [reflexivity|]); (split; [reflexivity|]); (split; [reflexivity|]);
    (split; [try reflexivity; try (symmetry; assumption)|]);
    intros q H1 H2 H3; fs_simpl; reflexivity.
Qed.


(** X21.  An empty config string is never committed: once the temp file
    is open, writing zero bytes counts as a failed write, so the call
    raises the write error and leaves an empty temp file and nothing else
    changed. *)
Theorem commit_config_refuses_empty_string
    (faults : Faults) (config_obj : Value) (fs : Files) :
  GetPyLString ObjToString lstr_class config_obj = Returned "" ->
  fopen_fails faults = false ->
  PyCommitConfig ObjToString lstr_class ostype_windows path errno_string
    faults config_obj fs
  = (Raised (Exception_msg ("Error writing config file to '"
                            ++ path_temp path ++ "': " ++ errno_string)),
     <[path_temp path := ""]> fs).
Proof.
  intros Hg Hf.
  unfold PyCommitConfig.
  rewrite (GetPyLString_Returned_IsPyLString _ _ _ _ Hg), Hg, Hf.
  reflexivity.
Qed.

End ConfigFacts.

Lemma commit_config_installs_new_and_backs_up_old_witness :
  let r := Config.PyCommitConfig Samples.show Samples.lstr_class true
             Samples.config_path "" Config.no_faults (Py.PyUnicode "{}")
             Samples.old_files in
  fst r = Returned tt /\
  snd r !! Samples.config_path = Some "{}" /\
  snd r !! Config.path_temp Samples.config_path = None /\
  snd r !! Config.path_prev Samples.config_path =
    match Samples.old_files !! Samples.config_path with
    | Some old => Some old
    | None => Samples.old_files !! Config.path_prev Samples.config_path
    end /\
  forall q, q <> Samples.config_path ->
            q <> Config.path_temp Samples.config_path ->
            q <> Config.path_prev Samples.config_path ->
            snd r !! q = Samples.old_files !! q.
Proof.
  apply (commit_config_installs_new_and_backs_up_old
           Samples.show Samples.lstr_class true Samples.config_path ""
           (Py.PyUnicode "{}") "{}" Samples.old_files).
  - reflexivity.
  - discriminate.
Defined.


Lemma commit_config_refuses_empty_string_witness :
  Config.PyCommitConfig Samples.show Samples.lstr_class false
    Samples.config_path "" Config.no_faults (Py.PyUnicode "") Samples.old_files
  = (Raised (Exception_msg ("Error writing config file to '"
                            ++ Config.path_temp Samples.config_path
                            ++ "': " ++ "")),
     <[Config.path_temp Samples.config_path := ""]> Samples.old_files).
Proof.
  apply (commit_config_refuses_empty_string
           Samples.show Samples.lstr_class false Samples.config_path ""
           Config.no_faults (Py.PyUnicode "") Samples.old_files).
  - reflexivity.
  - reflexivity.
Defined.

(** ** Random names and node message types *)

Section SceneFacts.
Import SceneV1.

Lemma GetRandomName_known (n : string) (rand : nat) (l : list string)
    (s : State) (x : string) :
  registry s !! n = Some x ->
  fst (GetRandomName n rand l s) = Returned x /\
  registry (snd (GetRandomName n rand l s)) = registry s /\
  default_names_ (snd (GetRandomName n rand l s)) = default_names_ s.
Proof.
  unfold registry, GetRandomName. intros H. rewrite H. auto.
Qed.

Lemma GetRandomName_keeps (n m : string) (rand : nat) (l : list string)
    (s : State) (x : string) :
  registry s !! n = Some x ->
  registry (snd (GetRandomName m rand l s)) !! n = Some x.
Proof.
  intros H. unfold GetRandomName. fold (registry s).
  destruct (registry s !! m) as [y|] eqn:Em; [exact H|].
  destruct (match default_names_ s with [] => l | _ :: _ => default_names_ s end)
    as [|first rest]; [exact H|].
  cbn [snd registry random_name_registry_].
  rewrite lookup_insert_ne; [exact H|]. intros ->. congruence.
Qed.

Lemma get_names_keeps (l : list string) (calls : list (string * nat))
    (s : State) (n x : string) :
  registry s !! n = Some x ->
  registry (snd (get_names l calls s)) !! n = Some x.
Proof.
  revert s. induction calls as [|[m r] calls IH]; intros s H; [exact H|].
  cbn [get_names].
  pose proof (GetRandomName_keeps n m r l s x H) as H1.
  destruct (GetRandomName m r l s) as [o s1]. cbn [snd] in H1.
  specialize (IH s1 H1).
  destruct (get_names l calls s1) as [rs s2]. exact IH.
Qed.

Lemma GetRandomName_registers (n : string) (rand : nat) (l : list string)
    (s s1 : State) (x : string) :
  GetRandomName n rand l s = (Returned x, s1) ->
  registry s1 !! n = Some x.
Proof.
  unfold GetRandomName. fold (registry s).
  destruct (registry s !! n) as [y|] eqn:En.
  - intros E. inversion E; subst. exact En.
  - destruct (match default_names_ s with [] => l | _ :: _ => default_names_ s end)
      as [|first rest]; [discriminate|].
    intros E. inversion E; subst. cbn [registry random_name_registry_].
    apply lookup_insert_eq.
Qed.

(** X22.  A name given out for a player stays that player's name: after
    [GetRandomName] has returned a name for [n], any later call for [n]
    returns the same name, whatever calls for other players were made in
    between and whatever [rand()] and the name list give by then. *)
Theorem random_name_sticks
    (n : string) (rand : nat) (l : list string) (s s1 : State) (x : string)
    (calls : list (string * nat)) (l' : list string) (rand' : nat) :
  GetRandomName n rand l s = (Returned x, s1) ->
  fst (GetRandomName n rand' l' (snd (get_names l' calls s1))) = Returned x.
Proof.
  intros H. apply GetRandomName_registers in H.
  apply (get_names_keeps l' calls) in H.
  apply GetRandomName_known. exact H.
Qed.


Lemma GetRandomName_draws (n : string) (rand : nat) (l pool : list string)
    (s : State) :
  registry s !! n = None ->
  match default_names_ s with [] => l | _ :: _ => default_names_ s end = pool ->
  pool <> [] ->
  exists i x,
    pool !! i = Some x /\
    fst (GetRandomName n rand l s) = Returned x /\
    default_names_ (snd (GetRandomName n rand l s)) = delete i pool /\
    registry (snd (GetRandomName n rand l s)) = <[n := x]> (registry s).
Proof.
  intros Hn Hp Hne. unfold GetRandomName. fold (registry s). rewrite Hn, Hp.
  destruct pool as [|first rest]; [contradiction|].
  set (i := rand mod length (first :: rest)).
  assert (Hi : i < length (first :: rest)).
  { apply Nat.mod_upper_bound. discriminate. }
  destruct (lookup_lt_is_Some_2 _ _ Hi) as [x Hx].
  exists i, x. split; [exact Hx|].
  cbn [fst snd default_names_ registry random_name_registry_].
  rewrite (nth_lookup_Some _ _ first x Hx). auto.
Qed.

Lemma get_names_from_pool (l : list string) (calls : list (string * nat))
    (s : State) :
  NoDup calls.*1 ->
  (forall n, n ∈ calls.*1 -> registry s !! n = None) ->
  length calls <= length (default_names_ s) ->
  exists names,
    fst (get_names l calls s) = map Returned names /\
    names ++ default_names_ (snd (get_names l calls s)) ≡ₚ default_names_ s.
Proof.
  revert s. induction calls as [|[n r] calls IH]; intros s Hnd Hfresh Hlen.
  - exists []. split; reflexivity.
  - cbn [fmap list_fmap fst] in Hnd, Hfresh. apply NoDup_cons in Hnd as [Hn Hnd].
    cbn [length] in Hlen.
    destruct (default_names_ s) as [|first rest] eqn:Ep; [cbn in Hlen; lia|].
    destruct (GetRandomName_draws n r l (first :: rest) s) as (i & x & Hx & Ho & Hd & Hr).
    { apply Hfresh. left. }
    { rewrite Ep. reflexivity. }
    { discriminate. }
    cbn [get_names].
    destruct (GetRandomName n r l s) as [o s1]. cbn [fst snd] in Ho, Hd, Hr. subst o.
    destruct (IH s1) as (names & Hout & Hperm).
    { exact Hnd. }
    { intros m Hm. rewrite Hr. rewrite lookup_insert_ne.
      - apply Hfresh. right. exact Hm.
      - intros ->. contradiction. }
    { rewrite Hd. rewrite length_delete by eauto. cbn [length] in *. lia. }
    destruct (get_names l calls s1) as [rs s2]. cbn [fst snd] in *.
    exists (x :: names). split.
    + cbn [map]. rewrite Hout. reflexivity.
    + cbn [app]. rewrite Hperm, Hd. symmetry. apply delete_Permutation. exact Hx.
Qed.

(** X23.  Names are drawn without putting them back.  For players that
    have no name yet, and no more of them than there are names left to draw
    from (the remaining names or, when none remain, the whole name list),
    every call returns a name, and no name is given out more often than it
    occurs among those names; if they are all different, so are the names
    given out. *)
Theorem random_names_are_drawn_without_repeats
    (l : list string) (calls : list (string * nat)) (s : State) :
  let pool := match default_names_ s with [] => l | _ :: _ => default_names_ s end in
  NoDup calls.*1 ->
  (forall n, n ∈ calls.*1 -> registry s !! n = None) ->
  length calls <= length pool ->
  exists names,
    fst (get_names l calls s) = map Returned names /\
    names ⊆+ pool /\
    (NoDup pool -> NoDup names).
Proof.
  intros pool Hnd Hfresh Hlen.
  assert (Hgoal : exists names,
             fst (get_names l calls s) = map Returned names /\ names ⊆+ pool).
  { destruct calls as [|[n r] calls].
    - exists []. split; [reflexivity|]. apply submseteq_nil_l.
    - cbn [fmap list_fmap fst] in Hnd, Hfresh. apply NoDup_cons in Hnd as [Hn Hnd].
      cbn [length] in Hlen.
      destruct (GetRandomName_draws n r l pool s) as (i & x & Hx & Ho & Hd & Hr).
      { apply Hfresh. left. }
      { reflexivity. }
      { intros E. rewrite E in Hlen. cbn in Hlen. lia. }
      cbn [get_names].
      destruct (GetRandomName n r l s) as [o s1]. cbn [fst snd] in Ho, Hd, Hr. subst o.
      destruct (get_names_from_pool l calls s1) as (names & Hout & Hperm).
      { exact Hnd. }
      { intros m Hm. rewrite Hr. rewrite lookup_insert_ne.
        - apply Hfresh. right. exact Hm.
        - intros ->. contradiction. }
      { rewrite Hd. rewrite length_delete by eauto. lia. }
      destruct (get_names l calls s1) as [rs s2]. cbn [fst snd] in *.
      exists (x :: names). split.
      + cbn [map]. rewrite Hout. reflexivity.
      + rewrite (delete_Permutation pool i x Hx). apply submseteq_skip.
        rewrite <- Hd, <- Hperm. apply submseteq_inserts_r. reflexivity. }
  destruct Hgoal as (names & H1 & H2).
  exists names. split; [exact H1|]. split; [exact H2|].
  intros Hp. apply submseteq_sublist_r in H2 as (k & Hk & Hsub).
  rewrite Hk. eapply sublist_NoDup; eassumption.
Qed.

Lemma setup_lookup (name : string) (val : nat) (format : string) (s : State) :
  node_message_types_ (SetupNodeMessageType name val format s) !! name = Some val /\
  node_message_formats_ (SetupNodeMessageType name val format s) !! val = Some format.
Proof.
  unfold SetupNodeMessageType. cbn [node_message_types_ node_message_formats_].
  split; [apply lookup_insert_eq|].
  apply list_lookup_insert_eq.
  destruct (Nat.leb_spec (length (node_message_formats_ s)) val).
  - rewrite length_app, length_replicate. lia.
  - lia.
Qed.

Lemma setup_frame (name : string) (val : nat) (format : string) (s : State) :
  (forall n, n <> name ->
     node_message_types_ (SetupNodeMessageType name val format s) !! n
     = node_message_types_ s !! n) /\
  (forall v f, v <> val ->
     node_message_formats_ s !! v = Some f ->
     node_message_formats_ (SetupNodeMessageType name val format s) !! v = Some f).
Proof.
  unfold SetupNodeMessageType. cbn [node_message_types_ node_message_formats_].
  split.
  - intros n Hn. apply lookup_insert_ne. congruence.
  - intros v f Hv Hf. rewrite list_lookup_insert_ne by congruence.
    destruct (length (node_message_formats_ s) <=? val)%nat; [|exact Hf].
    apply lookup_app_l_Some. exact Hf.
Qed.

Lemma setup_all_frame (regs : list (string * nat * string)) (s : State) :
  (forall n v, n ∉ regs.*1.*1 -> node_message_types_ s !! n = Some v ->
     node_message_types_ (setup_all regs s) !! n = Some v) /\
  (forall v f, v ∉ regs.*1.*2 -> node_message_formats_ s !! v = Some f ->
     node_message_formats_ (setup_all regs s) !! v = Some f).
Proof.
  revert s. induction regs as [|[[n0 v0] f0] regs IH]; intros s.
  - split; intros; assumption.
  - cbn [setup_all fold_left fst snd fmap list_fmap].
    change (fold_left _ regs ?x) with (setup_all regs x).
    destruct (IH (SetupNodeMessageType n0 v0 f0 s)) as [IH1 IH2].
    destruct (setup_frame n0 v0 f0 s) as [F1 F2].
    split.
    + intros n v Hn Hl. apply not_elem_of_cons in Hn as [Hne Hn].
      apply IH1; [exact Hn|]. rewrite F1 by exact Hne. exact Hl.
    + intros v f Hv Hl. apply not_elem_of_cons in Hv as [Hne Hv].
      apply IH2; [exact Hv|]. apply F2; assumption.
Qed.

(** X24.  After a run of [SetupNodeMessageType] calls whose names are all
    different and whose type numbers are all different, every registration
    can be read back: the name maps to its number and the formats vector
    holds its format at that number, whatever order the numbers came in. *)
Theorem node_message_types_are_all_retrievable
    (regs : list (string * nat * string)) (s : State)
    (name : string) (val : nat) (format : string) :
  NoDup regs.*1.*1 ->
  NoDup regs.*1.*2 ->
  (name, val, format) ∈ regs ->
  node_message_types_ (setup_all regs s) !! name = Some val /\
  node_message_formats_ (setup_all regs s) !! val = Some format.
Proof.
  revert s. induction regs as [|[[n0 v0] f0] regs IH]; intros s Hn Hv Hin.
  - inversion Hin.
  - cbn [fmap list_fmap fst snd] in Hn, Hv.
    apply NoDup_cons in Hn as [Hn0 Hn]. apply NoDup_cons in Hv as [Hv0 Hv].
    cbn [setup_all fold_left fst snd].
    change (fold_left _ regs ?x) with (setup_all regs x).
    apply elem_of_cons in Hin as [E|Hin].
    + inversion E; subst n0 v0 f0.
      destruct (setup_lookup name val format s) as [L1 L2].
      destruct (setup_all_frame regs (SetupNodeMessageType name val format s)) as [A1 A2].
      split; [apply A1 | apply A2]; assumption.
    + apply IH; assumption.
Qed.

End SceneFacts.

Lemma random_name_sticks_witness :
  fst (SceneV1.GetRandomName "p1" 0 ["Zed"]
         (snd (SceneV1.get_names ["Zed"] [("p2", 1)]
                 (snd (SceneV1.GetRandomName "p1" 5 Samples.name_list
                         SceneV1.initial)))))
  = Returned "Cy".
Proof.
  apply (random_name_sticks "p1" 5 Samples.name_list SceneV1.initial
           (snd (SceneV1.GetRandomName "p1" 5 Samples.name_list SceneV1.initial))
           "Cy" [("p2", 1)] ["Zed"] 0).
  vm_compute. reflexivity.
Defined.

Lemma random_names_are_drawn_without_repeats_witness :
  exists names,
    fst (SceneV1.get_names Samples.name_list Samples.two_players SceneV1.initial)
      = map Returned names /\
    names ⊆+ Samples.name_list /\
    (NoDup Samples.name_list -> NoDup names).
Proof.
  apply (random_names_are_drawn_without_repeats
           Samples.name_list Samples.two_players SceneV1.initial).
  - refine (bool_decide_unpack _ _). vm_compute. reflexivity.
  - intros n _. apply lookup_empty.
  - vm_compute. lia.
Defined.

Lemma node_message_types_are_all_retrievable_witness :
  SceneV1.node_message_types_
    (SceneV1.setup_all Samples.three_message_types SceneV1.initial) !! "footing"
    = Some 4 /\
  SceneV1.node_message_formats_
    (SceneV1.setup_all Samples.three_message_types SceneV1.initial) !! 4
    = Some "c".
Proof.
  apply (node_message_types_are_all_retrievable
           Samples.three_message_types SceneV1.initial "footing" 4 "c").
  - refine (bool_decide_unpack _ _). vm_compute. reflexivity.
  - refine (bool_decide_unpack _ _). vm_compute. reflexivity.
  - refine (bool_decide_unpack _ _). vm_compute. reflexivity.
Defined.

(** ** Language keys *)

Section LanguageFacts.
Import Py LanguageKeys.




End LanguageFacts.
